(** * express-remote-handlebars: a shallow embedding of the view engine

    The repository ships its engine in two variants that share most of their
    text:

    - [src/unnamed/part_000]: the cache is a [stale-lru-cache] store, the
      layout request checks the HTTP status and hands the response's
      [cache-control] header to the store (module [Part000] below);
    - [src/index.js]: the cache is a [cache-manager] memory store, the layout
      request looks neither at the status nor at the headers (module
      [IndexJs] below).

    Functions whose text is the same in both files ([getView], [getPartials],
    [readTemplate], [findTemplates], [compile]) are embedded once.

    JavaScript objects live in an explicit heap, so that aliasing and in-place
    mutation of caller-supplied objects (the render context, a request
    descriptor) are visible.  Callbacks are not run: a method returns the
    completion it would deliver (an exception thrown to the caller, or the
    callback together with the [(error, value)] pair it is invoked with).
    Every external effect (HTTP request, file read, directory scan, template
    compilation) is recorded in a trace.

    Objects are property maps without a prototype.  The one property name
    that JavaScript resolves through the prototype of a plain object,
    [__proto__], is therefore left out where the program computes the name
    it writes under: as the placeholder of [render] it gives [Unmodelled],
    and the file systems of a [world] hold no template file of that name. *)

From Stdlib Require Import Ascii.
From stdpp Require Import base gmap strings list fin_maps pretty.

Local Open Scope Z_scope.

(** ** JavaScript values *)

Definition loc := positive.

(** The per-task completion callbacks that [async.parallel] hands to the tasks
    of [render]. *)
Inductive task := TView | TLayout | TPartials.

(** Function values: templates produced by the Handlebars compiler (named by
    the source text they were compiled from), functions supplied by the caller
    (templates or callbacks, named), and the library's task callbacks. *)
Inductive func :=
| Compiled (source : string)
| Native (name : string)
| Done (t : task).

Inductive value :=
| VUndefined
| VNull
| VBool (b : bool)
| VNum (n : Z)
| VStr (s : string)
| VFun (f : func)
| VArr (items : list string)
| VObj (l : loc).

#[global] Instance task_eq_dec : EqDecision task.
Proof. solve_decision. Defined.
#[global] Instance func_eq_dec : EqDecision func.
Proof. solve_decision. Defined.
#[global] Instance value_eq_dec : EqDecision value.
Proof. solve_decision. Defined.

(** Objects are property maps; the heap maps references to objects. *)
Abbreviation object := (gmap string value).
Abbreviation heap := (gmap loc (gmap string value)).

Inductive js_type := TyUndefined | TyObject | TyBoolean | TyNumber | TyString | TyFunction.

#[global] Instance js_type_eq_dec : EqDecision js_type.
Proof. solve_decision. Defined.

Definition typeof (v : value) : js_type :=
  match v with
  | VUndefined => TyUndefined
  | VNull | VArr _ | VObj _ => TyObject
  | VBool _ => TyBoolean
  | VNum _ => TyNumber
  | VStr _ => TyString
  | VFun _ => TyFunction
  end.

(** ToBoolean. *)
Definition truthy (v : value) : bool :=
  match v with
  | VUndefined | VNull => false
  | VBool b => b
  | VNum n => negb (n =? 0)
  | VStr s => negb (String.eqb s "")
  | VFun _ | VArr _ | VObj _ => true
  end.

(** [a || b]. *)
Definition js_or (a b : value) : value := if truthy a then a else b.

(** The properties of the object at [l]; a dangling reference reads as the
    empty object. *)
Definition props (h : heap) (l : loc) : gmap string value := default ∅ (h !! l).

(** [v.k] for a property read that cannot throw ([v] is neither [undefined]
    nor [null] where the program performs it).  Only heap objects carry own
    properties in this model. *)
Definition get_prop (h : heap) (v : value) (k : string) : value :=
  match v with
  | VObj l => default VUndefined (props h l !! k)
  | _ => VUndefined
  end.

(** [o[k] = v] on the heap object at [l]. *)
Definition set_prop (h : heap) (l : loc) (k : string) (v : value) : heap :=
  <[l := <[k := v]> (props h l)]> h.

(** A fresh reference for [{...}]. *)
Definition alloc (h : heap) (o : gmap string value) : loc * heap :=
  let l := fresh (dom h) in (l, <[l := o]> h).

(** A property name that JavaScript treats as any other.  On a plain object
    [o['__proto__'] = v] does not create a property: it replaces the
    prototype of [o] when [v] is an object or a function, and does nothing
    otherwise.  Objects are property maps here, without a prototype, so the
    embedding leaves that one name out wherever the program computes the name
    of the property it writes. *)
Definition ordinary_key (k : string) : bool := negb (String.eqb k "__proto__").

(** ToString, for the property key of [o[v] = ...]; the source text of a
    function is not modelled, and neither is the key [__proto__]. *)
Definition to_string (v : value) : option string :=
  let key :=
    match v with
    | VUndefined => Some "undefined"
    | VNull => Some "null"
    | VBool true => Some "true"
    | VBool false => Some "false"
    | VNum n => Some (pretty n)
    | VStr s => Some s
    | VArr items => Some (String.concat "," items)
    | VObj _ => Some "[object Object]"
    | VFun _ => None
    end in
  k ← key; if ordinary_key k then Some k else None.

(** ** Exceptions, errors and completions *)

Inductive exn :=
| ErrorExn (message : string)
| TypeErrorExn (message : string).

(** What a Node-style callback [(error, value)] receives. *)
Inductive reply :=
| Failure (error : string)
| Success (result : value).

(** How a call of a public method ends: an exception escapes, the callback is
    invoked, or ([Pending], for [render] only) the callback is never
    invoked.  [Unmodelled] marks an input on which
    the program's behaviour depends on JavaScript features outside this
    embedding (own properties of arrays and functions, cache keys that are
    not strings, the source text of a function, the property name
    [__proto__]). *)
Inductive completion :=
| Threw (e : exn)
| Called (callback : value) (r : reply)
| Pending
| Unmodelled.

#[global] Instance exn_eq_dec : EqDecision exn.
Proof. solve_decision. Defined.
#[global] Instance reply_eq_dec : EqDecision reply.
Proof. solve_decision. Defined.
#[global] Instance completion_eq_dec : EqDecision completion.
Proof. solve_decision. Defined.

(** ** Strings *)

(** [s] without its suffix [suf], when it has it. *)
Fixpoint chop_suffix (suf s : string) : option string :=
  if String.eqb s suf then Some ""
  else match s with
       | "" => None
       | String c r => String c <$> chop_suffix suf r
       end.

(** [file.replace(/\.(handlebars|hbs)$/, '')]. *)
Definition partial_name (file : string) : string :=
  match chop_suffix ".handlebars" file with
  | Some name => name
  | None => default file (chop_suffix ".hbs" file)
  end.

(** What [glob] found names partials by ordinary property names. *)
Definition ordinary_names (found : string + list string) : bool :=
  match found with
  | inr files => forallb (λ file, ordinary_key (partial_name file)) files
  | inl _ => true
  end.

(** [s.split(sep)] for a one-character separator. *)
Fixpoint split_on (sep : Ascii.ascii) (s : string) : list string :=
  match s with
  | "" => [""]
  | String c r =>
      if Ascii.eqb c sep then "" :: split_on sep r
      else match split_on sep r with
           | [] => [String c ""]
           | w :: ws => String c w :: ws
           end
  end.

(** ** [path.resolve] (Node's POSIX implementation) *)

Definition is_absolute (p : string) : bool :=
  match p with
  | String c _ => Ascii.eqb c "/"%char
  | "" => false
  end.

(** The right-to-left loop: prepend arguments until the path is absolute,
    falling back on [process.cwd()]; empty arguments are skipped.
    [rev_args] is [arguments] reversed. *)
Fixpoint resolve_loop (cwd : string) (rev_args : list string) (resolvedPath : string)
  : string * bool :=
  match rev_args with
  | [] =>
      if String.eqb cwd "" then (resolvedPath, false)
      else (cwd +:+ "/" +:+ resolvedPath, is_absolute cwd)
  | p :: rest =>
      if String.eqb p "" then resolve_loop cwd rest resolvedPath
      else if is_absolute p then (p +:+ "/" +:+ resolvedPath, true)
      else resolve_loop cwd rest (p +:+ "/" +:+ resolvedPath)
  end.

(** [normalizeArray]: drops empty and [.] segments and resolves [..];
    [res] is the result so far, last segment first. *)
Fixpoint normalizeArray (parts : list string) (allowAboveRoot : bool) (res : list string)
  : list string :=
  match parts with
  | [] => rev res
  | p :: parts' =>
      if String.eqb p "" || String.eqb p "." then normalizeArray parts' allowAboveRoot res
      else if String.eqb p ".." then
        match res with
        | last :: res' =>
            if String.eqb last ".." then
              normalizeArray parts' allowAboveRoot
                (if allowAboveRoot then ".." :: res else res)
            else normalizeArray parts' allowAboveRoot res'
        | [] => normalizeArray parts' allowAboveRoot (if allowAboveRoot then [".."] else [])
        end
      else normalizeArray parts' allowAboveRoot (p :: res)
  end.

(** [path.resolve(...args)] on strings. *)
Definition path_resolve (cwd : string) (args : list string) : string :=
  let '(resolvedPath, resolvedAbsolute) := resolve_loop cwd (rev args) "" in
  let joined :=
    String.concat "/" (normalizeArray (split_on "/"%char resolvedPath) (negb resolvedAbsolute) []) in
  let out := (if resolvedAbsolute then "/" else "") +:+ joined in
  if String.eqb out "" then "." else out.

Arguments path_resolve : simpl never.

(** [path.resolve(arg)] on any value: anything but a string is a
    [TypeError]. *)
Definition path_resolve_value (cwd : string) (arg : value) : exn + string :=
  match arg with
  | VStr p => inr (path_resolve cwd [p])
  | _ => inl (TypeErrorExn "Arguments to path.resolve must be strings")
  end.

(** ** The cache stores

    The stores ([stale-lru-cache] in [part_000], [cache-manager] in
    [index.js]) are libraries outside the repository.  They are embedded from
    the specification's sections 3, 4.1 and 4.2. *)

(** Modelled from the spec: a maximum age of section 3, in seconds, or the
    infinite TTL of the forever store. *)
Inductive lifetime :=
| Seconds (n : Z)
| NoExpiry.

(** Modelled from the spec: a point in time, in seconds; [Never] is the
    expiry of an entry with infinite TTL. *)
Inductive instant :=
| At (t : Z)
| Never.

(** Modelled from the spec: [expiresAt = createdAt + maxAge]. *)
Definition after (t : Z) (d : lifetime) : instant :=
  match d with
  | Seconds n => At (t + n)
  | NoExpiry => Never
  end.

(** Modelled from the spec: [staleUntil = expiresAt + staleWhileRevalidate]. *)
Definition later (i : instant) (n : Z) : instant :=
  match i with
  | At t => At (t + n)
  | Never => Never
  end.

(** Modelled from the spec: [now < i]. *)
Definition before (now : Z) (i : instant) : bool :=
  match i with
  | At t => now <? t
  | Never => true
  end.

(** Modelled from the spec: the cache entry of section 3,
    [{ value, createdAt, expiresAt, staleUntil }]. *)
Record CacheEntry := {
  value_of : value;
  createdAt : Z;
  expiresAt : instant;
  staleUntil : instant
}.

(** Modelled from the spec: the directives of section 3 parsed from a
    [cache-control] header; [mustRevalidate] is the third directive that
    section 8 lists with [no-store] and [no-cache]. *)
Record FreshnessDirectives := {
  maxAge : option Z;
  staleWhileRevalidate : option Z;
  noStore : bool;
  noCache : bool;
  mustRevalidate : bool
}.

(** Modelled from the spec: the store of section 4.2.  [entries] is kept in
    order of use, most recently used first; [maxSize = None] is the unbounded
    configuration. *)
Record TemplateCache := {
  entries : list (string * CacheEntry);
  maxSize : option nat;
  defaultMaxAge : lifetime;
  defaultStaleWhileRevalidate : Z
}.

(** Modelled from the spec: the directives of an empty header. *)
Definition no_directives : FreshnessDirectives :=
  {| maxAge := None; staleWhileRevalidate := None;
     noStore := false; noCache := false; mustRevalidate := false |}.

(** Modelled from the spec: optional white space around a directive. *)
Definition is_space (c : Ascii.ascii) : bool :=
  Ascii.eqb c " "%char || Ascii.eqb c "009"%char.

(** Modelled from the spec: leading white space removed. *)
Fixpoint trim_left (s : string) : string :=
  match s with
  | String c r => if is_space c then trim_left r else s
  | "" => ""
  end.

(** Modelled from the spec: trailing white space removed. *)
Fixpoint trim_right (s : string) : string :=
  match s with
  | String c r =>
      let r' := trim_right r in
      if is_space c && String.eqb r' "" then "" else String c r'
  | "" => ""
  end.

(** Modelled from the spec: a directive without its surrounding white
    space. *)
Definition trim (s : string) : string := trim_right (trim_left s).

(** Modelled from the spec: directive names are matched without regard to
    case. *)
Definition lower (c : Ascii.ascii) : Ascii.ascii :=
  let n := Ascii.N_of_ascii c in
  if ((65 <=? n) && (n <=? 90))%N then Ascii.ascii_of_N (n + 32) else c.

(** Modelled from the spec: [lower] on every character. *)
Fixpoint lowercase (s : string) : string :=
  match s with
  | String c r => String (lower c) (lowercase r)
  | "" => ""
  end.

(** Modelled from the spec: a run of decimal digits, read left to right. *)
Fixpoint digits (s : string) (acc : Z) : option Z :=
  match s with
  | "" => Some acc
  | String c r =>
      let n := Ascii.N_of_ascii c in
      if ((48 <=? n) && (n <=? 57))%N then digits r (10 * acc + Z.of_N (n - 48)) else None
  end.

(** Modelled from the spec: the argument of [max-age] and
    [stale-while-revalidate], a non-empty run of digits. *)
Definition parse_seconds (s : string) : option Z :=
  if String.eqb s "" then None else digits s 0.

(** Modelled from the spec: a directive is [name] or [name=value]. *)
Definition parse_directive (tok : string) (d : FreshnessDirectives) : FreshnessDirectives :=
  match split_on "="%char (trim tok) with
  | name :: rest =>
      let arg := parse_seconds (trim (String.concat "=" rest)) in
      let name := lowercase (trim name) in
      if String.eqb name "no-store" then
        {| maxAge := maxAge d; staleWhileRevalidate := staleWhileRevalidate d;
           noStore := true; noCache := noCache d; mustRevalidate := mustRevalidate d |}
      else if String.eqb name "no-cache" then
        {| maxAge := maxAge d; staleWhileRevalidate := staleWhileRevalidate d;
           noStore := noStore d; noCache := true; mustRevalidate := mustRevalidate d |}
      else if String.eqb name "must-revalidate" then
        {| maxAge := maxAge d; staleWhileRevalidate := staleWhileRevalidate d;
           noStore := noStore d; noCache := noCache d; mustRevalidate := true |}
      else if String.eqb name "max-age" then
        {| maxAge := arg; staleWhileRevalidate := staleWhileRevalidate d;
           noStore := noStore d; noCache := noCache d; mustRevalidate := mustRevalidate d |}
      else if String.eqb name "stale-while-revalidate" then
        {| maxAge := maxAge d; staleWhileRevalidate := arg;
           noStore := noStore d; noCache := noCache d; mustRevalidate := mustRevalidate d |}
      else d
  | [] => d
  end.

(** Modelled from the spec: the header is a comma-separated list of
    directives. *)
Definition parseCacheControl (header : string) : FreshnessDirectives :=
  foldl (fun d tok => parse_directive tok d) no_directives (split_on ","%char header).

(** Modelled from the spec: the third argument a loader hands back, a header
    string or nothing. *)
Definition directives_of (cacheControl : value) : option FreshnessDirectives :=
  match cacheControl with
  | VStr header => Some (parseCacheControl header)
  | _ => None
  end.

(** Modelled from the spec: FreshnessPolicy, section 4.1.  [None] is "do not
    cache". *)
Definition FreshnessPolicy (c : TemplateCache) (d : option FreshnessDirectives)
  : option (lifetime * Z) :=
  match d with
  | Some d =>
      if noStore d || noCache d || mustRevalidate d then None
      else match maxAge d with
           | Some m => Some (Seconds m, default (defaultStaleWhileRevalidate c) (staleWhileRevalidate d))
           | None => Some (defaultMaxAge c, defaultStaleWhileRevalidate c)
           end
  | None => Some (defaultMaxAge c, defaultStaleWhileRevalidate c)
  end.

(** Modelled from the spec: the three ages of an entry, section 3. *)
Inductive freshness := IsFresh | IsStale | IsExpired.

(** Modelled from the spec: fresh before [expiresAt], stale before
    [staleUntil], expired from then on. *)
Definition freshness_at (now : Z) (e : CacheEntry) : freshness :=
  if before now (expiresAt e) then IsFresh
  else if before now (staleUntil e) then IsStale
  else IsExpired.

(** Modelled from the spec: the entry under [key], if any. *)
Fixpoint find_entry (key : string) (l : list (string * CacheEntry)) : option CacheEntry :=
  match l with
  | [] => None
  | (k, e) :: l' => if String.eqb k key then Some e else find_entry key l'
  end.

(** Modelled from the spec: the entries without those under [key]. *)
Fixpoint remove_key (key : string) (l : list (string * CacheEntry)) : list (string * CacheEntry) :=
  match l with
  | [] => []
  | (k, e) :: l' => if String.eqb k key then remove_key key l' else (k, e) :: remove_key key l'
  end.

(** Modelled from the spec: the store [c] holding the entries [l]. *)
Definition with_entries (c : TemplateCache) (l : list (string * CacheEntry)) : TemplateCache :=
  {| entries := l; maxSize := maxSize c;
     defaultMaxAge := defaultMaxAge c;
     defaultStaleWhileRevalidate := defaultStaleWhileRevalidate c |}.

(** Modelled from the spec: [get(key)], a pure lookup that never returns an
    entry past its [staleUntil]. *)
Definition cache_get (now : Z) (key : string) (c : TemplateCache) : option CacheEntry :=
  match find_entry key (entries c) with
  | Some e => match freshness_at now e with IsExpired => None | _ => Some e end
  | None => None
  end.

(** Modelled from the spec: [isStale(key)]. *)
Definition isStale (now : Z) (key : string) (c : TemplateCache) : bool :=
  match find_entry key (entries c) with
  | Some e => match freshness_at now e with IsStale => true | _ => false end
  | None => false
  end.

(** Modelled from the spec: a use of [key] moves its entry to the front. *)
Definition touch (key : string) (c : TemplateCache) : TemplateCache :=
  match find_entry key (entries c) with
  | Some e => with_entries c ((key, e) :: remove_key key (entries c))
  | None => c
  end.

(** Modelled from the spec: the size bound, the least recently used entries
    beyond [maxSize] go. *)
Definition bounded (c : TemplateCache) (l : list (string * CacheEntry)) : list (string * CacheEntry) :=
  match maxSize c with
  | Some n => take n l
  | None => l
  end.

(** Modelled from the spec: what [readThrough] stores after a successful
    load, with the freshness of section 4.1; under "do not cache" the key
    holds nothing afterwards. *)
Definition store (now : Z) (key : string) (v : value) (cacheControl : value)
    (c : TemplateCache) : TemplateCache :=
  match FreshnessPolicy c (directives_of cacheControl) with
  | Some (age, swr) =>
      let e := {| value_of := v; createdAt := now;
                  expiresAt := after now age;
                  staleUntil := later (after now age) swr |} in
      with_entries c (bounded c ((key, e) :: remove_key key (entries c)))
  | None => with_entries c (remove_key key (entries c))
  end.

(** ** The engine instance, the world and the effect monad *)

(** The fields of a [RemoteHandlebars] object.  ([request] and [handlebars]
    are the transport and the compiler of the [world] below.) *)
Record RemoteHandlebars := {
  this_layout : value;
  this_placeholder : value;
  this_helpers : value;
  this_partialsDir : value;
  this_cache : TemplateCache;
  this_cacheForever : TemplateCache
}.

Record state := {
  this : RemoteHandlebars;
  mem : heap
}.

Record settings := {
  settings_helpers : value;
  settings_partials : value;
  settings_data : value
}.

Record response := {
  statusCode : Z;
  headers : gmap string string;
  body : string
}.

(** The external collaborators: the transport ([request]), the file system
    ([fs.readFile], [glob]) and the behaviour of functions called as
    templates.  Failures carry the error's message.

    The file systems of the embedding hold no template file named
    [__proto__.hbs] or [__proto__.handlebars], in any directory
    ([glob_ordinary]).  For such a file [findTemplates] executes
    [templates['__proto__'] = template], which replaces the prototype of the
    memo by the template, a function, and adds no partial; from then on an
    assignment under a name that a function holds read-only ([name],
    [length]) throws in strict mode, inside a callback of [fs.readFile].
    Neither the prototype nor that exception has a place in this model, so
    what is proved of a [world] is proved of the file systems without such a
    file. *)
Record world := {
  cwd : string;
  request : heap -> value -> string + response;
  readFile : string -> string + string;
  glob : string -> string + list string;
  exec : func -> heap -> value -> settings -> string;
  glob_ordinary : ∀ dir, ordinary_names (glob dir) = true
}.

Inductive event :=
| EvRequest (url : value)
| EvReadFile (filePath : string)
| EvGlob (dir : string)
| EvCompile (template : string).

#[global] Instance event_eq_dec : EqDecision event.
Proof. solve_decision. Defined.

(** State and trace passing. *)
Definition M (A : Type) : Type := state -> A * state * list event.

#[global] Instance M_ret : MRet M := fun A a st => (a, st, []).
#[global] Instance M_bind : MBind M := fun A B f m st =>
  let r1 := m st in
  let r2 := f r1.1.1 r1.1.2 in
  (r2.1.1, r2.1.2, r1.2 ++ r2.2).

Definition emit (e : event) : M unit := fun st => (tt, st, [e]).
Definition gets {A : Type} (f : state -> A) : M A := fun st => (f st, st, []).
Definition modify (f : state -> state) : M unit := fun st => (tt, f st, []).

Definition set_mem (h : heap) (st : state) : state := {| this := this st; mem := h |}.

(** [{...}]: a new object. *)
Definition new_object (o : gmap string value) : M loc :=
  fun st => let '(l, h) := alloc (mem st) o in (l, set_mem h st, []).

(** [o[k] = v]. *)
Definition assign (l : loc) (k : string) (v : value) : M unit :=
  modify (fun st => set_mem (set_prop (mem st) l k v) st).

(** The two stores of an instance. *)
Inductive which := Remote | Local.

Definition cache_of (w : which) (st : state) : TemplateCache :=
  match w with
  | Remote => this_cache (this st)
  | Local => this_cacheForever (this st)
  end.

Definition set_cache (w : which) (c : TemplateCache) (st : state) : state :=
  let t := this st in
  {| this :=
       {| this_layout := this_layout t;
          this_placeholder := this_placeholder t;
          this_helpers := this_helpers t;
          this_partialsDir := this_partialsDir t;
          this_cache := match w with Remote => c | Local => this_cache t end;
          this_cacheForever := match w with Remote => this_cacheForever t | Local => c end |};
     mem := mem st |}.

(** What a loader hands to its callback: [(error)] or
    [(null, value, cacheControl)]. *)
Inductive loaded :=
| LoadError (error : string)
| Loaded (v : value) (cacheControl : value).

Definition reply_of (r : loaded) : reply :=
  match r with
  | LoadError e => Failure e
  | Loaded v _ => Success v
  end.

(** Modelled from the spec: [readThrough], section 4.2 (the stores' [wrap]).
    A fresh entry is returned; a stale one is returned while a refresh runs,
    whose failure is dropped; otherwise the loader runs, a success is stored
    with the freshness of section 4.1 and a failure is propagated and not
    stored. *)
Definition readThrough (w : which) (now : Z) (key : string) (loader : M loaded) : M reply :=
  c ← gets (cache_of w);
  let miss :=
    r ← loader;
    match r with
    | LoadError e => mret (Failure e)
    | Loaded v cacheControl =>
        modify (fun st => set_cache w (store now key v cacheControl (cache_of w st)) st);;
        mret (Success v)
    end in
  match find_entry key (entries c) with
  | Some e =>
      match freshness_at now e with
      | IsFresh =>
          modify (set_cache w (touch key c));;
          mret (Success (value_of e))
      | IsStale =>
          modify (set_cache w (touch key c));;
          r ← loader;
          match r with
          | LoadError _ => mret ()
          | Loaded v cacheControl =>
              modify (fun st => set_cache w (store now key v cacheControl (cache_of w st)) st)
          end;;
          mret (Success (value_of e))
      | IsExpired => miss
      end
  | None => miss
  end.

(** ** Methods shared by both variants *)

Section Engine.

Context (W : world).

(** [RemoteHandlebars.prototype.compile]. *)
Definition compile (template : string) : M value :=
  emit (EvCompile template);;
  mret (VFun (Compiled template)).

(** [RemoteHandlebars.prototype.readTemplate]. *)
Definition readTemplate (filePath : string) : M loaded :=
  emit (EvReadFile filePath);;
  match readFile W filePath with
  | inl error => mret (LoadError error)
  | inr content =>
      template ← compile content;
      mret (Loaded template VUndefined)
  end.

(** The [async.each] over the files of one directory: every file is read;
    [templates[name] = template] while no read has failed.  (The reads are
    issued in list order; the model completes them in that order.)  The
    assignment adds or replaces the property [name] of the memo: [name] is an
    ordinary property name, by [glob_ordinary]. *)
Fixpoint each_file (dir : string) (files : list string) (templates : string + gmap string value)
  : M (string + gmap string value) :=
  match files with
  | [] => mret templates
  | file :: files' =>
      let filePath := path_resolve (cwd W) [dir; file] in
      r ← readTemplate filePath;
      each_file dir files'
        match templates, r with
        | inl error, _ => inl error
        | inr _, LoadError error => inl error
        | inr templates, Loaded template _ => inr (<[partial_name file := template]> templates)
        end
  end.

(** The [async.reduce] over the directories, in series, from the memo
    [templates]. *)
Fixpoint reduce_dirs (paths : list string) (templates : gmap string value)
  : M (string + gmap string value) :=
  match paths with
  | [] => mret (inr templates)
  | dir :: paths' =>
      emit (EvGlob dir);;
      match glob W dir with
      | inl error => mret (inl error)
      | inr files =>
          r ← each_file dir files (inr templates);
          match r with
          | inl error => mret (inl error)
          | inr templates' => reduce_dirs paths' templates'
          end
      end
  end.

(** [RemoteHandlebars.prototype.findTemplates]; the memo object [{}] is
    built functionally and put on the heap when the reduction succeeds. *)
Definition findTemplates (paths : list string) : M loaded :=
  r ← reduce_dirs paths ∅;
  match r with
  | inl error => mret (LoadError error)
  | inr templates =>
      l ← new_object templates;
      mret (Loaded (VObj l) VUndefined)
  end.

(** [options.cache === false], read when the method reaches the test. *)
Definition cache_disabled (options : value) : M bool :=
  h ← gets mem;
  mret (bool_decide (get_prop h options "cache" = VBool false)).

(** [RemoteHandlebars.prototype.getView]. *)
Definition getView (now : Z) (filePath options callback : value) : M completion :=
  let '(options, callback) :=
    if decide (typeof options = TyFunction) then (VNull, options) else (options, callback) in
  match path_resolve_value (cwd W) filePath with
  | inl e => mret (Threw e)
  | inr filePath =>
      if String.eqb filePath "" then
        mret (Threw (ErrorExn "RemoteHandlebars.getView expects filePath"))
      else if negb (truthy callback) then
        mret (Threw (ErrorExn "RemoteHandlebars.getView expects callback"))
      else
        off ← cache_disabled options;
        if (off : bool) then
          r ← readTemplate filePath;
          mret (Called callback (reply_of r))
        else
          r ← readThrough Local now filePath (readTemplate filePath);
          mret (Called callback r)
  end.

(** [partialsDir.join('')], the key of a directory list in the forever
    store. *)
Definition partials_key (paths : list string) : string := String.concat "" paths.

(** [if (typeof partialsDir === 'string') partialsDir = [partialsDir]]: the
    directory list of a string or of an array of strings. *)
Definition paths_of (partialsDir : value) : option (list string) :=
  match partialsDir with
  | VStr dir => Some [dir]
  | VArr dirs => Some dirs
  | _ => None
  end.

(** [RemoteHandlebars.prototype.getPartials]. *)
Definition getPartials (now : Z) (partialsDir options callback : value) : M completion :=
  let '(partialsDir, options, callback) :=
    if decide (typeof options = TyFunction) then (partialsDir, VNull, options)
    else if decide (typeof partialsDir = TyFunction) then (VNull, VNull, partialsDir)
    else (partialsDir, options, callback) in
  self ← gets this;
  let partialsDir := js_or partialsDir (this_partialsDir self) in
  if negb (truthy partialsDir) then
    mret (Threw (ErrorExn "RemoteHandlebars.getPartials expects partialsDir or this.partialsDir"))
  else if negb (truthy callback) then
    mret (Threw (ErrorExn "RemoteHandlebars.getPartials expects callback"))
  else
    match paths_of partialsDir with
    | None => mret Unmodelled
    | Some paths =>
        off ← cache_disabled options;
        if (off : bool) then
          r ← findTemplates paths;
          mret (Called callback (reply_of r))
        else
          r ← readThrough Local now (partials_key paths) (findTemplates paths);
          mret (Called callback r)
    end.

End Engine.

(** ** [async.parallel] *)

(** What the join of [async.parallel] hands on. *)
Inductive joined :=
| Aborted (c : completion)
| Errored (error : string)
| Results (results : list (task * value)).

(** The tasks are called in insertion order.  A task that throws ends the
    dispatch; a task that invokes something else than its own completion
    callback never completes ([None]). *)
Fixpoint dispatch (tasks : list (task * M completion))
  : M (completion + list (task * option reply)) :=
  match tasks with
  | [] => mret (inr [])
  | (t, run) :: tasks' =>
      c ← run;
      match c with
      | Called cb r =>
          rest ← dispatch tasks';
          mret match rest with
               | inl c' => inl c'
               | inr outs => inr ((t, if decide (cb = VFun (Done t)) then Some r else None) :: outs)
               end
      | _ => mret (inl c)
      end
  end.

Fixpoint first_error (outs : list (task * option reply)) : option string :=
  match outs with
  | [] => None
  | (_, Some (Failure error)) :: _ => Some error
  | _ :: outs' => first_error outs'
  end.

Fixpoint gather (outs : list (task * option reply)) : option (list (task * value)) :=
  match outs with
  | [] => Some []
  | (t, Some (Success v)) :: outs' => (fun results => (t, v) :: results) <$> gather outs'
  | _ :: _ => None
  end.

(** The final callback of [async.parallel] fires on the first error, or once
    every task has completed.  (The model completes the tasks in dispatch
    order, so the first error is the first in that order.) *)
Definition parallel (tasks : list (task * M completion)) : M joined :=
  d ← dispatch tasks;
  mret match d with
       | inl c => Aborted c
       | inr outs =>
           match first_error outs with
           | Some error => Errored error
           | None =>
               match gather outs with
               | Some results => Results results
               | None => Aborted Pending
               end
           end
       end.

(** [results.t], [undefined] when task [t] was not in [tasks]. *)
Fixpoint result_of (t : task) (results : list (task * value)) : value :=
  match results with
  | [] => VUndefined
  | (t', v) :: results' => if decide (t' = t) then v else result_of t results'
  end.

(** ** Ensuring the [Accept] header (the same lines in both variants) *)

Definition accept : string := "text/x-handlebars-template".

(** [url.headers || (url.headers = {}); url.headers['Accept'] = ...] on the
    descriptor at [l].  The files are in strict mode: assigning a property of
    a primitive throws. *)
Definition set_accept (l : loc) : M (completion + loc) :=
  h ← gets mem;
  (if truthy (get_prop h (VObj l) "headers") then mret ()
   else lh ← new_object ∅; assign l "headers" (VObj lh));;
  h ← gets mem;
  match get_prop h (VObj l) "headers" with
  | VObj lh => assign lh "Accept" (VStr accept);; mret (inr l)
  | VArr _ | VFun _ => mret (inl Unmodelled)
  | _ => mret (inl (Threw (TypeErrorExn "Cannot create property 'Accept' on a primitive")))
  end.

(** [if (typeof url === 'string') url = {url: url}], then the header. *)
Definition ensure_accept_header (url : value) : M (completion + loc) :=
  match url with
  | VStr s => l ← new_object {["url" := VStr s]}; set_accept l
  | VObj l => set_accept l
  | VArr _ | VFun _ => mret (inl Unmodelled)
  | _ => mret (inl (Threw (TypeErrorExn "Cannot create property 'headers' on a primitive")))
  end.

(** Calling [f(context, settings)]. *)
Definition call (W : world) (f : value) (context : value) (s : settings) : M (exn + string) :=
  h ← gets mem;
  mret match f with
       | VFun f => inr (exec W f h context s)
       | _ => inl (TypeErrorExn "not a function")
       end.

(** Modelled from the spec: the dedicated forever store of section 4.2,
    infinite TTL and size. *)
Definition forever : TemplateCache :=
  {| entries := []; maxSize := None; defaultMaxAge := NoExpiry;
     defaultStaleWhileRevalidate := 0 |}.

(** Modelled from the spec: a store configured from option values, with the
    defaults of section 6 ([maxAge] 60 seconds, [staleWhileRevalidate] 0,
    unbounded size). *)
Definition configured (size age swr : value) : TemplateCache :=
  {| entries := [];
     maxSize := match size with
                | VNum n => if 0 <? n then Some (Z.to_nat n) else None
                | _ => None
                end;
     defaultMaxAge := match age with VNum n => Seconds n | _ => Seconds 60 end;
     defaultStaleWhileRevalidate := match swr with VNum n => n | _ => 0 end |}.

Definition option_of (options : gmap string value) (k : string) : value :=
  default VUndefined (options !! k).

(** ** [getLayout] (the same text in both variants, up to how the callback of
    [requestTemplate] is wrapped) *)

(** [RemoteHandlebars.prototype.getLayout], over the variant's
    [requestTemplate]. *)
Definition getLayout_with (requestTemplate : value -> M loaded)
    (now : Z) (url options callback : value) : M completion :=
  let '(url, options, callback) :=
    if decide (typeof options = TyFunction) then (url, VNull, options)
    else if decide (typeof url = TyFunction) then (VNull, VNull, url)
    else (url, options, callback) in
  self ← gets this;
  let url := js_or url (this_layout self) in
  if negb (truthy url) then
    mret (Threw (ErrorExn "RemoteHandlebars.getLayout expects url or this.layout"))
  else if negb (truthy callback) then
    mret (Threw (ErrorExn "RemoteHandlebars.getLayout expects callback"))
  else
    d ← ensure_accept_header url;
    match d with
    | inl c => mret c
    | inr l =>
        off ← cache_disabled options;
        if (off : bool) then
          r ← requestTemplate (VObj l);
          mret (Called callback (reply_of r))
        else
          h ← gets mem;
          match get_prop h (VObj l) "url" with
          | VStr key =>
              r ← readThrough Remote now key (requestTemplate (VObj l));
              mret (Called callback r)
          | _ => mret Unmodelled
          end
    end.

(** ** The first lines of [render] (the same in both variants)

    Per-call options take precedence over the instance's. *)

(** [('layout' in options) ? options.layout : this.layout]. *)
Definition layout_for (st : state) (options : loc) : value :=
  default (this_layout (this st)) (props (mem st) options !! "layout").

(** [options.placeholder || this.placeholder]. *)
Definition placeholder_for (st : state) (options : loc) : value :=
  js_or (get_prop (mem st) (VObj options) "placeholder") (this_placeholder (this st)).

(** [options.helpers || this.helpers]. *)
Definition helpers_for (st : state) (options : loc) : value :=
  js_or (get_prop (mem st) (VObj options) "helpers") (this_helpers (this st)).

(** [options.partialsDir || this.partialsDir]. *)
Definition partialsDir_for (st : state) (options : loc) : value :=
  js_or (get_prop (mem st) (VObj options) "partialsDir") (this_partialsDir (this st)).

(** The [settings] object built in the join callback. *)
Definition settings_for (helpers : value) (results : list (task * value)) (h : heap)
    (options : loc) : settings :=
  {| settings_helpers := helpers;
     settings_partials := result_of TPartials results;
     settings_data := get_prop h (VObj options) "data" |}.

(** ** Variant [src/unnamed/part_000] *)

Module Part000.
Section Variant.

Context (W : world).

(** [new RemoteHandlebars(options)]; [options] are the properties of the
    options object ([{}] when omitted). *)
Definition create (options : gmap string value) : RemoteHandlebars :=
  {| this_layout := default (VBool false) (options !! "layout");
     this_placeholder := js_or (option_of options "placeholder") (VStr "content");
     this_helpers := option_of options "helpers";
     this_partialsDir := js_or (option_of options "partialsDir") (VStr "views/partials/");
     this_cache :=
       configured
         (js_or (option_of options "size")
            (js_or (option_of options "max") (option_of options "maxSize")))
         (option_of options "maxAge")
         (option_of options "staleWhileRevalidate");
     this_cacheForever := forever |}.

(** [RemoteHandlebars.prototype.requestTemplate]. *)
Definition requestTemplate (url : value) : M loaded :=
  emit (EvRequest url);;
  h ← gets mem;
  match request W h url with
  | inl error => mret (LoadError error)
  | inr response =>
      if 400 <=? statusCode response then
        mret (LoadError ("HTTP status code '" +:+ pretty (statusCode response) +:+ "' received"))
      else
        template ← compile (body response);
        let cacheControl :=
          match headers response !! "cache-control" with
          | Some header => VStr header
          | None => VUndefined
          end in
        mret (Loaded template cacheControl)
  end.

(** [RemoteHandlebars.prototype.getLayout]. *)
Definition getLayout : Z -> value -> value -> value -> M completion :=
  getLayout_with requestTemplate.

(** [layoutTask] of [render]. *)
Definition layoutTask (now : Z) (layout : value) (options : loc) : M completion :=
  if decide (typeof layout = TyFunction)
  then mret (Called (VFun (Done TLayout)) (Success layout))
  else getLayout now layout (VObj options) (VFun (Done TLayout)).

(** The [tasks] object of [render], in insertion order. *)
Definition tasks (now : Z) (filePath : value) (options : loc) (st : state)
  : list (task * M completion) :=
  let layout := layout_for st options in
  let partialsDir := partialsDir_for st options in
  [(TView, getView W now filePath (VObj options) (VFun (Done TView)))]
  ++ (if truthy layout then [(TLayout, layoutTask now layout options)] else [])
  ++ (if truthy partialsDir
      then [(TPartials, getPartials W now partialsDir (VObj options) (VFun (Done TPartials)))]
      else []).

(** [RemoteHandlebars.prototype.render]; [options] is the object Express
    passes, which is also the render context. *)
Definition render (now : Z) (filePath : value) (options : loc) (callback : value)
  : M completion :=
  st ← gets id;
  let context := VObj options in
  let placeholder := placeholder_for st options in
  let helpers := helpers_for st options in
  j ← parallel (tasks now filePath options st);
  match j with
  | Aborted c => mret c
  | Errored error => mret (Called callback (Failure error))
  | Results results =>
      h ← gets mem;
      let settings := settings_for helpers results h options in
      rendered ← call W (result_of TView results) context settings;
      match rendered with
      | inl e => mret (Threw e)
      | inr rendered =>
          if truthy (result_of TLayout results) then
            match to_string placeholder with
            | None => mret Unmodelled
            | Some key =>
                assign options key (VStr rendered);;
                rendered ← call W (result_of TLayout results) context settings;
                match rendered with
                | inl e => mret (Threw e)
                | inr rendered => mret (Called callback (Success (VStr rendered)))
                end
            end
          else mret (Called callback (Success (VStr rendered)))
      end
  end.

End Variant.
End Part000.

(** ** Variant [src/index.js] *)

Module IndexJs.
Section Variant.

Context (W : world).

(** [new RemoteHandlebars(options)].  A caller-supplied [options.cache]
    replaces the store by a function of the caller's; such instances are
    outside the model ([None]). *)
Definition create (options : gmap string value) : option RemoteHandlebars :=
  if truthy (option_of options "cache") then None
  else Some
    {| this_layout := default (VBool false) (options !! "layout");
       this_placeholder := js_or (option_of options "placeholder") (VStr "content");
       this_helpers := option_of options "helpers";
       this_partialsDir := js_or (option_of options "partialsDir") (VStr "views/partials/");
       this_cache :=
         configured (option_of options "size") (default (VNum 60) (options !! "maxAge")) (VNum 0);
       this_cacheForever := forever |}.

(** [RemoteHandlebars.prototype.requestTemplate]. *)
Definition requestTemplate (url : value) : M loaded :=
  emit (EvRequest url);;
  h ← gets mem;
  match request W h url with
  | inl error => mret (LoadError error)
  | inr response =>
      template ← compile (body response);
      mret (Loaded template VUndefined)
  end.

(** [RemoteHandlebars.prototype.getLayout]. *)
Definition getLayout : Z -> value -> value -> value -> M completion :=
  getLayout_with requestTemplate.

(** The [tasks] object of [render], in insertion order. *)
Definition tasks (now : Z) (filePath : value) (options : loc) (st : state)
  : list (task * M completion) :=
  let layout := layout_for st options in
  let partialsDir := partialsDir_for st options in
  [(TView, getView W now filePath (VObj options) (VFun (Done TView)))]
  ++ (if truthy layout && negb (bool_decide (typeof layout = TyFunction))
      then [(TLayout, getLayout now layout (VObj options) (VFun (Done TLayout)))] else [])
  ++ (if truthy partialsDir
      then [(TPartials, getPartials W now partialsDir (VObj options) (VFun (Done TPartials)))]
      else []).

(** [RemoteHandlebars.prototype.render]. *)
Definition render (now : Z) (filePath : value) (options : loc) (callback : value)
  : M completion :=
  st ← gets id;
  let context := VObj options in
  let layout := layout_for st options in
  let placeholder := placeholder_for st options in
  let helpers := helpers_for st options in
  j ← parallel (tasks now filePath options st);
  match j with
  | Aborted c => mret c
  | Errored error => mret (Called callback (Failure error))
  | Results results =>
      h ← gets mem;
      let settings := settings_for helpers results h options in
      rendered ← call W (result_of TView results) context settings;
      match rendered with
      | inl e => mret (Threw e)
      | inr rendered =>
          let results_layout :=
            if decide (typeof layout = TyFunction) then layout else result_of TLayout results in
          if truthy results_layout then
            match to_string placeholder with
            | None => mret Unmodelled
            | Some key =>
                assign options key (VStr rendered);;
                rendered ← call W results_layout context settings;
                match rendered with
                | inl e => mret (Threw e)
                | inr rendered => mret (Called callback (Success (VStr rendered)))
                end
            end
          else mret (Called callback (Success (VStr rendered)))
      end
  end.

End Variant.
End IndexJs.

(** ** Vocabulary of the statements *)

(** A call was turned down before it reached its loader. *)
Definition rejected (c : completion) : Prop := (∃ e, c = Threw e) ∨ c = Unmodelled.

Definition run := (completion * state * list event)%type.


(** The call reached its callback, and began by an HTTP request. *)
Definition fetched (r : run) : Prop :=
  ∃ cb reply l tl, r.1.1 = Called cb reply ∧ r.2 = EvRequest (VObj l) :: tl.



(** A computation [respects R P] when every run relates its initial to its
    final state by [R] and emits only events satisfying [P]. *)
Definition respects {A} (R : relation state) (P : event → Prop) (m : M A) : Prop :=
  ∀ st, R st (m st).1.2 ∧ Forall P (m st).2.

Definition same_this : relation state := λ s s', this s' = this s.

Definition same_mem : relation state := λ s s', mem s' = mem s.

(** Existing objects are untouched (new ones may appear). *)
Definition heap_grows : relation state := λ s s',
  ∀ l o, mem s !! l = Some o → mem s' !! l = Some o.

(** The frame of [getLayout]: the store is left alone and objects keep
    every property but [headers] and [Accept]. *)
Definition header_frame : relation state := λ s s',
  ∀ l, is_Some (mem s !! l) →
       is_Some (mem s' !! l)
       ∧ ∀ k, k ≠ "headers" → k ≠ "Accept" → props (mem s') l !! k = props (mem s) l !! k.

Definition same_this_header_frame : relation state :=
  λ s s', same_this s s' ∧ header_frame s s'.

Definition any_state : relation state := λ _ _, True.

Definition no_request (e : event) : Prop := ∀ url, e ≠ EvRequest url.

Definition no_scan (e : event) : Prop := ∀ dir, e ≠ EvGlob dir.

(** [getView] touches neither the heap nor the remote store. *)
Definition local_only : relation state := λ s s',
  mem s' = mem s ∧ this_cache (this s') = this_cache (this s).

(** The template compiled from [file] of directory [dir], when the file can
    be read. *)
Definition compiled_from (W : world) (dir file : string) : option value :=
  match readFile W (path_resolve (cwd W) [dir; file]) with
  | inr content => Some (VFun (Compiled content))
  | inl _ => None
  end.

(** The stores an instance uses for local resources: unbounded, without
    expiry. *)
Definition forever_ok (c : TemplateCache) : Prop :=
  maxSize c = None
  ∧ defaultMaxAge c = NoExpiry
  ∧ Forall (λ ke : string * CacheEntry, expiresAt ke.2 = Never) (entries c).

(** ** More vocabulary: files, stores and frames *)

(** [fs.readFile] succeeds on [file] of directory [dir]. *)
Definition readable (W : world) (dir file : string) : bool :=
  match readFile W (path_resolve (cwd W) [dir; file]) with
  | inr _ => true
  | inl _ => false
  end.

(** [glob] succeeds in [dir] and every file it finds there can be read. *)
Definition scannable (W : world) (dir : string) : bool :=
  match glob W dir with
  | inr files => forallb (readable W dir) files
  | inl _ => false
  end.

(** The template [v] is compiled from a file that [glob] finds in one of
    [paths] and whose partial name is [x]. *)
Definition template_of (W : world) (paths : list string) (x : string) (v : value) : Prop :=
  ∃ dir files file,
    dir ∈ paths ∧ glob W dir = inr files ∧ file ∈ files
    ∧ partial_name file = x ∧ compiled_from W dir file = Some v.

(** The directories scanned in a trace, in order. *)
Definition globs (tr : list event) : list string :=
  omap (λ e, match e with EvGlob dir => Some dir | _ => None end) tr.

(** The files read in a trace, in order. *)
Definition reads (tr : list event) : list string :=
  omap (λ e, match e with EvReadFile filePath => Some filePath | _ => None end) tr.

(** [path.resolve(dir, file)] for every file that [glob] finds in the
    directories [paths], in order. *)
Definition files_of (W : world) (paths : list string) : list string :=
  paths ≫= λ dir,
    match glob W dir with
    | inr files => (λ file, path_resolve (cwd W) [dir; file]) <$> files
    | inl _ => []
    end.






(** The call ended by invoking a callback. *)
Definition calls_back (r : run) : Prop := ∃ cb reply, r.1.1 = Called cb reply.

(** The run [r] of [render] from state [st], whose view task ran as [v] and
    whose layout task, when it has one, ran as [l], went on to the partials
    task: [getPartials] ran from the state the earlier tasks left, on the
    directories in effect and with the context as options; its events end the
    trace of [r], the instance is as it left it, and an error it hands to its
    completion callback makes [render] call back with an error. *)
Definition ran_partials (W : world) (now : Z) (options : loc) (callback : value)
    (st : state) (v : run) (l : option run) (r : run) : Prop :=
  let st2 := match l with Some l => l.1.2 | None => v.1.2 end in
  let p := getPartials W now (partialsDir_for st options) (VObj options)
             (VFun (Done TPartials)) st2 in
  r.2 = v.2 ++ match l with Some l => l.2 | None => [] end ++ p.2
  ∧ this r.1.2 = this p.1.2
  ∧ ∀ error, p.1.1 = Called (VFun (Done TPartials)) (Failure error) →
             ∃ e, r.1.1 = Called callback (Failure e).

(** The remote store is left alone. *)
Definition same_remote : relation state := λ s s', this_cache (this s') = this_cache (this s).

(** The store of local resources is left alone. *)
Definition same_local : relation state :=
  λ s s', this_cacheForever (this s') = this_cacheForever (this s).

(** Events of the transport: a request for the descriptor [u], or the
    compilation of what it returned. *)
Definition request_for (u : value) (e : event) : Prop :=
  e = EvRequest u ∨ ∃ template, e = EvCompile template.

(** Events of the transport. *)
Definition remote_event (e : event) : Prop :=
  match e with
  | EvRequest _ | EvCompile _ => True
  | EvReadFile _ | EvGlob _ => False
  end.

(** Events of reading one file. *)
Definition file_event (e : event) : Prop :=
  match e with
  | EvReadFile _ | EvCompile _ => True
  | EvRequest _ | EvGlob _ => False
  end.

(** While the context [options] says [cache: false], the instance stays as
    it is and the context goes on saying so. *)
Definition uncached_frame (options : value) : relation state := λ s s',
  get_prop (mem s) options "cache" = VBool false →
  this s' = this s ∧ get_prop (mem s') options "cache" = VBool false.

(** A transport whose responses all have a status below 400 and no
    [cache-control] header. *)
Definition plain_transport (W : world) : Prop :=
  ∀ h url resp, request W h url = inr resp →
    statusCode resp < 400 ∧ headers resp !! "cache-control" = None.

(** The frame of what [render] does after the join: the only write is to the
    context [options], under the [placeholder]. *)
Definition placeholder_frame (options : loc) (key : option string) : relation state := λ s s',
  (∀ l, l ≠ options → mem s' !! l = mem s !! l)
  ∧ (∀ k, key ≠ Some k → props (mem s') options !! k = props (mem s) options !! k).

(** ** The fixtures of the test-suite *)

Module Fixtures.

(** A stand-in for Handlebars: [{{{name}}}] is replaced by the string the
    context holds under [name]; everything else is copied. *)
Inductive mode :=
| Text (braces : nat)
| Hole (name : string) (braces : nat).

Fixpoint times (n : nat) (c : Ascii.ascii) : string :=
  match n with
  | O => ""
  | S n => String c (times n c)
  end.

Fixpoint expand (look : string -> string) (m : mode) (s : string) : string :=
  match s, m with
  | "", Text k => times k "{"
  | "", Hole name k => "{{{" +:+ name +:+ times k "}"
  | String c r, Text k =>
      if Ascii.eqb c "{" then
        match k with
        | 2%nat => expand look (Hole "" 0) r
        | _ => expand look (Text (S k)) r
        end
      else times k "{" +:+ String c (expand look (Text 0) r)
  | String c r, Hole name k =>
      if Ascii.eqb c "}" then
        match k with
        | 2%nat => look name +:+ expand look (Text 0) r
        | _ => expand look (Hole name (S k)) r
        end
      else expand look (Hole (name +:+ times k "}" +:+ String c "") 0) r
  end.

Definition text_of (v : value) : string :=
  match v with
  | VStr s => s
  | _ => ""
  end.

Definition run_template (f : func) (h : heap) (context : value) (s : settings) : string :=
  match f with
  | Compiled source => expand (fun name => text_of (get_prop h context name)) (Text 0) source
  | Native name => name
  | Done _ => ""
  end.

Definition ok (body : string) (cacheControl : option string) : string + response :=
  inr {| statusCode := 200;
         headers := match cacheControl with
                    | Some header => {[ "cache-control" := header ]}
                    | None => ∅
                    end;
         body := body |}.

(** The mocked layouts of [test/index.js]. *)
Definition mocked (h : heap) (url : value) : string + response :=
  match get_prop h url "url" with
  | VStr "http://mocked/layouts/default" =>
      ok "<body><nav></nav>{{{content}}}</body>" None
  | VStr "http://mocked/layouts/bare" =>
      ok "<body>{{{body}}}</body>" None
  | VStr "http://mocked/layouts/cached" =>
      ok "<body>{{{content}}}</body>" (Some "max-age=1, stale-while-revalidate=1")
  | VStr "http://mocked/layouts/uncached" =>
      ok "<body>{{{content}}}</body>" (Some "no-cache, no-store, must-revalidate")
  | VStr "http://mocked/layouts/error" =>
      inr {| statusCode := 404; headers := ∅; body := "Not Found" |}
  | _ => inl "connect ECONNREFUSED"
  end.

Definition files : list (string * string) :=
  [("/repo/test/fixtures/views/index.handlebars", "<article>Hello</article>");
   ("/repo/test/fixtures/views/partials/sidebar.handlebars", "<ul></ul>");
   ("/repo/test/fixtures/views/more-partials/sidebar.hbs", "<ol></ol>");
   ("/repo/test/fixtures/views/more-partials/nested/partial.hbs", "<p></p>")].

Fixpoint read (l : list (string * string)) (filePath : string) : string + string :=
  match l with
  | [] => inl "ENOENT: no such file or directory"
  | (p, content) :: l' => if String.eqb p filePath then inr content else read l' filePath
  end.

Definition scan (dir : string) : string + list string :=
  if String.eqb dir "/repo/test/fixtures/views/partials" then inr ["sidebar.handlebars"]
  else if String.eqb dir "/repo/test/fixtures/views/more-partials"
       then inr ["nested/partial.hbs"; "sidebar.hbs"]
  else inl "ENOENT: no such file or directory".

Definition test_world : world :=
  {| cwd := "/repo";
     request := mocked;
     readFile := read files;
     glob := scan;
     exec := run_template;
     glob_ordinary := ltac:(intros dir; unfold scan; repeat case_match; reflexivity) |}.

Definition view : value := VStr "test/fixtures/views/index.handlebars".
Definition partials : value := VStr "/repo/test/fixtures/views/partials".

(** The caller's callback. *)
Definition done : value := VFun (Native "done").

(** A heap with one object, at reference 1. *)
Definition one_object (o : gmap string value) : heap := {[ 1%positive := o ]}.

(** The options of the instances the tests create. *)
Definition error_layout : gmap string value :=
  {[ "layout" := VStr "http://mocked/layouts/error"; "partialsDir" := partials ]}.

Definition bare_layout : gmap string value :=
  {[ "layout" := VStr "http://mocked/layouts/bare"; "partialsDir" := partials ]}.

Definition no_layout : gmap string value :=
  {[ "layout" := VBool false; "partialsDir" := partials ]}.

Definition ten_minutes : gmap string value := {[ "maxAge" := VNum 600 ]}.

Definition uncached : string := "http://mocked/layouts/uncached".

(** A request descriptor at reference 1 whose headers object is at
    reference 2. *)
Definition descriptor : heap :=
  {[ 1%positive := {[ "url" := VStr "http://mocked/layouts/default";
                      "headers" := VObj 2%positive ]};
     2%positive := {[ "Accept" := VStr "text/html"; "X-Token" := VStr "t" ]} ]}.

(** Two directories, [a] and [aa], each with a file [x.hbs]. *)
Definition two_dirs : world :=
  {| cwd := "/";
     request := fun _ _ => inl "connect ECONNREFUSED";
     readFile := read [("/a/x.hbs", "from a"); ("/aa/x.hbs", "from aa")];
     glob := fun dir =>
       if String.eqb dir "a" || String.eqb dir "aa" then inr ["x.hbs"]
       else inl "ENOENT: no such file or directory";
     exec := run_template;
     glob_ordinary := ltac:(intros dir; cbv beta; case_match; reflexivity) |}.


(** An instance with the layout [bare] and a context [{placeholder: 'body'}]. *)
Definition body_call : state :=
  {| this := Part000.create bare_layout;
     mem := one_object {[ "placeholder" := VStr "body" ]} |}.

(** An instance with [layout: false] and an empty context. *)
Definition plain_call : state :=
  {| this := Part000.create no_layout; mem := one_object ∅ |}.

(** The two fixture directories, as the tests list them. *)
Definition both_dirs : value :=
  VArr ["/repo/test/fixtures/views/partials"; "/repo/test/fixtures/views/more-partials"].

(** An instance whose [partialsDir] was emptied after its construction. *)
Definition without_partials : state :=
  {| this := {| this_layout := VBool false; this_placeholder := VStr "content";
               this_helpers := VUndefined; this_partialsDir := VStr "";
               this_cache := configured VUndefined VUndefined VUndefined;
               this_cacheForever := forever |};
     mem := one_object ∅ |}.

(** A transport that answers every request with the same layout, status 200
    and no headers. *)
Definition plain_world : world :=
  {| cwd := "/repo";
     request := fun _ _ => ok "<body>{{{content}}}</body>" None;
     readFile := read files;
     glob := scan;
     exec := run_template;
     glob_ordinary := ltac:(intros dir; unfold scan; repeat case_match; reflexivity) |}.

(** A new instance with default options, and no object yet. *)
Definition fresh_instance : state := {| this := Part000.create ∅; mem := ∅ |}.

(** An instance without layout and a context whose [layout] is a template
    the caller compiled. *)
Definition compiled_layout_call : state :=
  {| this := Part000.create no_layout;
     mem := one_object {[ "layout" := VFun (Compiled "<main>{{{content}}}</main>") ]} |}.

(** An instance with the layout [bare] and a context [{cache: false}]. *)
Definition uncached_render : state :=
  {| this := Part000.create bare_layout; mem := one_object {[ "cache" := VBool false ]} |}.

End Fixtures.

(** * Proofs *)

(** ** Running the monad *)

Lemma bind_run {A B} (m : M A) (f : A → M B) st :
  (m ≫= f) st = ((f (m st).1.1 (m st).1.2).1.1, (f (m st).1.1 (m st).1.2).1.2,
                 (m st).2 ++ (f (m st).1.1 (m st).1.2).2).
Proof. reflexivity. Qed.

Lemma bind_eq {A B} (m : M A) (f : A → M B) st a st1 t1 :
  m st = (a, st1, t1) →
  (m ≫= f) st = ((f a st1).1.1, (f a st1).1.2, t1 ++ (f a st1).2).
Proof. intros E. rewrite bind_run, E. reflexivity. Qed.

Lemma surjective_run {A} (r : A * state * list event) : r = (r.1.1, r.1.2, r.2).
Proof. by destruct r as [[? ?] ?]. Qed.

(** ** Heap facts *)

Lemma fresh_unused (h : heap) : h !! fresh (dom h) = None.
Proof. apply not_elem_of_dom, is_fresh. Qed.

Lemma props_set_prop_eq h l k v : props (set_prop h l k v) l = <[k := v]> (props h l).
Proof. unfold props at 1, set_prop. by rewrite lookup_insert_eq. Qed.

Lemma props_set_prop_ne h l l' k v : l ≠ l' → props (set_prop h l k v) l' = props h l'.
Proof. intros. unfold props, set_prop. by rewrite lookup_insert_ne. Qed.

Lemma props_alloc_old (h : heap) o l :
  is_Some (h !! l) → props (alloc h o).2 l = props h l.
Proof.
  intros [o' Ho]. unfold props, alloc. cbn [snd].
  rewrite lookup_insert_ne; [done |]. intros <-. by rewrite fresh_unused in Ho.
Qed.

Lemma get_prop_is_Some h v k x :
  get_prop h v k = x → x ≠ VUndefined → ∃ l, v = VObj l ∧ is_Some (h !! l).
Proof.
  destruct v; cbn; try congruence. intros <- Hx. eexists; split; [done |].
  unfold props in Hx. destruct (h !! l); [done |]. cbn in Hx. by rewrite lookup_empty in Hx.
Qed.

#[local] Instance header_frame_preorder : PreOrder header_frame.
Proof.
  split; [by intros s l Hl |].
  intros s1 s2 s3 H12 H23 l Hl.
  destruct (H12 l Hl) as [Hl2 E12]. destruct (H23 l Hl2) as [Hl3 E23].
  split; [done |]. intros k ??. by rewrite E23, E12.
Qed.

#[local] Instance same_this_preorder : PreOrder same_this.
Proof. split; [by intros s; unfold same_this | intros s1 s2 s3; unfold same_this; congruence]. Qed.

#[local] Instance same_mem_preorder : PreOrder same_mem.
Proof. split; [by intros s; unfold same_mem | intros s1 s2 s3; unfold same_mem; congruence]. Qed.

#[local] Instance heap_grows_preorder : PreOrder heap_grows.
Proof. split; [by intros s l o Hl | intros s1 s2 s3 H12 H23 l o Hl; eauto]. Qed.

#[local] Instance and_preorder (R1 R2 : relation state) :
  PreOrder R1 → PreOrder R2 → PreOrder (λ s s', R1 s s' ∧ R2 s s').
Proof.
  intros ??. split; [by intros s; split |].
  intros s1 s2 s3 [??] [??]. split; by etrans.
Qed.

Lemma header_frame_set_cache w c st : header_frame st (set_cache w c st).
Proof. by intros l Hl. Qed.

Lemma header_frame_alloc st o : header_frame st (set_mem (alloc (mem st) o).2 st).
Proof.
  intros l Hl. unfold set_mem. cbn [mem]. split.
  - unfold alloc. cbn [snd]. rewrite lookup_insert_ne; [done |].
    intros <-. destruct Hl as [? Hl]. by rewrite fresh_unused in Hl.
  - intros k _ _. by rewrite (props_alloc_old _ _ _ Hl).
Qed.

Lemma header_frame_assign st l k v :
  k = "headers" ∨ k = "Accept" → header_frame st (set_mem (set_prop (mem st) l k v) st).
Proof.
  intros Hk l' Hl'. unfold set_mem. cbn [mem]. split.
  - unfold set_prop. destruct (decide (l = l')) as [->|];
      [by rewrite lookup_insert_eq | by rewrite lookup_insert_ne].
  - intros k' ??. destruct (decide (l = l')) as [->|].
    + rewrite props_set_prop_eq, lookup_insert_ne; [done |].
      intros <-. by destruct Hk.
    + by rewrite props_set_prop_ne.
Qed.

Lemma respects_ret {A} R `{!Reflexive R} P (a : A) : respects R P (mret a).
Proof. intros st. split; [reflexivity | constructor]. Qed.

Lemma respects_bind {A B} R `{!Transitive R} P (m : M A) (f : A → M B) :
  respects R P m → (∀ a, respects R P (f a)) → respects R P (m ≫= f).
Proof.
  intros Hm Hf st. rewrite bind_run. cbn [fst snd].
  destruct (Hm st) as [R1 P1]. destruct (Hf (m st).1.1 (m st).1.2) as [R2 P2].
  split; [by etrans | by apply Forall_app].
Qed.

Lemma respects_emit R `{!Reflexive R} (P : event → Prop) e : P e → respects R P (emit e).
Proof. intros He st. split; [reflexivity | by repeat constructor]. Qed.

Lemma respects_gets {A} R `{!Reflexive R} P (f : state → A) : respects R P (gets f).
Proof. intros st. split; [reflexivity | constructor]. Qed.

Lemma respects_modify R P (f : state → state) :
  (∀ st, R st (f st)) → respects R P (modify f).
Proof. intros Hf st. split; [apply Hf | constructor]. Qed.

Lemma respects_new_object R P o :
  (∀ st, R st (set_mem (alloc (mem st) o).2 st)) → respects R P (new_object o).
Proof. intros Hf st. split; [apply Hf | constructor]. Qed.

(** One step of a frame proof: the monad's combinators, and case analysis
    on what a [match] or [if] inspects. *)
Ltac frame_step :=
  lazymatch goal with
  | |- respects _ _ (mret _) => apply respects_ret; try apply _
  | |- respects _ _ (gets _) => apply respects_gets; try apply _
  | |- respects _ _ (emit _) => apply respects_emit; [try apply _ | try done]
  | |- respects _ _ (_ ≫= _) => apply respects_bind; [try apply _ | | intros ?]
  | |- respects _ _ (modify _) => apply respects_modify; intros ?
  | |- respects _ _ (assign _ _ _) => apply respects_modify; intros ?
  | |- respects _ _ (new_object _) => apply respects_new_object; intros ?
  | |- respects _ _ (let '(_, _) := ?x in _) => destruct x
  | |- respects _ _ (match ?x with _ => _ end) => destruct x
  | |- respects _ _ (if ?b then _ else _) => destruct b
  end.

Ltac frame := repeat frame_step; try done.

Section Respects.
Context (R : relation state) `{!PreOrder R} (P : event → Prop).

Lemma respects_compile src : P (EvCompile src) → respects R P (compile src).
Proof. intros. unfold compile. frame. Qed.

Lemma respects_readTemplate W p :
  P (EvReadFile p) → (∀ src, P (EvCompile src)) → respects R P (readTemplate W p).
Proof. intros. unfold readTemplate, compile. frame. Qed.

Lemma respects_each_file W dir files acc :
  (∀ p, P (EvReadFile p)) → (∀ src, P (EvCompile src)) →
  respects R P (each_file W dir files acc).
Proof.
  intros ??. revert acc. induction files as [|f files IH]; intros acc; simpl.
  - frame.
  - frame_step; [by apply respects_readTemplate | apply IH].
Qed.

Lemma respects_reduce_dirs W paths templates :
  (∀ d, P (EvGlob d)) → (∀ p, P (EvReadFile p)) → (∀ src, P (EvCompile src)) →
  respects R P (reduce_dirs W paths templates).
Proof.
  intros ???. revert templates. induction paths as [|d paths IH]; intros templates; simpl.
  - frame.
  - frame_step; [frame |].
    frame_step; [frame |].
    frame_step; [by apply respects_each_file |].
    frame_step; [frame | apply IH].
Qed.

Lemma respects_findTemplates W paths :
  (∀ st o, R st (set_mem (alloc (mem st) o).2 st)) →
  (∀ d, P (EvGlob d)) → (∀ p, P (EvReadFile p)) → (∀ src, P (EvCompile src)) →
  respects R P (findTemplates W paths).
Proof.
  intros ????. unfold findTemplates.
  frame_step; [by apply respects_reduce_dirs | frame].
Qed.

Lemma respects_readThrough w now key loader :
  (∀ c st, R st (set_cache w c st)) →
  respects R P loader → respects R P (readThrough w now key loader).
Proof. intros Hc Hl. unfold readThrough. frame. Qed.

Lemma respects_cache_disabled options : respects R P (cache_disabled options).
Proof. unfold cache_disabled. frame. Qed.

Lemma respects_getView W now filePath options callback :
  (∀ c st, R st (set_cache Local c st)) →
  (∀ p, P (EvReadFile p)) → (∀ src, P (EvCompile src)) →
  respects R P (getView W now filePath options callback).
Proof.
  intros ???. unfold getView.
  pose proof respects_cache_disabled. pose proof respects_readTemplate.
  pose proof respects_readThrough. frame; auto.
Qed.

Lemma respects_getPartials W now partialsDir options callback :
  (∀ c st, R st (set_cache Local c st)) →
  (∀ st o, R st (set_mem (alloc (mem st) o).2 st)) →
  (∀ d, P (EvGlob d)) → (∀ p, P (EvReadFile p)) → (∀ src, P (EvCompile src)) →
  respects R P (getPartials W now partialsDir options callback).
Proof.
  intros ?????. unfold getPartials.
  pose proof respects_cache_disabled. pose proof respects_findTemplates.
  pose proof respects_readThrough. frame; auto.
Qed.

Context (R_alloc : ∀ st o, R st (set_mem (alloc (mem st) o).2 st)).
Context (R_assign : ∀ st l k v, k = "headers" ∨ k = "Accept" →
                                R st (set_mem (set_prop (mem st) l k v) st)).

Lemma respects_set_accept l : respects R P (set_accept l).
Proof. unfold set_accept. frame; auto. Qed.

Lemma respects_ensure_accept_header url : respects R P (ensure_accept_header url).
Proof. pose proof respects_set_accept. unfold ensure_accept_header. frame; auto. Qed.

Lemma respects_getLayout_with rt now url options callback :
  (∀ c st, R st (set_cache Remote c st)) →
  (∀ u, respects R P (rt u)) →
  respects R P (getLayout_with rt now url options callback).
Proof.
  intros Hc Hrt. unfold getLayout_with.
  pose proof respects_cache_disabled. pose proof respects_ensure_accept_header.
  pose proof respects_readThrough. frame; auto.
Qed.
End Respects.

Lemma respects_requestTemplate_000 R `{!PreOrder R} (P : event → Prop) W url :
  P (EvRequest url) → (∀ src, P (EvCompile src)) →
  respects R P (Part000.requestTemplate W url).
Proof. intros ??. unfold Part000.requestTemplate, compile. frame. Qed.

Lemma respects_requestTemplate_idx R `{!PreOrder R} (P : event → Prop) W url :
  P (EvRequest url) → (∀ src, P (EvCompile src)) →
  respects R P (IndexJs.requestTemplate W url).
Proof. intros ??. unfold IndexJs.requestTemplate, compile. frame. Qed.

(** ** What the loaders do *)

Lemma readTemplate_run W p st :
  readTemplate W p st =
  match readFile W p with
  | inl e => (LoadError e, st, [EvReadFile p])
  | inr content =>
      (Loaded (VFun (Compiled content)) VUndefined, st, [EvReadFile p; EvCompile content])
  end.
Proof. unfold readTemplate. rewrite bind_run. cbn. by destruct (readFile W p). Qed.

Lemma requestTemplate_000_run W url st :
  Part000.requestTemplate W url st =
  match request W (mem st) url with
  | inl e => (LoadError e, st, [EvRequest url])
  | inr response =>
      if 400 <=? statusCode response then
        (LoadError ("HTTP status code '" +:+ pretty (statusCode response) +:+ "' received"),
         st, [EvRequest url])
      else
        (Loaded (VFun (Compiled (body response)))
           match headers response !! "cache-control" with
           | Some header => VStr header
           | None => VUndefined
           end,
         st, [EvRequest url; EvCompile (body response)])
  end.
Proof.
  unfold Part000.requestTemplate. rewrite !bind_run. cbn.
  destruct (request W (mem st) url) as [e|resp]; [done |].
  by destruct (400 <=? statusCode resp).
Qed.

Lemma requestTemplate_idx_run W url st :
  IndexJs.requestTemplate W url st =
  match request W (mem st) url with
  | inl e => (LoadError e, st, [EvRequest url])
  | inr response =>
      (Loaded (VFun (Compiled (body response))) VUndefined,
       st, [EvRequest url; EvCompile (body response)])
  end.
Proof.
  unfold IndexJs.requestTemplate. rewrite !bind_run. cbn.
  by destruct (request W (mem st) url).
Qed.

(** A silent computation has an empty trace. *)
Lemma silent {A} (R : relation state) (m : M A) st :
  respects R (λ _, False) m → (m st).2 = [].
Proof. intros H. destruct (H st) as [_ HF]. destruct (m st).2; [done | by inversion HF]. Qed.

#[local] Instance any_state_preorder : PreOrder any_state.
Proof. by split. Qed.

Lemma ensure_accept_header_silent url st : (ensure_accept_header url st).2 = [].
Proof. apply (silent any_state), respects_ensure_accept_header; by try apply _. Qed.

Lemma cache_disabled_run options st :
  cache_disabled options st
  = (bool_decide (get_prop (mem st) options "cache" = VBool false), st, []).
Proof. reflexivity. Qed.

Lemma header_frame_cache_flag st st' options :
  header_frame st st' →
  get_prop (mem st) options "cache" = VBool false →
  get_prop (mem st') options "cache" = VBool false.
Proof.
  intros HF H. destruct (get_prop_is_Some _ _ _ _ H) as (l & -> & Hl); [done |].
  cbn in *. destruct (HF l Hl) as [_ E]. by rewrite E.
Qed.

Lemma heap_grows_cache_flag st st' options :
  heap_grows st st' →
  get_prop (mem st) options "cache" = VBool false →
  get_prop (mem st') options "cache" = VBool false.
Proof.
  intros HF H. destruct (get_prop_is_Some _ _ _ _ H) as (l & -> & [o Hl]); [done |].
  cbn in *. unfold props in *. by rewrite (HF l o Hl), Hl in *.
Qed.

Lemma ret_run {A} (a : A) st : (mret a : M A) st = (a, st, []).
Proof. reflexivity. Qed.

(** Unfold one run of a computation built from binds and returns. *)
Ltac mrun := repeat (rewrite ?bind_run, ?ret_run; cbn [fst snd]); rewrite ?app_nil_r; cbn [app].

Lemma set_accept_rejects l st c : (set_accept l st).1.1 = inl c → rejected c.
Proof.
  unfold set_accept. mrun.
  match goal with |- context [get_prop ?h (VObj l) "headers"] =>
    destruct (get_prop h (VObj l) "headers") end; mrun; intros [= <-];
    solve [by right | left; by eexists].
Qed.

Lemma ensure_accept_header_rejects url st c :
  (ensure_accept_header url st).1.1 = inl c → rejected c.
Proof.
  destruct url; cbn -[set_accept]; try (intros [= <-]; solve [by right | left; by eexists]).
  - mrun. apply set_accept_rejects.
  - apply set_accept_rejects.
Qed.

Lemma ensure_accept_header_frame url st :
  same_this_header_frame st (ensure_accept_header url st).1.2.
Proof.
  apply (respects_ensure_accept_header same_this_header_frame (λ _, True)).
  - intros; split; [done | apply header_frame_alloc].
  - intros; split; [done | by apply header_frame_assign].
Qed.

(** With [cache: false], [getLayout] leaves the stores alone, and is either
    turned down or calls back with what one run of [requestTemplate]
    delivered. *)
Lemma getLayout_with_uncached rt now url options callback st :
  (∀ u s, (rt u s).1.2 = s) →
  typeof url ≠ TyFunction →
  get_prop (mem st) options "cache" = VBool false →
  let r := getLayout_with rt now url options callback st in
  this r.1.2 = this st
  ∧ header_frame st r.1.2
  ∧ ((rejected r.1.1 ∧ r.2 = [])
     ∨ ∃ l st1, r.1.1 = Called callback (reply_of (rt (VObj l) st1).1.1)
                ∧ r.2 = (rt (VObj l) st1).2).
Proof.
  intros Hrt Hu Hc r. subst r. unfold getLayout_with.
  destruct (get_prop_is_Some _ _ _ _ Hc) as (lo & -> & Hlo); [done |].
  destruct (decide (typeof (VObj lo) = TyFunction)) as [[=]|_].
  destruct (decide (typeof url = TyFunction)) as [|_]; [done |].
  rewrite bind_run. cbn [gets fst snd app].
  destruct (truthy (js_or url (this_layout (this st)))); cbn [negb];
    [| split; [done |]; split; [done |]; left; split; [left; by eexists | done]].
  destruct (truthy callback); cbn [negb];
    [| split; [done |]; split; [done |]; left; split; [left; by eexists | done]].
  rewrite bind_run. cbn [fst snd].
  pose proof (ensure_accept_header_silent (js_or url (this_layout (this st))) st) as Htr.
  pose proof (ensure_accept_header_rejects (js_or url (this_layout (this st))) st) as Hrej.
  destruct (ensure_accept_header_frame (js_or url (this_layout (this st))) st) as [HT HF].
  destruct (ensure_accept_header (js_or url (this_layout (this st))) st) as [[[c|l] st1] tr].
  - cbn in *. subst tr. do 2 (split; [done |]). left. split; [by apply Hrej | done].
  - cbn [fst snd] in *. subst tr.
    rewrite bind_run, cache_disabled_run. cbn [fst snd].
    rewrite (header_frame_cache_flag _ _ _ HF Hc).
    rewrite bool_decide_eq_true_2 by done. mrun. rewrite Hrt.
    do 2 (split; [done |]). right. by exists l, st1.
Qed.

Lemma getView_uncached W now filePath options callback st :
  get_prop (mem st) options "cache" = VBool false →
  let r := getView W now filePath options callback st in
  r.1.2 = st
  ∧ ((rejected r.1.1 ∧ r.2 = [])
     ∨ ∃ p, r.1.1 = Called callback (reply_of (readTemplate W p st).1.1)
            ∧ r.2 = (readTemplate W p st).2).
Proof.
  intros Hc r. subst r. unfold getView.
  destruct (get_prop_is_Some _ _ _ _ Hc) as (lo & -> & Hlo); [done |].
  destruct (decide (typeof (VObj lo) = TyFunction)) as [[=]|_].
  destruct (path_resolve_value (cwd W) filePath) as [e|p];
    [split; [done |]; left; split; [left; by eexists | done] |].
  destruct (String.eqb p ""); [split; [done |]; left; split; [left; by eexists | done] |].
  destruct (truthy callback); cbn [negb];
    [| split; [done |]; left; split; [left; by eexists | done]].
  rewrite bind_run, cache_disabled_run. cbn [fst snd].
  rewrite bool_decide_eq_true_2 by done. mrun.
  split; [rewrite readTemplate_run; by destruct (readFile W p) |]. right. by exists p.
Qed.

Lemma each_file_state W dir files acc st : (each_file W dir files acc st).1.2 = st.
Proof.
  revert acc st. induction files as [|f files IH]; intros acc st; [done |].
  cbn [each_file]. rewrite bind_run. cbn [fst snd]. rewrite IH, readTemplate_run.
  by destruct (readFile W _).
Qed.

Lemma reduce_dirs_state W paths templates st : (reduce_dirs W paths templates st).1.2 = st.
Proof.
  revert templates st. induction paths as [|d paths IH]; intros templates st; [done |].
  cbn [reduce_dirs]. rewrite bind_run. cbn [fst snd emit].
  destruct (glob W d) as [e|files]; [done |].
  rewrite bind_run. cbn [fst snd]. rewrite each_file_state.
  destruct (each_file W d files (inr templates) st).1.1; [done | apply IH].
Qed.

Lemma findTemplates_frame W paths st :
  this (findTemplates W paths st).1.2 = this st
  ∧ heap_grows st (findTemplates W paths st).1.2.
Proof.
  unfold findTemplates. rewrite bind_run. cbn [fst snd]. rewrite reduce_dirs_state.
  destruct (reduce_dirs W paths ∅ st).1.1 as [e|t]; [by split |].
  mrun. split; [done |]. intros l o Hl. unfold new_object, alloc. cbn.
  rewrite lookup_insert_ne; [done |]. intros <-. by rewrite fresh_unused in Hl.
Qed.

Lemma getPartials_uncached W now partialsDir options callback st :
  typeof partialsDir ≠ TyFunction →
  get_prop (mem st) options "cache" = VBool false →
  let r := getPartials W now partialsDir options callback st in
  this r.1.2 = this st
  ∧ heap_grows st r.1.2
  ∧ ((rejected r.1.1 ∧ r.2 = [])
     ∨ ∃ paths, paths_of (js_or partialsDir (this_partialsDir (this st))) = Some paths
                ∧ r = (Called callback (reply_of (findTemplates W paths st).1.1),
                       (findTemplates W paths st).1.2, (findTemplates W paths st).2)).
Proof.
  intros Hu Hc r. subst r. unfold getPartials.
  destruct (get_prop_is_Some _ _ _ _ Hc) as (lo & -> & Hlo); [done |].
  destruct (decide (typeof (VObj lo) = TyFunction)) as [[=]|_].
  destruct (decide (typeof partialsDir = TyFunction)) as [|_]; [done |].
  rewrite bind_run. cbn [gets fst snd app].
  set (dir := js_or partialsDir (this_partialsDir (this st))).
  destruct (truthy dir); cbn [negb];
    [| split; [done |]; split; [done |]; left; split; [left; by eexists | done]].
  destruct (truthy callback); cbn [negb];
    [| split; [done |]; split; [done |]; left; split; [left; by eexists | done]].
  assert (Hgo : ∀ paths, paths_of dir = Some paths →
    let r := (off ← cache_disabled (VObj lo);
              if (off : bool) then
                r ← findTemplates W paths; mret (Called callback (reply_of r))
              else
                r ← readThrough Local now (partials_key paths) (findTemplates W paths);
                mret (Called callback r)) st in
    this r.1.2 = this st ∧ heap_grows st r.1.2
    ∧ (rejected r.1.1 ∧ r.2 = []
       ∨ ∃ paths, paths_of dir = Some paths
           ∧ r = (Called callback (reply_of (findTemplates W paths st).1.1),
                  (findTemplates W paths st).1.2, (findTemplates W paths st).2))).
  { intros paths Hp. cbv zeta. rewrite bind_run, cache_disabled_run. cbn [fst snd].
    rewrite bool_decide_eq_true_2 by done. mrun.
    destruct (findTemplates_frame W paths st) as [HT HG].
    do 2 (split; [done |]). right. by exists paths. }
  destruct dir; try (by apply Hgo);
    (split; [done |]; split; [done |]; left; split; [by right | done]).
Qed.

(** ** Observations on one run *)

Lemma requestTemplate_000_state W u s : (Part000.requestTemplate W u s).1.2 = s.
Proof.
  rewrite requestTemplate_000_run. destruct (request W (mem s) u) as [|resp]; [done |].
  by destruct (400 <=? statusCode resp).
Qed.

Lemma requestTemplate_idx_state W u s : (IndexJs.requestTemplate W u s).1.2 = s.
Proof. rewrite requestTemplate_idx_run. by destruct (request W (mem s) u). Qed.






(** ** The [Accept] header *)

Lemma set_accept_effect l st :
  let hv := get_prop (mem st) (VObj l) "headers" in
  is_Some (mem st !! l) →
  truthy hv = false ∨ (∃ lh, hv = VObj lh) →
  ∃ lh st',
    set_accept l st = (inr l, st', [])
    ∧ this st' = this st
    ∧ (hv = VObj lh ∨ (truthy hv = false ∧ mem st !! lh = None))
    ∧ get_prop (mem st') (VObj l) "headers" = VObj lh
    ∧ props (mem st') lh !! "Accept" = Some (VStr accept)
    ∧ (∀ k, k ≠ "headers" → (lh = l → k ≠ "Accept") →
            props (mem st') l !! k = props (mem st) l !! k)
    ∧ (∀ k, k ≠ "Accept" → hv = VObj lh →
            props (mem st') lh !! k = props (mem st) lh !! k).
Proof.
  intros hv Hl Hhv. unfold set_accept. rewrite bind_run. cbn [gets fst snd].
  fold hv. destruct Hhv as [Hf | [lh Hlh]].
  - (* no headers yet: a new object *)
    rewrite Hf. mrun. unfold new_object, alloc, assign, modify. cbn [fst snd mem set_mem].
    set (lh := fresh (dom (mem st))).
    assert (Hne : lh ≠ l).
    { intros E. destruct Hl as [o Hl]. rewrite <- E in Hl. unfold lh in Hl.
      by rewrite fresh_unused in Hl. }
    set (h1 := <[lh := ∅]> (mem st)).
    assert (Hh : get_prop (set_prop h1 l "headers" (VObj lh)) (VObj l) "headers" = VObj lh).
    { cbn. by rewrite props_set_prop_eq, lookup_insert_eq. }
    cbn [gets fst snd mem set_mem].
    rewrite Hh. mrun. cbn [fst snd mem set_mem app].
    exists lh, (set_mem (set_prop (set_prop h1 l "headers" (VObj lh)) lh "Accept" (VStr accept)) st).
    split; [done |]. split; [done |]. split; [right; split; [done | apply fresh_unused] |].
    cbn [mem set_mem]. split; [| split; [| split]].
    + cbn. by rewrite props_set_prop_ne, props_set_prop_eq, lookup_insert_eq.
    + by rewrite props_set_prop_eq, lookup_insert_eq.
    + intros k Hk _. rewrite props_set_prop_ne, props_set_prop_eq by done.
      rewrite lookup_insert_ne by done. unfold props, h1. by rewrite lookup_insert_ne.
    + intros k _ E. subst hv. rewrite E in Hf. done.
  - (* the caller's headers object, mutated in place *)
    rewrite Hlh. cbn [truthy]. mrun. cbn [gets fst snd]. fold hv. rewrite Hlh. mrun.
    unfold assign, modify. cbn [fst snd mem set_mem app].
    exists lh, (set_mem (set_prop (mem st) lh "Accept" (VStr accept)) st).
    split; [done |]. split; [done |]. split; [by left |].
    cbn [mem set_mem]. split; [| split; [| split]].
    + destruct (decide (lh = l)) as [->|Hne]; cbn.
      * rewrite props_set_prop_eq, lookup_insert_ne by done. exact Hlh.
      * rewrite props_set_prop_ne by done. exact Hlh.
    + by rewrite props_set_prop_eq, lookup_insert_eq.
    + intros k Hk Hk'. destruct (decide (lh = l)) as [->|Hne].
      * rewrite props_set_prop_eq, lookup_insert_ne; [done | intros <-; by apply Hk'].
      * by rewrite props_set_prop_ne.
    + intros k Hk _. by rewrite props_set_prop_eq, lookup_insert_ne.
Qed.

(** After a call that has a callback, the heap is the one
    [ensure accept header] leaves. *)
Lemma getLayout_with_mem rt now l options callback st :
  (∀ u s, (rt u s).1.2 = s) →
  typeof options = TyFunction ∨ truthy callback = true →
  mem (getLayout_with rt now (VObj l) options callback st).1.2 = mem (set_accept l st).1.2.
Proof.
  intros Hrt Hcb. unfold getLayout_with.
  assert (Hgo : ∀ options callback, truthy callback = true →
    mem ((self ← gets this;
          let url := js_or (VObj l) (this_layout self) in
          if negb (truthy url) then
            mret (Threw (ErrorExn "RemoteHandlebars.getLayout expects url or this.layout"))
          else if negb (truthy callback) then
            mret (Threw (ErrorExn "RemoteHandlebars.getLayout expects callback"))
          else
            d ← ensure_accept_header url;
            match d with
            | inl c => mret c
            | inr l =>
                off ← cache_disabled options;
                if (off : bool) then
                  r ← rt (VObj l);
                  mret (Called callback (reply_of r))
                else
                  h ← gets mem;
                  match get_prop h (VObj l) "url" with
                  | VStr key =>
                      r ← readThrough Remote now key (rt (VObj l));
                      mret (Called callback r)
                  | _ => mret Unmodelled
                  end
            end) st).1.2 = mem (set_accept l st).1.2).
  { clear options callback Hcb. intros options callback Hcb.
    rewrite bind_run. cbn [gets fst snd js_or truthy negb]. rewrite Hcb. cbn [negb].
    rewrite bind_run. cbn [fst snd ensure_accept_header].
    destruct (set_accept l st) as [[[c|l'] st1] tr]; cbn [fst snd]; [done |].
    assert (Hrest : respects same_mem (λ _, True)
      (off ← cache_disabled options;
       if (off : bool) then
         r ← rt (VObj l');
         mret (Called callback (reply_of r))
       else
         h ← gets mem;
         match get_prop h (VObj l') "url" with
         | VStr key =>
             r ← readThrough Remote now key (rt (VObj l'));
             mret (Called callback r)
         | _ => mret Unmodelled
         end)).
    { assert (Hl : ∀ u, respects same_mem (λ _, True) (rt u)).
      { intros u s. split; [unfold same_mem; by rewrite Hrt | by apply Forall_forall]. }
      pose proof (respects_cache_disabled same_mem (λ _, True)).
      assert (∀ key, respects same_mem (λ _, True) (readThrough Remote now key (rt (VObj l')))).
      { intros key. apply respects_readThrough; [apply _ | by intros c s | apply Hl]. }
      frame; auto. }
    apply Hrest. }
  destruct (decide (typeof options = TyFunction)) as [Ho|Ho].
  - apply Hgo. by destruct options.
  - destruct (decide (typeof (VObj l) = TyFunction)) as [[=]|_].
    apply Hgo. by destruct Hcb.
Qed.

(** C9: a [getLayout] call (either variant) that has a callback and whose
    [url] is a descriptor object, with no [headers] yet or with a [headers]
    object, mutates the caller's objects in place: afterwards the descriptor's
    [headers] is an object (the caller's own when there was one) whose
    [Accept] entry is ["text/x-handlebars-template"], and every other
    property of the descriptor and of the headers object is unchanged. *)
Theorem getLayout_sets_accept_in_place W now l options callback st :
  let hv := get_prop (mem st) (VObj l) "headers" in
  is_Some (mem st !! l) →
  typeof options = TyFunction ∨ truthy callback = true →
  truthy hv = false ∨ (∃ lh, hv = VObj lh) →
  ∀ st',
    st' = (Part000.getLayout W now (VObj l) options callback st).1.2
    ∨ st' = (IndexJs.getLayout W now (VObj l) options callback st).1.2 →
    ∃ lh,
      (hv = VObj lh ∨ (truthy hv = false ∧ mem st !! lh = None))
      ∧ get_prop (mem st') (VObj l) "headers" = VObj lh
      ∧ props (mem st') lh !! "Accept" = Some (VStr accept)
      ∧ (∀ k, k ≠ "headers" → (lh = l → k ≠ "Accept") →
              props (mem st') l !! k = props (mem st) l !! k)
      ∧ (∀ k, k ≠ "Accept" → hv = VObj lh →
              props (mem st') lh !! k = props (mem st) lh !! k).
Proof.
  intros hv Hl Hcb Hhv st' Hst'.
  destruct (set_accept_effect l st Hl Hhv) as (lh & st1 & Hrun & _ & H1 & H2 & H3 & H4 & H5).
  assert (Hmem : mem st' = mem st1).
  { destruct Hst' as [-> | ->]; unfold Part000.getLayout, IndexJs.getLayout;
      rewrite getLayout_with_mem, Hrun;
      auto using requestTemplate_000_state, requestTemplate_idx_state. }
  exists lh. rewrite Hmem. done.
Qed.

(** ** [async.parallel] on the tasks of [render] *)

Lemma dispatch_cons t (run : M completion) tasks st :
  dispatch ((t, run) :: tasks) st =
  match (run st).1.1 with
  | Called cb r =>
      let d := dispatch tasks (run st).1.2 in
      (match d.1.1 with
       | inl c' => inl c'
       | inr outs => inr ((t, if decide (cb = VFun (Done t)) then Some r else None) :: outs)
       end, d.1.2, (run st).2 ++ d.2)
  | c => (inl c, (run st).1.2, (run st).2)
  end.
Proof.
  cbn [dispatch]. rewrite bind_run.
  destruct (run st) as [[c st1] t1]. cbn [fst snd].
  destruct c; mrun; try done.
Qed.

Lemma dispatch_nil st : dispatch [] st = (inr [], st, []).
Proof. reflexivity. Qed.

Lemma call_run W f context s st :
  call W f context s st =
  (match f with
   | VFun f => inr (exec W f (mem st) context s)
   | _ => inl (TypeErrorExn "not a function")
   end, st, []).
Proof. reflexivity. Qed.

Lemma dispatch_success t (run : M completion) tasks st v st1 t1 outs st2 t2 :
  run st = (Called (VFun (Done t)) (Success v), st1, t1) →
  dispatch tasks st1 = (inr outs, st2, t2) →
  dispatch ((t, run) :: tasks) st = (inr ((t, Some (Success v)) :: outs), st2, t1 ++ t2).
Proof.
  intros Hr Hd. rewrite dispatch_cons, Hr. cbn [fst snd]. rewrite Hd. cbn [fst snd].
  by rewrite decide_True.
Qed.

Lemma parallel_run tasks st d st' tr :
  dispatch tasks st = (d, st', tr) →
  parallel tasks st =
  (match d with
   | inl c => Aborted c
   | inr outs =>
       match first_error outs with
       | Some error => Errored error
       | None =>
           match gather outs with
           | Some results => Results results
           | None => Aborted Pending
           end
       end
   end, st', tr).
Proof. intros Hd. unfold parallel. rewrite (bind_eq _ _ _ _ _ _ Hd). mrun. done. Qed.

(** The optional partials task, as the hypotheses of the render theorems
    describe it. *)
Lemma dispatch_partials W now st options st2 st3 pv tp :
  (if truthy (partialsDir_for st options)
   then getPartials W now (partialsDir_for st options) (VObj options) (VFun (Done TPartials)) st2
        = (Called (VFun (Done TPartials)) (Success pv), st3, tp)
   else pv = VUndefined ∧ st3 = st2 ∧ tp = []) →
  ∃ outs,
    dispatch
      (if truthy (partialsDir_for st options)
       then [(TPartials,
              getPartials W now (partialsDir_for st options) (VObj options)
                (VFun (Done TPartials)))]
       else []) st2 = (inr outs, st3, tp)
    ∧ first_error outs = None
    ∧ ∃ results, gather outs = Some results
        ∧ result_of TPartials results = pv
        ∧ result_of TView results = VUndefined
        ∧ result_of TLayout results = VUndefined.
Proof.
  destruct (truthy (partialsDir_for st options)).
  - intros Hp. eexists. split.
    + erewrite dispatch_success; [| exact Hp | apply dispatch_nil]. by rewrite app_nil_r.
    + split; [done |]. eexists. split; [done |]. cbn. by rewrite decide_True.
  - intros (-> & -> & ->). exists []. split; [done |]. split; [done |]. by exists [].
Qed.

Lemma render_000_with_layout W now filePath options callback st
    view lay pv key st1 st2 st3 tv tl tp :
  truthy (layout_for st options) = true →
  getView W now filePath (VObj options) (VFun (Done TView)) st
    = (Called (VFun (Done TView)) (Success (VFun view)), st1, tv) →
  Part000.layoutTask W now (layout_for st options) options st1
    = (Called (VFun (Done TLayout)) (Success (VFun lay)), st2, tl) →
  (if truthy (partialsDir_for st options)
   then getPartials W now (partialsDir_for st options) (VObj options) (VFun (Done TPartials)) st2
        = (Called (VFun (Done TPartials)) (Success pv), st3, tp)
   else pv = VUndefined ∧ st3 = st2 ∧ tp = []) →
  to_string (placeholder_for st options) = Some key →
  let settings :=
    {| settings_helpers := helpers_for st options;
       settings_partials := pv;
       settings_data := get_prop (mem st3) (VObj options) "data" |} in
  let rendered := exec W view (mem st3) (VObj options) settings in
  let h := set_prop (mem st3) options key (VStr rendered) in
  Part000.render W now filePath options callback st
  = (Called callback (Success (VStr (exec W lay h (VObj options) settings))),
     set_mem h st3, tv ++ tl ++ tp).
Proof.
  intros HL Hv Hl Hp Hk settings rendered h.
  destruct (dispatch_partials _ _ _ _ _ _ _ _ Hp)
    as (outs & Hd & Hfe & results & Hg & Hrp & Hrv & Hrl).
  assert (Hpar : parallel (Part000.tasks W now filePath options st) st
                 = (Results ((TView, VFun view) :: (TLayout, VFun lay) :: results),
                    st3, tv ++ tl ++ tp)).
  { erewrite parallel_run.
    2:{ unfold Part000.tasks. rewrite HL. cbn [app].
        eapply dispatch_success; [exact Hv |].
        eapply dispatch_success; [exact Hl | exact Hd]. }
    cbn [first_error gather]. rewrite Hfe, Hg. done. }
  unfold Part000.render. rewrite bind_run. cbn [gets fst snd id].
  rewrite (bind_eq _ _ _ _ _ _ Hpar). cbn [app].
  rewrite bind_run. cbn [gets fst snd]. rewrite bind_run, call_run. cbn [fst snd].
  assert (Hs : settings_for (helpers_for st options)
                 ((TView, VFun view) :: (TLayout, VFun lay) :: results) (mem st3) options
               = settings).
  { unfold settings_for, settings. cbn [result_of].
    rewrite !decide_False by done. by rewrite Hrp. }
  rewrite Hs. cbn [result_of]. rewrite decide_True by done.
  rewrite decide_False by done. rewrite decide_True by done. cbn [truthy].
  rewrite Hk. rewrite bind_run. unfold assign at 1 2 3, modify. cbn [fst snd].
  rewrite bind_run, call_run. cbn [fst snd mem set_mem]. mrun.
  unfold assign, modify. cbn [snd app]. by rewrite ?app_nil_r.
Qed.

Lemma render_idx_with_layout W now filePath options callback st
    view lay pv key st1 st2 st3 tv tl tp :
  truthy (layout_for st options) = true →
  getView W now filePath (VObj options) (VFun (Done TView)) st
    = (Called (VFun (Done TView)) (Success (VFun view)), st1, tv) →
  (if decide (typeof (layout_for st options) = TyFunction)
   then layout_for st options = VFun lay ∧ st2 = st1 ∧ tl = []
   else IndexJs.getLayout W now (layout_for st options) (VObj options) (VFun (Done TLayout)) st1
        = (Called (VFun (Done TLayout)) (Success (VFun lay)), st2, tl)) →
  (if truthy (partialsDir_for st options)
   then getPartials W now (partialsDir_for st options) (VObj options) (VFun (Done TPartials)) st2
        = (Called (VFun (Done TPartials)) (Success pv), st3, tp)
   else pv = VUndefined ∧ st3 = st2 ∧ tp = []) →
  to_string (placeholder_for st options) = Some key →
  let settings :=
    {| settings_helpers := helpers_for st options;
       settings_partials := pv;
       settings_data := get_prop (mem st3) (VObj options) "data" |} in
  let rendered := exec W view (mem st3) (VObj options) settings in
  let h := set_prop (mem st3) options key (VStr rendered) in
  IndexJs.render W now filePath options callback st
  = (Called callback (Success (VStr (exec W lay h (VObj options) settings))),
     set_mem h st3, tv ++ tl ++ tp).
Proof.
  intros HL Hv Hl Hp Hk settings rendered h.
  destruct (dispatch_partials _ _ _ _ _ _ _ _ Hp)
    as (outs & Hd & Hfe & results & Hg & Hrp & Hrv & Hrl).
  assert (Hpar : ∃ results',
    parallel (IndexJs.tasks W now filePath options st) st
      = (Results ((TView, VFun view) :: results'), st3, tv ++ tl ++ tp)
    ∧ result_of TPartials results' = pv
    ∧ (if decide (typeof (layout_for st options) = TyFunction)
       then layout_for st options else result_of TLayout results') = VFun lay).
  { unfold IndexJs.tasks. rewrite HL. cbn [andb].
    destruct (decide (typeof (layout_for st options) = TyFunction)) as [Hf|Hf].
    - destruct Hl as (Hlay & -> & ->).
      rewrite bool_decide_eq_true_2 by done. cbn [negb app].
      exists results. split; [| done].
      erewrite parallel_run; [| eapply dispatch_success; [exact Hv | exact Hd]].
      cbn [first_error gather]. by rewrite Hfe, Hg.
    - rewrite bool_decide_eq_false_2 by done. cbn [negb app].
      exists ((TLayout, VFun lay) :: results). split; [| split].
      + erewrite parallel_run.
        2:{ eapply dispatch_success; [exact Hv |].
            eapply dispatch_success; [exact Hl | exact Hd]. }
        cbn [first_error gather]. by rewrite Hfe, Hg.
      + cbn [result_of]. by rewrite decide_False.
      + cbn [result_of]. by rewrite decide_True. }
  destruct Hpar as (results' & Hpar & Hrp' & Hlay).
  unfold IndexJs.render. rewrite bind_run. cbn [gets fst snd id].
  rewrite (bind_eq _ _ _ _ _ _ Hpar). cbn [app].
  rewrite bind_run. cbn [gets fst snd]. rewrite bind_run, call_run. cbn [fst snd].
  assert (Hs : settings_for (helpers_for st options)
                 ((TView, VFun view) :: results') (mem st3) options
               = settings).
  { unfold settings_for, settings. cbn [result_of].
    rewrite !decide_False by done. by rewrite Hrp'. }
  rewrite Hs. cbn [result_of]. rewrite decide_True by done.
  rewrite (decide_False (P := TView = TLayout)) by done. rewrite Hlay. cbn [truthy].
  rewrite Hk. rewrite bind_run. unfold assign at 1 2 3, modify. cbn [fst snd].
  rewrite bind_run, call_run. cbn [fst snd mem set_mem]. mrun.
  unfold assign, modify. cbn [snd app]. by rewrite ?app_nil_r.
Qed.

(** The placeholder of an instance built by a constructor is the option
    given to it, or ["content"]; a per-call option takes precedence. *)
Lemma created_placeholder o st options :
  this st = Part000.create o ∨ IndexJs.create o = Some (this st) →
  placeholder_for st options
  = js_or (get_prop (mem st) (VObj options) "placeholder")
      (js_or (option_of o "placeholder") (VStr "content")).
Proof.
  unfold placeholder_for. intros [-> | H]; [done |].
  unfold IndexJs.create in H. destruct (truthy (option_of o "cache")); [done |].
  by injection H as <-.
Qed.

(** C4: when a layout is in effect and the view, the layout and the partials
    resolve, [render] first calls the view template on the context, writes
    the text it returns into the context under the placeholder (the per-call
    option, else the instance's, which defaults to ["content"]), and calls
    back with what the layout template returns on that same context and
    settings; in both variants. *)
Theorem render_with_layout :
  (∀ W now filePath options callback st view lay pv key st1 st2 st3 tv tl tp,
     truthy (layout_for st options) = true →
     getView W now filePath (VObj options) (VFun (Done TView)) st
       = (Called (VFun (Done TView)) (Success (VFun view)), st1, tv) →
     Part000.layoutTask W now (layout_for st options) options st1
       = (Called (VFun (Done TLayout)) (Success (VFun lay)), st2, tl) →
     (if truthy (partialsDir_for st options)
      then getPartials W now (partialsDir_for st options) (VObj options)
             (VFun (Done TPartials)) st2
           = (Called (VFun (Done TPartials)) (Success pv), st3, tp)
      else pv = VUndefined ∧ st3 = st2 ∧ tp = []) →
     to_string (placeholder_for st options) = Some key →
     let settings :=
       {| settings_helpers := helpers_for st options;
          settings_partials := pv;
          settings_data := get_prop (mem st3) (VObj options) "data" |} in
     let rendered := exec W view (mem st3) (VObj options) settings in
     let h := set_prop (mem st3) options key (VStr rendered) in
     Part000.render W now filePath options callback st
     = (Called callback (Success (VStr (exec W lay h (VObj options) settings))),
        set_mem h st3, tv ++ tl ++ tp))
  ∧ (∀ W now filePath options callback st view lay pv key st1 st2 st3 tv tl tp,
     truthy (layout_for st options) = true →
     getView W now filePath (VObj options) (VFun (Done TView)) st
       = (Called (VFun (Done TView)) (Success (VFun view)), st1, tv) →
     (if decide (typeof (layout_for st options) = TyFunction)
      then layout_for st options = VFun lay ∧ st2 = st1 ∧ tl = []
      else IndexJs.getLayout W now (layout_for st options) (VObj options)
             (VFun (Done TLayout)) st1
           = (Called (VFun (Done TLayout)) (Success (VFun lay)), st2, tl)) →
     (if truthy (partialsDir_for st options)
      then getPartials W now (partialsDir_for st options) (VObj options)
             (VFun (Done TPartials)) st2
           = (Called (VFun (Done TPartials)) (Success pv), st3, tp)
      else pv = VUndefined ∧ st3 = st2 ∧ tp = []) →
     to_string (placeholder_for st options) = Some key →
     let settings :=
       {| settings_helpers := helpers_for st options;
          settings_partials := pv;
          settings_data := get_prop (mem st3) (VObj options) "data" |} in
     let rendered := exec W view (mem st3) (VObj options) settings in
     let h := set_prop (mem st3) options key (VStr rendered) in
     IndexJs.render W now filePath options callback st
     = (Called callback (Success (VStr (exec W lay h (VObj options) settings))),
        set_mem h st3, tv ++ tl ++ tp))
  ∧ (∀ o st options,
     this st = Part000.create o ∨ IndexJs.create o = Some (this st) →
     placeholder_for st options
     = js_or (get_prop (mem st) (VObj options) "placeholder")
         (js_or (option_of o "placeholder") (VStr "content"))).
Proof.
  split; [| split]; intros.
  - by eapply render_000_with_layout.
  - by eapply render_idx_with_layout.
  - by apply created_placeholder.
Qed.

(** ** [render] without a layout *)

(** Membership of a task name in a concrete task list. *)
Ltac task_absent :=
  repeat (apply not_elem_of_cons; split; [done |]); apply not_elem_of_nil.

Ltac task_member :=
  split;
  [ intros Hin; try done; exfalso; revert Hin; task_absent
  | intros Hin; try done; repeat first [ by left | right ] ].

Lemma dispatch_names tasks st outs :
  (dispatch tasks st).1.1 = inr outs → outs.*1 = tasks.*1.
Proof.
  revert st outs. induction tasks as [|[t run] tasks IH]; intros st outs.
  - by intros [= <-].
  - rewrite dispatch_cons. destruct (run st).1.1; try done. cbn [fst snd].
    destruct (dispatch tasks (run st).1.2).1.1 as [|outs'] eqn:E; [done |].
    intros [= <-]. cbn. f_equal. by eapply IH.
Qed.

Lemma gather_names outs results : gather outs = Some results → results.*1 = outs.*1.
Proof.
  revert results. induction outs as [|[t [[e|v]|]] outs IH]; intros results; cbn; try done.
  - by intros [= <-].
  - destruct (gather outs) as [results'|]; [| done]. intros [= <-]. cbn. f_equal. by apply IH.
Qed.

Lemma result_of_absent t results : t ∉ results.*1 → result_of t results = VUndefined.
Proof.
  induction results as [|[t' v] results IH]; [done |]. cbn. intros Hn.
  apply not_elem_of_cons in Hn as [Hne Hn]. rewrite decide_False by done. by apply IH.
Qed.

Lemma respects_dispatch R `{!PreOrder R} P tasks :
  Forall (λ tr : task * M completion, respects R P tr.2) tasks → respects R P (dispatch tasks).
Proof.
  induction 1 as [|[t run] tasks Hrun _ IH]; cbn [dispatch]; [frame |].
  frame_step; [exact Hrun |]. destruct a; frame.
Qed.

Lemma respects_parallel R `{!PreOrder R} P tasks :
  Forall (λ tr : task * M completion, respects R P tr.2) tasks → respects R P (parallel tasks).
Proof. intros. unfold parallel. frame_step; [by apply respects_dispatch | frame]. Qed.

Lemma parallel_names tasks st results :
  (parallel tasks st).1.1 = Results results → results.*1 = tasks.*1.
Proof.
  unfold parallel. mrun.
  destruct (dispatch tasks st).1.1 as [|outs] eqn:E; [done |].
  destruct (first_error outs); [done |].
  destruct (gather outs) as [results'|] eqn:G; [| done].
  intros [= <-]. rewrite (gather_names _ _ G). by eapply dispatch_names.
Qed.

Lemma heap_grows_set_cache w c st : heap_grows st (set_cache w c st).
Proof. by intros l o Hl. Qed.

Lemma heap_grows_alloc st o : heap_grows st (set_mem (alloc (mem st) o).2 st).
Proof.
  intros l o' Hl. cbn. rewrite lookup_insert_ne; [done |].
  intros <-. by rewrite fresh_unused in Hl.
Qed.

(** The frame of a render without layout: existing objects are untouched
    and no request is made. *)
Lemma tasks_without_layout_frame W now filePath options st (tasks : list (task * M completion)) :
  tasks = [(TView, getView W now filePath (VObj options) (VFun (Done TView)))]
          ++ (if truthy (partialsDir_for st options)
              then [(TPartials,
                     getPartials W now (partialsDir_for st options) (VObj options)
                       (VFun (Done TPartials)))]
              else []) →
  respects heap_grows no_request (parallel tasks) ∧ TLayout ∉ tasks.*1.
Proof.
  intros ->. split.
  - apply respects_parallel; [apply _ |]. apply Forall_app. split.
    + constructor; [cbn [snd] | by constructor].
      apply respects_getView;
        [apply _ | intros c s; apply heap_grows_set_cache | by intros ?? | by intros ??].
    + destruct (truthy _); [| by constructor].
      constructor; [cbn [snd] | by constructor].
      apply respects_getPartials;
        [apply _ | intros c s; apply heap_grows_set_cache | intros s o; apply heap_grows_alloc
         | by intros ?? | by intros ?? | by intros ??].
  - destruct (truthy _); cbn; task_absent.
Qed.

Lemma falsy_not_function v : truthy v = false → typeof v ≠ TyFunction.
Proof. by destruct v. Qed.

Lemma render_000_without_layout_frame W now filePath options callback st :
  truthy (layout_for st options) = false →
  let r := Part000.render W now filePath options callback st in
  heap_grows st r.1.2 ∧ Forall no_request r.2.
Proof.
  intros HL r. subst r. unfold Part000.render. rewrite bind_run. cbn [gets fst snd id app].
  destruct (tasks_without_layout_frame W now filePath options st
              (Part000.tasks W now filePath options st)) as [Hpar Hnl].
  { unfold Part000.tasks. by rewrite HL. }
  rewrite bind_run. cbn [fst snd].
  destruct (Hpar st) as [HG HP].
  pose proof (parallel_names (Part000.tasks W now filePath options st) st) as Hn.
  destruct (parallel (Part000.tasks W now filePath options st) st) as [[j st1] tr].
  cbn [fst snd] in *. destruct j as [c|e|results]; mrun; try by rewrite ?app_nil_r.
  cbn [gets fst snd]. rewrite call_run. cbn [fst snd].
  rewrite (result_of_absent TLayout results) by (by rewrite (Hn results eq_refl)).
  cbn [truthy]. destruct (result_of TView results); mrun; by rewrite ?app_nil_r.
Qed.

Lemma render_idx_without_layout_frame W now filePath options callback st :
  truthy (layout_for st options) = false →
  let r := IndexJs.render W now filePath options callback st in
  heap_grows st r.1.2 ∧ Forall no_request r.2.
Proof.
  intros HL r. subst r. unfold IndexJs.render. rewrite bind_run. cbn [gets fst snd id app].
  destruct (tasks_without_layout_frame W now filePath options st
              (IndexJs.tasks W now filePath options st)) as [Hpar Hnl].
  { unfold IndexJs.tasks. by rewrite HL. }
  rewrite bind_run. cbn [fst snd].
  destruct (Hpar st) as [HG HP].
  pose proof (parallel_names (IndexJs.tasks W now filePath options st) st) as Hn.
  destruct (parallel (IndexJs.tasks W now filePath options st) st) as [[j st1] tr].
  cbn [fst snd] in *. destruct j as [c|e|results]; mrun; try by rewrite ?app_nil_r.
  cbn [gets fst snd]. rewrite call_run. cbn [fst snd].
  rewrite decide_False by (by apply falsy_not_function).
  rewrite (result_of_absent TLayout results) by (by rewrite (Hn results eq_refl)).
  cbn [truthy]. destruct (result_of TView results); mrun; by rewrite ?app_nil_r.
Qed.

Lemma tasks_without_layout_run W now filePath options st
    (tasks : list (task * M completion)) view pv st1 st3 tv tp :
  tasks = [(TView, getView W now filePath (VObj options) (VFun (Done TView)))]
          ++ (if truthy (partialsDir_for st options)
              then [(TPartials,
                     getPartials W now (partialsDir_for st options) (VObj options)
                       (VFun (Done TPartials)))]
              else []) →
  getView W now filePath (VObj options) (VFun (Done TView)) st
    = (Called (VFun (Done TView)) (Success (VFun view)), st1, tv) →
  (if truthy (partialsDir_for st options)
   then getPartials W now (partialsDir_for st options) (VObj options) (VFun (Done TPartials)) st1
        = (Called (VFun (Done TPartials)) (Success pv), st3, tp)
   else pv = VUndefined ∧ st3 = st1 ∧ tp = []) →
  ∃ results,
    parallel tasks st = (Results ((TView, VFun view) :: results), st3, tv ++ tp)
    ∧ result_of TPartials results = pv
    ∧ result_of TLayout results = VUndefined.
Proof.
  intros -> Hv Hp.
  destruct (dispatch_partials _ _ _ _ _ _ _ _ Hp)
    as (outs & Hd & Hfe & results & Hg & Hrp & Hrv & Hrl).
  exists results. split; [| done]. cbn [app].
  erewrite parallel_run; [| eapply dispatch_success; [exact Hv | exact Hd]].
  cbn [first_error gather]. by rewrite Hfe, Hg.
Qed.

Lemma render_000_without_layout W now filePath options callback st view pv st1 st3 tv tp :
  truthy (layout_for st options) = false →
  getView W now filePath (VObj options) (VFun (Done TView)) st
    = (Called (VFun (Done TView)) (Success (VFun view)), st1, tv) →
  (if truthy (partialsDir_for st options)
   then getPartials W now (partialsDir_for st options) (VObj options) (VFun (Done TPartials)) st1
        = (Called (VFun (Done TPartials)) (Success pv), st3, tp)
   else pv = VUndefined ∧ st3 = st1 ∧ tp = []) →
  let settings :=
    {| settings_helpers := helpers_for st options;
       settings_partials := pv;
       settings_data := get_prop (mem st3) (VObj options) "data" |} in
  Part000.render W now filePath options callback st
  = (Called callback (Success (VStr (exec W view (mem st3) (VObj options) settings))),
     st3, tv ++ tp).
Proof.
  intros HL Hv Hp settings.
  destruct (tasks_without_layout_run W now filePath options st
              (Part000.tasks W now filePath options st) view pv st1 st3 tv tp)
    as (results & Hpar & Hrp & Hrl); [unfold Part000.tasks; by rewrite HL | done | done |].
  unfold Part000.render. rewrite bind_run. cbn [gets fst snd id].
  rewrite (bind_eq _ _ _ _ _ _ Hpar). cbn [app].
  rewrite bind_run. cbn [gets fst snd]. rewrite bind_run, call_run. cbn [fst snd].
  cbn [result_of]. rewrite decide_True by done. rewrite decide_False by done.
  rewrite Hrl. cbn [truthy]. mrun. unfold settings_for, settings. cbn [result_of].
  rewrite decide_False by done. by rewrite Hrp.
Qed.

Lemma render_idx_without_layout W now filePath options callback st view pv st1 st3 tv tp :
  truthy (layout_for st options) = false →
  getView W now filePath (VObj options) (VFun (Done TView)) st
    = (Called (VFun (Done TView)) (Success (VFun view)), st1, tv) →
  (if truthy (partialsDir_for st options)
   then getPartials W now (partialsDir_for st options) (VObj options) (VFun (Done TPartials)) st1
        = (Called (VFun (Done TPartials)) (Success pv), st3, tp)
   else pv = VUndefined ∧ st3 = st1 ∧ tp = []) →
  let settings :=
    {| settings_helpers := helpers_for st options;
       settings_partials := pv;
       settings_data := get_prop (mem st3) (VObj options) "data" |} in
  IndexJs.render W now filePath options callback st
  = (Called callback (Success (VStr (exec W view (mem st3) (VObj options) settings))),
     st3, tv ++ tp).
Proof.
  intros HL Hv Hp settings.
  destruct (tasks_without_layout_run W now filePath options st
              (IndexJs.tasks W now filePath options st) view pv st1 st3 tv tp)
    as (results & Hpar & Hrp & Hrl); [unfold IndexJs.tasks; by rewrite HL | done | done |].
  unfold IndexJs.render. rewrite bind_run. cbn [gets fst snd id].
  rewrite (bind_eq _ _ _ _ _ _ Hpar). cbn [app].
  rewrite bind_run. cbn [gets fst snd]. rewrite bind_run, call_run. cbn [fst snd].
  cbn [result_of]. rewrite decide_True by done.
  rewrite (decide_False (P := typeof _ = _)) by (by apply falsy_not_function).
  rewrite decide_False by done.
  rewrite Hrl. cbn [truthy]. mrun. unfold settings_for, settings. cbn [result_of].
  rewrite decide_False by done. by rewrite Hrp.
Qed.

(** C5: when the layout in effect is falsy (a falsy per-call [layout], or
    none and a falsy instance layout), [render] has no layout task, makes no
    request, writes to no existing object (so no placeholder into the
    context), and, once the view and the partials resolve, calls back with
    the view template's own output; in both variants. *)
Theorem render_without_layout W now filePath options callback st :
  truthy (layout_for st options) = false →
  ((TLayout ∉ (Part000.tasks W now filePath options st).*1)
   ∧ (TLayout ∉ (IndexJs.tasks W now filePath options st).*1))
  ∧ (∀ r, r = Part000.render W now filePath options callback st
          ∨ r = IndexJs.render W now filePath options callback st →
          Forall no_request r.2 ∧ heap_grows st r.1.2)
  ∧ (∀ view pv st1 st3 tv tp,
       getView W now filePath (VObj options) (VFun (Done TView)) st
         = (Called (VFun (Done TView)) (Success (VFun view)), st1, tv) →
       (if truthy (partialsDir_for st options)
        then getPartials W now (partialsDir_for st options) (VObj options)
               (VFun (Done TPartials)) st1
             = (Called (VFun (Done TPartials)) (Success pv), st3, tp)
        else pv = VUndefined ∧ st3 = st1 ∧ tp = []) →
       let settings :=
         {| settings_helpers := helpers_for st options;
            settings_partials := pv;
            settings_data := get_prop (mem st3) (VObj options) "data" |} in
       let out :=
         (Called callback (Success (VStr (exec W view (mem st3) (VObj options) settings))),
          st3, tv ++ tp) in
       Part000.render W now filePath options callback st = out
       ∧ IndexJs.render W now filePath options callback st = out).
Proof.
  intros HL. split; [| split].
  - unfold Part000.tasks, IndexJs.tasks. rewrite HL. cbn [andb app].
    destruct (truthy (partialsDir_for st options)); cbn; split; task_absent.
  - intros r [-> | ->].
    + by destruct (render_000_without_layout_frame W now filePath options callback st HL).
    + by destruct (render_idx_without_layout_frame W now filePath options callback st HL).
  - intros view pv st1 st3 tv tp Hv Hp settings out. split.
    + by eapply render_000_without_layout.
    + by eapply render_idx_without_layout.
Qed.

(** ** The partials branch *)

Lemma any_state_intro {A} (P : event → Prop) (m : M A) :
  (∀ st, Forall P (m st).2) → respects any_state P m.
Proof. intros H st. by split. Qed.

Lemma render_000_events W now filePath options callback st (P : event → Prop) :
  Forall (λ tr : task * M completion, respects any_state P tr.2)
    (Part000.tasks W now filePath options st) →
  Forall P (Part000.render W now filePath options callback st).2.
Proof.
  intros Ht. unfold Part000.render. rewrite bind_run. cbn [gets fst snd id app].
  match goal with |- Forall P (?m st).2 => assert (Hm : respects any_state P m) end;
    [| apply Hm].
  frame_step; [by apply respects_parallel |].
  unfold call. frame.
Qed.

Lemma render_idx_events W now filePath options callback st (P : event → Prop) :
  Forall (λ tr : task * M completion, respects any_state P tr.2)
    (IndexJs.tasks W now filePath options st) →
  Forall P (IndexJs.render W now filePath options callback st).2.
Proof.
  intros Ht. unfold IndexJs.render. rewrite bind_run. cbn [gets fst snd id app].
  match goal with |- Forall P (?m st).2 => assert (Hm : respects any_state P m) end;
    [| apply Hm].
  frame_step; [by apply respects_parallel |].
  unfold call. frame.
Qed.

Lemma js_or_truthy a b : truthy b = true → truthy (js_or a b) = true.
Proof. unfold js_or. by destruct (truthy a) eqn:E. Qed.

(** Instances built by the constructors always have a partials directory. *)
Lemma created_partialsDir o t :
  t = Part000.create o ∨ IndexJs.create o = Some t →
  truthy (this_partialsDir t) = true.
Proof.
  intros [-> | H].
  - by apply js_or_truthy.
  - unfold IndexJs.create in H. destruct (truthy (option_of o "cache")); [done |].
    injection H as <-. by apply js_or_truthy.
Qed.

(** The partials task is among the tasks [render] hands to
    [async.parallel] exactly when a partials directory is in effect (the
    per-call option, else the instance's); when none is, no directory is
    scanned.  (An instance built by a constructor always has one: its
    default is ["views/partials/"].) *)
Lemma partials_task_listed W now filePath options st :
  (TPartials ∈ (Part000.tasks W now filePath options st).*1
   ↔ truthy (partialsDir_for st options) = true)
  ∧ (TPartials ∈ (IndexJs.tasks W now filePath options st).*1
     ↔ truthy (partialsDir_for st options) = true)
  ∧ (truthy (partialsDir_for st options) = false →
     ∀ callback r,
       r = Part000.render W now filePath options callback st
       ∨ r = IndexJs.render W now filePath options callback st →
       Forall no_scan r.2)
  ∧ (∀ o, this st = Part000.create o ∨ IndexJs.create o = Some (this st) →
          truthy (partialsDir_for st options) = true).
Proof.
  split; [| split; [| split]]; cycle 3.
  { intros o Ho. apply js_or_truthy, (created_partialsDir o). destruct Ho as [-> | ->]; auto. }
  - unfold Part000.tasks.
    destruct (truthy (layout_for st options)), (truthy (partialsDir_for st options));
      cbn; task_member.
  - unfold IndexJs.tasks.
    destruct (truthy (layout_for st options) && _), (truthy (partialsDir_for st options));
      cbn; task_member.
  - intros HP callback r Hr.
    assert (Hview : respects any_state no_scan
              (getView W now filePath (VObj options) (VFun (Done TView)))).
    { apply respects_getView; [apply _ | done | by intros ?? | by intros ??]. }
    assert (Hlay : ∀ rt url,
              (∀ u, respects any_state no_scan (rt u)) →
              respects any_state no_scan
                (getLayout_with rt now url (VObj options) (VFun (Done TLayout)))).
    { intros rt url Hrt. by apply respects_getLayout_with. }
    destruct Hr as [-> | ->].
    + apply render_000_events. unfold Part000.tasks. rewrite HP, app_nil_r.
      constructor; [exact Hview |].
      destruct (truthy (layout_for st options)); constructor; [| constructor]. cbn [snd].
      unfold Part000.layoutTask. destruct (decide _); [frame |].
      apply Hlay. intros u.
      apply respects_requestTemplate_000; [apply _ | by intros ? | by intros ??].
    + apply render_idx_events. unfold IndexJs.tasks. rewrite HP, app_nil_r.
      constructor; [exact Hview |].
      destruct (truthy (layout_for st options) && _); constructor; [| constructor]. cbn [snd].
      apply Hlay. intros u.
      apply respects_requestTemplate_idx; [apply _ | by intros ? | by intros ??].
Qed.

(** ** Merging partial directories *)

Lemma each_file_merge W dir files templates st :
  (∀ f, f ∈ files → is_Some (compiled_from W dir f)) →
  ∃ m tr,
    each_file W dir files (inr templates) st = (inr m, st, tr)
    ∧ (∀ x, (∀ f, f ∈ files → partial_name f ≠ x) → m !! x = templates !! x)
    ∧ (∀ x, (∃ f, f ∈ files ∧ partial_name f = x) →
            ∃ f, f ∈ files ∧ partial_name f = x ∧ m !! x = compiled_from W dir f).
Proof.
  revert templates. induction files as [|f files IH]; intros templates Hok.
  - exists templates, []. split; [done |]. split; [done |]. intros x (f & Hf & _). set_solver.
  - destruct (Hok f) as [t Ht]; [set_solver |].
    unfold compiled_from in Ht.
    destruct (readFile W (path_resolve (cwd W) [dir; f])) as [|content] eqn:Hread; [done |].
    injection Ht as <-.
    destruct (IH (<[partial_name f := VFun (Compiled content)]> templates))
      as (m & tr & Hrun & Hkeep & Hlast); [set_solver |].
    exists m, ([EvReadFile (path_resolve (cwd W) [dir; f]); EvCompile content] ++ tr).
    split; [| split].
    + cbn [each_file]. rewrite bind_run, readTemplate_run, Hread. cbn [fst snd].
      by rewrite Hrun.
    + intros x Hx. rewrite Hkeep by set_solver. apply lookup_insert_ne. set_solver.
    + intros x (f' & Hf' & Hn).
      destruct (decide (Exists (λ g, partial_name g = x) files)) as [Hex|Hnex].
      * apply Exists_exists in Hex. destruct (Hlast x Hex) as (g & Hg & Hgn & Hgm).
        exists g. split; [by right | done].
      * exists f. assert (Hfx : partial_name f = x).
        { apply elem_of_cons in Hf' as [-> | Hf']; [done |].
          exfalso. apply Hnex, Exists_exists. eauto. }
        split; [by left |]. split; [done |].
        rewrite Hkeep.
        -- rewrite <- Hfx, lookup_insert_eq. unfold compiled_from. by rewrite Hread.
        -- intros g Hg Hgx. apply Hnex, Exists_exists. eauto.
Qed.

(** [findTemplates [A; B]]: where a file of [B] derives the name [x], the
    entry for [x] is compiled from a file of [B]. *)
Lemma findTemplates_later_overrides W A B st fa fb x :
  glob W A = inr fa → glob W B = inr fb →
  (∀ f, f ∈ fa → is_Some (compiled_from W A f)) →
  (∀ f, f ∈ fb → is_Some (compiled_from W B f)) →
  (∃ f, f ∈ fb ∧ partial_name f = x) →
  ∃ l st' tr f,
    findTemplates W [A; B] st = (Loaded (VObj l) VUndefined, st', tr)
    ∧ this st' = this st
    ∧ f ∈ fb ∧ partial_name f = x
    ∧ props (mem st') l !! x = compiled_from W B f.
Proof.
  intros HA HB Hfa Hfb Hx.
  destruct (each_file_merge W A fa ∅ st Hfa) as (ma & ta & Hra & _ & _).
  destruct (each_file_merge W B fb ma st Hfb) as (mb & tb & Hrb & _ & Hlast).
  destruct (Hlast x Hx) as (f & Hf & Hn & Hm).
  exists (fresh (dom (mem st))), (set_mem (<[fresh (dom (mem st)) := mb]> (mem st)) st).
  exists (EvGlob A :: ta ++ EvGlob B :: tb), f.
  split; [| split; [done |]; split; [done |]; split; [done |]].
  - unfold findTemplates. cbn [reduce_dirs]. rewrite !bind_run. cbn [emit fst snd].
    rewrite HA. rewrite bind_run, Hra. cbn [fst snd]. rewrite bind_run. cbn [emit fst snd].
    rewrite HB. rewrite bind_run, Hrb. cbn [fst snd]. mrun.
    unfold new_object, alloc. cbn [fst snd]. by rewrite ?app_nil_r.
  - cbn [mem set_mem]. unfold props. by rewrite lookup_insert_eq.
Qed.

(** What [readThrough] does on a key the store does not hold. *)
Lemma readThrough_miss w now key loader st :
  find_entry key (entries (cache_of w st)) = None →
  readThrough w now key loader st =
  match (loader st).1.1 with
  | LoadError e => (Failure e, (loader st).1.2, (loader st).2)
  | Loaded v cacheControl =>
      (Success v,
       set_cache w (store now key v cacheControl (cache_of w (loader st).1.2)) (loader st).1.2,
       (loader st).2)
  end.
Proof.
  intros Hm. unfold readThrough. rewrite bind_run. cbn [gets fst snd]. rewrite Hm.
  rewrite bind_run. destruct (loader st) as [[[e|v cc] st1] tr]; cbn [fst snd app]; mrun.
  - done.
  - unfold modify. cbn [fst snd]. by rewrite ?app_nil_r.
Qed.

(** For directories [A] and [B] whose files can all be read and which
    both hold a file deriving the partial name [x], a [getPartials] call on
    the list [[A; B]] that resolves the directories (caching disabled, or
    nothing stored under the list's key) calls back with a map whose entry
    for [x] is the template compiled from a file of [B]. *)
Lemma getPartials_resolved_overrides W now A B options callback st fa fb x :
  glob W A = inr fa → glob W B = inr fb →
  Forall (λ f, is_Some (compiled_from W A f)) fa →
  Forall (λ f, is_Some (compiled_from W B f)) fb →
  (∃ f, f ∈ fa ∧ partial_name f = x) →
  (∃ f, f ∈ fb ∧ partial_name f = x) →
  typeof options ≠ TyFunction → truthy callback = true →
  get_prop (mem st) options "cache" = VBool false
  ∨ find_entry (partials_key [A; B]) (entries (this_cacheForever (this st))) = None →
  ∃ l st' tr f,
    getPartials W now (VArr [A; B]) options callback st
      = (Called callback (Success (VObj l)), st', tr)
    ∧ f ∈ fb ∧ partial_name f = x
    ∧ ∃ content,
        readFile W (path_resolve (cwd W) [B; f]) = inr content
        ∧ props (mem st') l !! x = Some (VFun (Compiled content)).
Proof.
  intros HA HB Hfa Hfb _ Hx Ho Hcb Hres.
  rewrite Forall_forall in Hfa, Hfb.
  destruct (findTemplates_later_overrides W A B st fa fb x HA HB Hfa Hfb Hx)
    as (l & st1 & tr & f & Hrun & Hthis & Hf & Hn & Hm).
  assert (Hc : ∃ content, readFile W (path_resolve (cwd W) [B; f]) = inr content
                          ∧ props (mem st1) l !! x = Some (VFun (Compiled content))).
  { rewrite Hm. unfold compiled_from. destruct (Hfb f Hf) as [t Ht].
    unfold compiled_from in Ht. destruct (readFile W _) as [|content]; [done | by exists content]. }
  unfold getPartials.
  rewrite decide_False by done. rewrite decide_False by done.
  rewrite bind_run. cbn [gets fst snd js_or truthy negb app]. rewrite Hcb.
  cbn [negb paths_of].
  rewrite bind_run, cache_disabled_run. cbn [fst snd app].
  destruct (bool_decide _) eqn:Hoff.
  - rewrite bind_run, Hrun. cbn [fst snd reply_of]. mrun. by exists l, st1, tr, f.
  - destruct Hres as [Hfalse | Hmiss]; [by rewrite bool_decide_eq_true_2 in Hoff |].
    rewrite bind_run, readThrough_miss by done. rewrite Hrun. cbn [fst snd]. mrun.
    eexists l, _, tr, f. split; [done |]. by cbn [mem set_cache].
Qed.

(** ** The forever store and its keys *)

Lemma forever_is_ok : forever_ok forever.
Proof. by repeat split. Qed.

Lemma find_entry_remove_key k key l :
  find_entry k (remove_key key l) = if String.eqb k key then None else find_entry k l.
Proof.
  induction l as [|[k' e] l IH]; cbn; [by destruct (String.eqb k key) |].
  destruct (String.eqb_spec k' key) as [->|Hne]; [| cbn].
  - rewrite IH. destruct (String.eqb_spec k key) as [->|Hne]; [done |].
    destruct (String.eqb_spec key k); [by subst | done].
  - rewrite IH. destruct (String.eqb_spec k' k) as [->|Hne'];
      [| done]. by destruct (String.eqb_spec k key).
Qed.

Lemma find_entry_In key l e : find_entry key l = Some e → (key, e) ∈ l.
Proof.
  induction l as [|[k' e'] l IH]; cbn; [done |].
  destruct (String.eqb_spec k' key) as [->|]; [intros [= ->]; set_solver | set_solver].
Qed.

Lemma forever_ok_fresh now key c e :
  forever_ok c → find_entry key (entries c) = Some e → freshness_at now e = IsFresh.
Proof.
  intros (_ & _ & Hall) Hf. apply find_entry_In in Hf.
  rewrite Forall_forall in Hall. specialize (Hall _ Hf). cbn in Hall.
  unfold freshness_at. by rewrite Hall.
Qed.

Lemma Forall_remove_key (P : string * CacheEntry → Prop) key l :
  Forall P l → Forall P (remove_key key l).
Proof.
  induction 1 as [|[k e] l HP _ IH]; cbn; [done |].
  destruct (String.eqb k key); [done | by constructor].
Qed.

Lemma touch_find key c k : find_entry k (entries (touch key c)) = find_entry k (entries c).
Proof.
  unfold touch. destruct (find_entry key (entries c)) as [e|] eqn:E; [| done].
  cbn. rewrite find_entry_remove_key.
  destruct (String.eqb_spec key k) as [->|Hne]; [done |].
  destruct (String.eqb_spec k key); [by subst | done].
Qed.

Lemma touch_forever_ok key c : forever_ok c → forever_ok (touch key c).
Proof.
  intros (Hs & Ha & Hall). unfold touch.
  destruct (find_entry key (entries c)) as [e|] eqn:E; [| done].
  split; [done |]. split; [done |]. cbn. constructor.
  - apply find_entry_In in E. rewrite Forall_forall in Hall. by apply (Hall _ E).
  - by apply Forall_remove_key.
Qed.

(** Storing what a local loader delivered (no [cache-control]). *)
Lemma store_forever now key v c k :
  forever_ok c →
  forever_ok (store now key v VUndefined c)
  ∧ find_entry k (entries (store now key v VUndefined c))
    = if String.eqb key k
      then Some {| value_of := v; createdAt := now; expiresAt := Never;
                   staleUntil := Never |}
      else find_entry k (entries c).
Proof.
  intros (Hs & Ha & Hall). unfold store, FreshnessPolicy, bounded. cbn.
  rewrite Hs, Ha. cbn. split.
  - split; [done |]. split; [done |]. cbn. constructor; [done | by apply Forall_remove_key].
  - destruct (String.eqb_spec key k) as [->|Hne]; [done |].
    rewrite find_entry_remove_key. destruct (String.eqb_spec k key); [by subst | done].
Qed.

(** What [readThrough] does on a fresh entry. *)
Lemma readThrough_hit w now key loader st e :
  find_entry key (entries (cache_of w st)) = Some e →
  freshness_at now e = IsFresh →
  readThrough w now key loader st
  = (Success (value_of e), set_cache w (touch key (cache_of w st)) st, []).
Proof.
  intros Hf Hfr. unfold readThrough. rewrite bind_run. cbn [gets fst snd]. rewrite Hf, Hfr.
  by mrun.
Qed.

Lemma findTemplates_loaded W paths st :
  match (findTemplates W paths st).1.1 with
  | Loaded _ cacheControl => cacheControl = VUndefined
  | LoadError _ => True
  end.
Proof.
  unfold findTemplates. rewrite bind_run. cbn [fst snd].
  destruct (reduce_dirs W paths ∅ st).1.1; by mrun.
Qed.

(** One cached [getPartials] call on a directory list, from a well-formed
    forever store: the key is the concatenation of the list, the store stays
    well-formed, a success leaves its value under that key, and no other key
    is affected. *)
Lemma getPartials_cached W now paths options callback st :
  forever_ok (this_cacheForever (this st)) →
  typeof options ≠ TyFunction →
  get_prop (mem st) options "cache" ≠ VBool false →
  truthy callback = true →
  let r := getPartials W now (VArr paths) options callback st in
  let key := String.concat "" paths in
  r = (readThrough Local now key (findTemplates W paths)
       ≫= λ reply, mret (Called callback reply)) st
  ∧ forever_ok (this_cacheForever (this r.1.2))
  ∧ (∀ v, r.1.1 = Called callback (Success v) →
          ∃ e, find_entry key (entries (this_cacheForever (this r.1.2))) = Some e
               ∧ value_of e = v)
  ∧ (∀ k, k ≠ key →
          find_entry k (entries (this_cacheForever (this r.1.2)))
          = find_entry k (entries (this_cacheForever (this st))))
  ∧ (∀ e, find_entry key (entries (this_cacheForever (this st))) = Some e →
          r.1.1 = Called callback (Success (value_of e)) ∧ r.2 = []).
Proof.
  intros Hok Ho Hc Hcb r key.
  assert (Hr : r = (readThrough Local now key (findTemplates W paths)
                    ≫= λ reply, mret (Called callback reply)) st).
  { subst r. unfold getPartials.
    rewrite decide_False by done. rewrite decide_False by done.
    rewrite bind_run. cbn [gets fst snd js_or truthy negb app]. rewrite Hcb.
    cbn [negb paths_of].
    rewrite bind_run, cache_disabled_run. cbn [fst snd app].
    rewrite bool_decide_eq_false_2 by done. by rewrite bind_run. }
  split; [exact Hr |]. rewrite Hr. clear Hr r. rewrite bind_run. cbn [fst snd].
  destruct (find_entry key (entries (this_cacheForever (this st)))) as [e|] eqn:Hf.
  - rewrite (readThrough_hit Local now key _ st e Hf (forever_ok_fresh now key _ e Hok Hf)).
    cbn [fst snd mret M_ret set_cache this this_cacheForever cache_of app].
    split; [by apply touch_forever_ok |]. split; [| split; [| by intros e' [= <-]]].
    + intros v [= <-]. exists e. by rewrite touch_find.
    + intros k _. apply touch_find.
  - rewrite (readThrough_miss Local now key _ st Hf).
    pose proof (findTemplates_loaded W paths st) as Hcc.
    destruct (findTemplates_frame W paths st) as [HT _].
    destruct (findTemplates W paths st) as [[[err|v cc] st1] tr]; cbn [fst snd] in *.
    + cbn [mret M_ret fst snd]. rewrite HT. split; [done |]. split; [done |].
      split; [done |]. by intros e He.
    + subst cc. cbn [fst snd mret M_ret set_cache this this_cacheForever cache_of]. rewrite HT.
      destruct (store_forever now key v (this_cacheForever (this st)) key Hok) as [Hok' Hfind].
      split; [done |]. split; [| split; [| by intros e He]].
      * intros v' [= <-]. rewrite Hfind, String.eqb_refl. by eexists.
      * intros k Hk.
        destruct (store_forever now key v (this_cacheForever (this st)) k Hok) as [_ Hfk].
        rewrite Hfk. destruct (String.eqb_spec key k); [by subst | done].
Qed.

(** C8, amended: with caching enabled, [getPartials] reads through the
    forever store under the concatenation of its directory list; a second
    call whose list has the same concatenation is answered from the entry of
    the first without a scan, and a call whose list has a different
    concatenation (a reordering among them) leaves the entry under that
    other key as it was. *)
Theorem partials_cache_key W now1 now2 l1 l2 options1 options2 cb1 cb2 st :
  forever_ok (this_cacheForever (this st)) →
  typeof options1 ≠ TyFunction →
  get_prop (mem st) options1 "cache" ≠ VBool false →
  truthy cb1 = true →
  let r1 := getPartials W now1 (VArr l1) options1 cb1 st in
  typeof options2 ≠ TyFunction →
  get_prop (mem r1.1.2) options2 "cache" ≠ VBool false →
  truthy cb2 = true →
  let r2 := getPartials W now2 (VArr l2) options2 cb2 r1.1.2 in
  r1 = (readThrough Local now1 (String.concat "" l1) (findTemplates W l1)
        ≫= λ reply, mret (Called cb1 reply)) st
  ∧ (String.concat "" l2 = String.concat "" l1 →
     ∀ v, r1.1.1 = Called cb1 (Success v) →
          r2.1.1 = Called cb2 (Success v) ∧ r2.2 = [])
  ∧ (String.concat "" l2 ≠ String.concat "" l1 →
     find_entry (String.concat "" l2) (entries (this_cacheForever (this r1.1.2)))
     = find_entry (String.concat "" l2) (entries (this_cacheForever (this st)))).
Proof.
  intros Hok Ho1 Hc1 Hcb1 r1 Ho2 Hc2 Hcb2 r2.
  destruct (getPartials_cached W now1 l1 options1 cb1 st Hok Ho1 Hc1 Hcb1)
    as (Hkey & Hok1 & Hval & Hother & _).
  fold r1 in Hkey, Hok1, Hval, Hother.
  split; [exact Hkey |]. split.
  - intros Heq v Hv. destruct (Hval v Hv) as (e & He & <-).
    destruct (getPartials_cached W now2 l2 options2 cb2 r1.1.2 Hok1 Ho2 Hc2 Hcb2)
      as (_ & _ & _ & _ & Hhit).
    apply Hhit. by rewrite Heq.
  - intros Hne. by apply Hother.
Qed.

(** ** [getView] and [path.resolve] *)

Lemma path_resolve_nonempty cwd args : path_resolve cwd args ≠ "".
Proof.
  unfold path_resolve. destruct (resolve_loop cwd (rev args) "") as [p a].
  match goal with |- (if String.eqb ?o "" then _ else _) ≠ _ => destruct (String.eqb_spec o "") end;
    [discriminate | assumption].
Qed.

(** C10: for every string [filePath], the empty string included, [getView]
    never throws its "expects filePath" error: [path.resolve] runs before
    the guard and never returns the empty string. *)
Theorem getView_never_expects_filePath W now (s : string) options callback st :
  (getView W now (VStr s) options callback st).1.1
  ≠ Threw (ErrorExn "RemoteHandlebars.getView expects filePath").
Proof.
  unfold getView, path_resolve_value.
  destruct (decide (typeof options = TyFunction)); cbv iota beta.
  all: destruct (String.eqb_spec (path_resolve (cwd W) [s]) "") as [E|_];
    [ by apply path_resolve_nonempty in E | ].
  all: match goal with |- context [negb (truthy ?c)] => destruct (truthy c) end; cbn [negb];
    [ | by intros [=] ].
  all: rewrite bind_run; cbn [fst snd].
  all: destruct (cache_disabled _ st).1.1; rewrite bind_run; by intros [=].
Qed.

(** ** The HTTP status and the [cache-control] header *)

(** In [part_000] a response with status 400 or more is an error: nothing is
    compiled. *)
Lemma requestTemplate_000_http_error W url st resp :
  request W (mem st) url = inr resp →
  400 ≤ statusCode resp →
  Part000.requestTemplate W url st
  = (LoadError ("HTTP status code '" +:+ pretty (statusCode resp) +:+ "' received"),
     st, [EvRequest url]).
Proof.
  intros Hr Hs. rewrite requestTemplate_000_run, Hr.
  destruct (Z.leb_spec 400 (statusCode resp)); [done | lia].
Qed.

(** In [index.js] every response is compiled, whatever its status and its
    headers. *)
Lemma requestTemplate_idx_any_response W url st resp :
  request W (mem st) url = inr resp →
  IndexJs.requestTemplate W url st
  = (Loaded (VFun (Compiled (body resp))) VUndefined, st, [EvRequest url; EvCompile (body resp)]).
Proof. intros Hr. by rewrite requestTemplate_idx_run, Hr. Qed.

(** Under [no-store], [no-cache] or [must-revalidate] the store keeps
    nothing under the key. *)
Lemma store_do_not_cache now key v header c :
  (let d := parseCacheControl header in noStore d || noCache d || mustRevalidate d) = true →
  find_entry key (entries (store now key v (VStr header) c)) = None.
Proof.
  intros Hd. unfold store, FreshnessPolicy, directives_of. cbn zeta in Hd. rewrite Hd.
  cbn. rewrite find_entry_remove_key. by rewrite String.eqb_refl.
Qed.

(** ** The variant of [part_000] on error statuses *)

Lemma new_object_run o st :
  new_object o st
  = (fresh (dom (mem st)), set_mem (<[fresh (dom (mem st)) := o]> (mem st)) st, []).
Proof. reflexivity. Qed.

(** The descriptor [getLayout] builds for a URL string. *)
Lemma ensure_accept_header_string s st :
  ∃ l st1,
    ensure_accept_header (VStr s) st = (inr l, st1, [])
    ∧ this st1 = this st
    ∧ header_frame st st1
    ∧ get_prop (mem st1) (VObj l) "url" = VStr s.
Proof.
  cbn [ensure_accept_header]. rewrite (bind_eq _ _ _ _ _ _ (new_object_run _ _)).
  set (l := fresh (dom (mem st))).
  set (st0 := set_mem (<[l := {["url" := VStr s]}]> (mem st)) st).
  assert (Hl : is_Some (mem st0 !! l)).
  { unfold st0. cbn [mem set_mem]. rewrite lookup_insert_eq. eexists. reflexivity. }
  assert (Hh : truthy (get_prop (mem st0) (VObj l) "headers") = false).
  { unfold st0. cbn [mem set_mem get_prop]. unfold props. by rewrite lookup_insert_eq. }
  destruct (set_accept_effect l st0 Hl (or_introl Hh))
    as (lh & st1 & Hrun & Hthis & _ & _ & _ & Hkeep & _).
  exists l, st1. rewrite Hrun. cbn [fst snd app]. split; [done |]. split; [done |]. split.
  - etrans; [apply (header_frame_alloc st {["url" := VStr s]}) |].
    pose proof (ensure_accept_header_frame (VObj l) st0) as [_ HF].
    cbn [ensure_accept_header] in HF. by rewrite Hrun in HF.
  - cbn [get_prop]. rewrite Hkeep by done. unfold st0. cbn [mem set_mem]. unfold props.
    by rewrite lookup_insert_eq.
Qed.

#[local] Instance local_only_preorder : PreOrder local_only.
Proof.
  split; [by intros s |]. intros s1 s2 s3 [H1 H2] [H3 H4]. split; congruence.
Qed.

Lemma getView_local_only W now filePath options callback st :
  local_only st (getView W now filePath options callback st).1.2.
Proof.
  apply (respects_getView local_only (λ _, True)); [by intros c s | done | done].
Qed.

(** In [part_000], a layout URL that is answered with an error status and
    is not served from the store makes [getLayout] call back with an
    error. *)
Lemma getLayout_000_http_error W now s options callback st :
  s ≠ "" → typeof options ≠ TyFunction → truthy callback = true →
  (∀ h d, get_prop h d "url" = VStr s →
          ∃ resp, request W h d = inr resp ∧ 400 ≤ statusCode resp) →
  find_entry s (entries (this_cache (this st))) = None →
  ∃ e l, (Part000.getLayout W now (VStr s) options callback st).1.1 = Called callback (Failure e)
         ∧ (Part000.getLayout W now (VStr s) options callback st).2 = [EvRequest (VObj l)].
Proof.
  intros Hs Ho Hcb Hreq Hmiss. unfold Part000.getLayout, getLayout_with.
  rewrite decide_False by done. rewrite decide_False by done.
  assert (Ht : truthy (VStr s) = true).
  { cbn. by destruct (String.eqb_spec s ""). }
  rewrite bind_run. cbn [gets fst snd app]. unfold js_or. rewrite Ht. cbv iota.
  rewrite Ht, Hcb. cbn [negb].
  destruct (ensure_accept_header_string s st) as (l & st1 & Hrun & Hthis & _ & Hurl).
  rewrite (bind_eq _ _ _ _ _ _ Hrun). cbn [fst snd app].
  destruct (Hreq (mem st1) (VObj l) Hurl) as (resp & Hresp & Hstatus).
  pose proof (requestTemplate_000_http_error W (VObj l) st1 resp Hresp Hstatus) as Hload.
  rewrite bind_run, cache_disabled_run. cbn [fst snd app].
  destruct (bool_decide _).
  - rewrite (bind_eq _ _ _ _ _ _ Hload). cbn [fst snd reply_of]. mrun. by eexists _, l.
  - rewrite bind_run. cbn [gets fst snd app]. rewrite Hurl.
    rewrite bind_run, readThrough_miss by (cbn [cache_of]; by rewrite Hthis).
    rewrite Hload. cbn [fst snd]. mrun. by eexists _, l.
Qed.

Lemma dispatch_aborted tasks st c :
  (dispatch tasks st).1.1 = inl c → ∀ cb r, c ≠ Called cb r.
Proof.
  revert st. induction tasks as [|[t run] tasks IH]; intros st; [done |].
  rewrite dispatch_cons. destruct (run st).1.1 eqn:E; cbn [fst snd]; try (by intros [= <-]).
  destruct (dispatch tasks (run st).1.2).1.1 eqn:E'; [| done].
  intros [= <-]. by eapply IH.
Qed.

Lemma first_error_failure outs t e :
  (t, Some (Failure e)) ∈ outs → is_Some (first_error outs).
Proof.
  induction outs as [|[t' [[e'|v]|]] outs IH]; cbn.
  - by intros ?%elem_of_nil.
  - by eexists.
  - intros [[=] | Hin]%elem_of_cons. by apply IH.
  - intros [[=] | Hin]%elem_of_cons. by apply IH.
Qed.

(** In [part_000], when the layout in effect is a URL that is answered with
    an error status and is not served from the store, [render] never calls
    back with rendered text: whenever it calls back, it is with an error. *)
Lemma render_000_http_error W now filePath options callback st s :
  layout_for st options = VStr s → s ≠ "" →
  (∀ h d, get_prop h d "url" = VStr s →
          ∃ resp, request W h d = inr resp ∧ 400 ≤ statusCode resp) →
  find_entry s (entries (this_cache (this st))) = None →
  match (Part000.render W now filePath options callback st).1.1 with
  | Called cb reply => cb = callback ∧ ∃ e, reply = Failure e
  | _ => True
  end.
Proof.
  intros HL Hs Hreq Hmiss.
  unfold Part000.render. rewrite bind_run. cbn [gets fst snd id].
  rewrite bind_run. cbn [fst snd].
  assert (Hpar : match (parallel (Part000.tasks W now filePath options st) st).1.1 with
                 | Aborted c => ∀ cb r, c ≠ Called cb r
                 | Errored _ => True
                 | Results _ => False
                 end).
  { assert (Ht : truthy (VStr s) = true).
    { cbn. by destruct (String.eqb_spec s ""). }
    unfold parallel. mrun. unfold Part000.tasks. rewrite HL, Ht. cbn [app].
    rewrite dispatch_cons.
    pose proof (getView_local_only W now filePath (VObj options) (VFun (Done TView)) st)
      as [_ Hcache].
    destruct (getView W now filePath (VObj options) (VFun (Done TView)) st)
      as [[cv st1] tv]. cbn [fst snd] in *.
    destruct cv as [ex|cbv rv| |]; try done. cbn [fst snd].
    rewrite dispatch_cons. unfold Part000.layoutTask. rewrite decide_False by done.
    destruct (getLayout_000_http_error W now s (VObj options) (VFun (Done TLayout)) st1)
      as (e & l & Hc & _); [done | done | done | done | by rewrite Hcache |].
    rewrite Hc. cbn [fst snd].
    match goal with |- context [dispatch ?ts ?s1] =>
      pose proof (dispatch_aborted ts s1) as Hab; destruct (dispatch ts s1).1.1 as [c|outs] end.
    - by apply Hab.
    - rewrite (decide_True (P := VFun (Done TLayout) = VFun (Done TLayout))) by done.
      match goal with |- context [first_error ?o] =>
        destruct (first_error_failure o TLayout e) as [e' ->]; [by right; left | done] end. }
  destruct (parallel (Part000.tasks W now filePath options st) st).1.1 as [c|e|results];
    [| by mrun; eauto | done].
  mrun. destruct c as [ex|cb r| |]; try done. by destruct (Hpar cb r).
Qed.

(** ** The variant of [part_000] on [cache-control] *)

(** One [getLayout] call of [part_000] on a URL string whose response is
    [resp]: a direct load when caching is disabled, a read through the
    remote store otherwise. *)
Lemma getLayout_000_string W now s options callback st resp :
  s ≠ "" → typeof options ≠ TyFunction → truthy callback = true →
  (∀ h d, get_prop h d "url" = VStr s → request W h d = inr resp) →
  statusCode resp < 400 →
  ∃ l st1,
    this st1 = this st
    ∧ header_frame st st1
    ∧ get_prop (mem st1) (VObj l) "url" = VStr s
    ∧ let template := VFun (Compiled (body resp)) in
      let cacheControl :=
        match headers resp !! "cache-control" with
        | Some header => VStr header
        | None => VUndefined
        end in
      let tr := [EvRequest (VObj l); EvCompile (body resp)] in
      Part000.requestTemplate W (VObj l) st1 = (Loaded template cacheControl, st1, tr)
      ∧ Part000.getLayout W now (VStr s) options callback st
        = if bool_decide (get_prop (mem st1) options "cache" = VBool false)
          then (Called callback (Success template), st1, tr)
          else (readThrough Remote now s (Part000.requestTemplate W (VObj l))
                ≫= λ r, mret (Called callback r)) st1.
Proof.
  intros Hs Ho Hcb Hreq Hstatus.
  destruct (ensure_accept_header_string s st) as (l & st1 & Hrun & Hthis & HF & Hurl).
  exists l, st1. split; [done |]. split; [done |]. split; [done |]. cbv zeta.
  assert (Hload : Part000.requestTemplate W (VObj l) st1
                  = (Loaded (VFun (Compiled (body resp)))
                       match headers resp !! "cache-control" with
                       | Some header => VStr header
                       | None => VUndefined
                       end,
                     st1, [EvRequest (VObj l); EvCompile (body resp)])).
  { rewrite requestTemplate_000_run, (Hreq _ _ Hurl).
    destruct (Z.leb_spec 400 (statusCode resp)); [lia | done]. }
  split; [exact Hload |].
  unfold Part000.getLayout, getLayout_with.
  rewrite decide_False by done. rewrite decide_False by done.
  assert (Ht : truthy (VStr s) = true).
  { cbn. by destruct (String.eqb_spec s ""). }
  rewrite bind_run. cbn [gets fst snd app]. unfold js_or. rewrite Ht. cbv iota.
  rewrite Ht, Hcb. cbn [negb].
  rewrite (bind_eq _ _ _ _ _ _ Hrun). cbn [fst snd app].
  rewrite bind_run, cache_disabled_run. cbn [fst snd app].
  destruct (bool_decide _).
  - rewrite (bind_eq _ _ _ _ _ _ Hload). by mrun.
  - rewrite bind_run. cbn [gets fst snd app]. rewrite Hurl. symmetry. apply surjective_run.
Qed.

Lemma modify_run f st : modify f st = (tt, f st, []).
Proof. reflexivity. Qed.

(** Reading through the store with a loader whose response says "do not
    cache": if the loader ran, nothing is left under the key. *)
Lemma readThrough_do_not_cache w now key loader st v header tr :
  loader st = (Loaded v (VStr header), st, tr) →
  (∀ c, loader (set_cache w c st) = (Loaded v (VStr header), set_cache w c st, tr)) →
  (let d := parseCacheControl header in noStore d || noCache d || mustRevalidate d) = true →
  let r := readThrough w now key loader st in
  r.2 = [] ∨ find_entry key (entries (cache_of w r.1.2)) = None.
Proof.
  intros Hl Hl' Hd r. subst r. unfold readThrough. rewrite bind_run. cbn [gets fst snd app].
  assert (Hcache : ∀ c s, cache_of w (set_cache w c s) = c) by (by destruct w).
  assert (Hmiss : ∀ st', loader st' = (Loaded v (VStr header), st', tr) →
    let r := (r ← loader;
              match r with
              | LoadError e => mret (Failure e)
              | Loaded v cacheControl =>
                  modify (λ st, set_cache w (store now key v cacheControl (cache_of w st)) st);;
                  mret (Success v)
              end) st' in
    find_entry key (entries (cache_of w r.1.2)) = None).
  { intros st' Hst'. cbv zeta. rewrite (bind_eq _ _ _ _ _ _ Hst'). mrun.
    unfold modify. cbn [fst snd]. rewrite Hcache. by apply store_do_not_cache. }
  destruct (find_entry key (entries (cache_of w st))) as [e|]; [| right; by apply Hmiss].
  destruct (freshness_at now e); [by left | | right; by apply Hmiss].
  right. rewrite bind_run, modify_run. cbn [fst snd].
  rewrite (bind_eq _ _ _ _ _ _ (Hl' _)). mrun. unfold modify. cbn [fst snd].
  rewrite !Hcache. by apply store_do_not_cache.
Qed.

(** In [part_000], a layout whose response says "do not cache" is fetched
    again by the next call, whatever the instance's [maxAge]. *)
Lemma getLayout_000_fetches_again W now now' s options callback st resp header :
  s ≠ "" → typeof options ≠ TyFunction → truthy callback = true →
  (∀ h d, get_prop h d "url" = VStr s → request W h d = inr resp) →
  statusCode resp < 400 →
  headers resp !! "cache-control" = Some header →
  (let d := parseCacheControl header in noStore d || noCache d || mustRevalidate d) = true →
  let r1 := Part000.getLayout W now (VStr s) options callback st in
  let r2 := Part000.getLayout W now' (VStr s) options callback r1.1.2 in
  fetched r1 → fetched r2.
Proof.
  intros Hs Ho Hcb Hreq Hstatus Hh Hd r1 r2 Hf1.
  destruct (getLayout_000_string W now s options callback st resp)
    as (l1 & st1 & Hthis1 & HF1 & Hurl1 & Hload1 & Hrun1); try done.
  destruct (getLayout_000_string W now' s options callback r1.1.2 resp)
    as (l2 & st2 & Hthis2 & HF2 & Hurl2 & Hload2 & Hrun2); try done.
  fold r1 in Hrun1. fold r2 in Hrun2. rewrite Hh in *.
  assert (Hdirect : fetched (Called callback (Success (VFun (Compiled (body resp)))), st2,
                             [EvRequest (VObj l2); EvCompile (body resp)])).
  { by eexists _, _, l2, _. }
  destruct (bool_decide (get_prop (mem st1) options "cache" = VBool false)) eqn:Hflag1.
  - (* caching disabled: also for the next call *)
    apply bool_decide_eq_true_1 in Hflag1.
    assert (Hst : r1.1.2 = st1) by (by rewrite Hrun1).
    rewrite Hst in HF2.
    rewrite Hrun2, bool_decide_eq_true_2; [done |].
    destruct (get_prop_is_Some _ _ _ _ Hflag1) as (lo & -> & Hlo); [done |].
    cbn [get_prop] in *. destruct (HF2 lo Hlo) as [_ E]. by rewrite E.
  - (* the first call read through the store, and its loader ran *)
    rewrite Hrun2.
    destruct (bool_decide (get_prop (mem st2) options "cache" = VBool false));
      [exact Hdirect |].
    assert (Hnone : find_entry s (entries (this_cache (this st2))) = None).
    { rewrite Hthis2.
      destruct (readThrough_do_not_cache Remote now s (Part000.requestTemplate W (VObj l1))
                  st1 _ header _ Hload1) as [Hsilent | Hnone]; [| done | |].
      - intros c. rewrite requestTemplate_000_run. cbn [mem set_cache].
        rewrite (Hreq _ (VObj l1) Hurl1).
        destruct (Z.leb_spec 400 (statusCode resp)); [lia |]. by rewrite Hh.
      - (* silent: contradicts [fetched r1] *)
        destruct Hf1 as (cb & rp & l & tl & _ & Htr). rewrite Hrun1 in Htr.
        rewrite bind_run in Htr. cbn [fst snd] in Htr. rewrite Hsilent in Htr. done.
      - rewrite Hrun1. rewrite bind_run. cbn [fst snd M_ret mret]. exact Hnone. }
    rewrite bind_run, readThrough_miss by done. rewrite Hload2. cbn [fst snd]. mrun.
    by eexists _, _, l2, _.
Qed.

(** ** The variant of [index.js] on the same responses *)

(** The variant of [part_000] on the inputs of the two theorems below. *)
Example part_000_passes_on_http_errors :
  (Part000.render Fixtures.test_world 0 Fixtures.view 1%positive Fixtures.done
     {| this := Part000.create Fixtures.error_layout; mem := Fixtures.one_object ∅ |}).1.1
  = Called Fixtures.done (Failure "HTTP status code '404' received").
Proof. vm_compute. reflexivity. Qed.

Example part_000_fetches_again_after_no_cache :
  let st := {| this := Part000.create Fixtures.ten_minutes; mem := ∅ |} in
  let r1 := Part000.getLayout Fixtures.test_world 0 (VStr Fixtures.uncached) VUndefined
              Fixtures.done st in
  let r2 := Part000.getLayout Fixtures.test_world 1 (VStr Fixtures.uncached) VUndefined
              Fixtures.done r1.1.2 in
  entries (this_cache (this r1.1.2)) = []
  ∧ r2.2 = [EvRequest (VObj 3%positive); EvCompile "<body>{{{content}}}</body>"].
Proof. vm_compute. done. Qed.

(** C1, on [src/index.js]: the layout request is answered with status 404
    and the body "Not Found"; [render] compiles that body and calls back
    with the text it renders, not with an error. *)
Theorem index_js_renders_error_response :
  ∃ t d resp,
    IndexJs.create Fixtures.error_layout = Some t
    ∧ get_prop d.1 d.2 "url" = VStr "http://mocked/layouts/error"
    ∧ request Fixtures.test_world d.1 d.2 = inr resp
    ∧ statusCode resp = 404
    ∧ let r := IndexJs.render Fixtures.test_world 0 Fixtures.view 1%positive Fixtures.done
                 {| this := t; mem := Fixtures.one_object ∅ |} in
      r.1.1 = Called Fixtures.done (Success (VStr (body resp)))
      ∧ EvCompile (body resp) ∈ r.2.
Proof.
  eexists _, ({[ 2%positive := {[ "url" := VStr "http://mocked/layouts/error" ]} ]},
              VObj 2%positive), _.
  split; [reflexivity |]. split; [reflexivity |]. split; [reflexivity |].
  split; [reflexivity |]. split; [vm_compute; reflexivity |].
  vm_compute. do 3 right. left.
Qed.

(** C2, on [src/index.js]: the response carries
    [no-cache, no-store, must-revalidate] and the instance has [maxAge] 600;
    the next [getLayout] for the same URL, one second later, is served from
    the store without a request. *)
Theorem index_js_serves_no_cache_response_from_cache :
  ∃ t d resp header,
    IndexJs.create Fixtures.ten_minutes = Some t
    ∧ get_prop d.1 d.2 "url" = VStr Fixtures.uncached
    ∧ request Fixtures.test_world d.1 d.2 = inr resp
    ∧ headers resp !! "cache-control" = Some header
    ∧ noStore (parseCacheControl header) = true
    ∧ noCache (parseCacheControl header) = true
    ∧ mustRevalidate (parseCacheControl header) = true
    ∧ let r1 := IndexJs.getLayout Fixtures.test_world 0 (VStr Fixtures.uncached) VUndefined
                  Fixtures.done {| this := t; mem := ∅ |} in
      let r2 := IndexJs.getLayout Fixtures.test_world 1 (VStr Fixtures.uncached) VUndefined
                  Fixtures.done r1.1.2 in
      r1.1.1 = Called Fixtures.done (Success (VFun (Compiled (body resp))))
      ∧ r2.1.1 = Called Fixtures.done (Success (VFun (Compiled (body resp))))
      ∧ r2.2 = [].
Proof.
  eexists _, ({[ 2%positive := {[ "url" := VStr Fixtures.uncached ]} ]}, VObj 2%positive), _, _.
  split; [reflexivity |]. split; [reflexivity |]. split; [reflexivity |].
  split; [reflexivity |]. do 3 (split; [vm_compute; reflexivity |]).
  vm_compute. done.
Qed.

(** The claim as stated fails: [["a"; "aa"]] and [["aa"; "a"]] are
    reorderings of each other with the same concatenation; after a call on
    the first, a call on the second is answered from the first's entry,
    with the partial [x] of directory [aa] where its own scan ends with
    that of directory [a]. *)
Lemma reordered_lists_share_entry :
  let l1 := ["a"; "aa"] in
  let l2 := ["aa"; "a"] in
  let st := {| this := Part000.create ∅; mem := ∅ |} in
  let r1 := getPartials Fixtures.two_dirs 0 (VArr l1) VUndefined Fixtures.done st in
  let r2 := getPartials Fixtures.two_dirs 1 (VArr l2) VUndefined Fixtures.done r1.1.2 in
  l1 ≡ₚ l2 ∧ l1 ≠ l2
  ∧ ∃ l, r1.1.1 = Called Fixtures.done (Success (VObj l))
         ∧ r2.1.1 = Called Fixtures.done (Success (VObj l))
         ∧ r2.2 = []
         ∧ props (mem r2.1.2) l !! "x" = Some (VFun (Compiled "from aa"))
         ∧ ∃ l', (findTemplates Fixtures.two_dirs l2 r1.1.2).1.1 = Loaded (VObj l') VUndefined
                 ∧ props (mem (findTemplates Fixtures.two_dirs l2 r1.1.2).1.2) l' !! "x"
                   = Some (VFun (Compiled "from a")).
Proof.
  cbv zeta. split; [apply Permutation_swap |]. split; [done |].
  exists 1%positive. do 4 (split; [vm_compute; reflexivity |]).
  exists 2%positive. split; vm_compute; reflexivity.
Qed.

(** ** The theorems on the fixtures of the test-suite *)

Lemma run_eta (r : run) c : r.1.1 = c → r = (c, r.1.2, r.2).
Proof. destruct r as [[? ?] ?]. by intros <-. Qed.

(** C4 on [render(view, {placeholder: 'body'}, done)] with the layout
    [<body>{{{body}}}</body>]. *)
Lemma render_with_layout_witness :
  truthy (layout_for Fixtures.body_call 1%positive) = true
  ∧ to_string (placeholder_for Fixtures.body_call 1%positive) = Some "body"
  ∧ (Part000.render Fixtures.test_world 0 Fixtures.view 1%positive Fixtures.done Fixtures.body_call).1.1
    = Called Fixtures.done (Success (VStr "<body><article>Hello</article></body>")).
Proof.
  split; [reflexivity |]. split; [reflexivity |].
  set (W := Fixtures.test_world).
  set (v := getView W 0 Fixtures.view (VObj 1%positive) (VFun (Done TView)) Fixtures.body_call).
  set (l := Part000.layoutTask W 0 (layout_for Fixtures.body_call 1%positive) 1%positive v.1.2).
  set (p := getPartials W 0 (partialsDir_for Fixtures.body_call 1%positive) (VObj 1%positive)
              (VFun (Done TPartials)) l.1.2).
  rewrite (proj1 render_with_layout W 0 Fixtures.view 1%positive Fixtures.done Fixtures.body_call
             (Compiled "<article>Hello</article>") (Compiled "<body>{{{body}}}</body>")
             (VObj 4%positive) "body" v.1.2 l.1.2 p.1.2 v.2 l.2 p.2).
  - vm_compute. reflexivity.
  - reflexivity.
  - apply run_eta. vm_compute. reflexivity.
  - apply run_eta. vm_compute. reflexivity.
  - change (truthy (partialsDir_for Fixtures.body_call 1%positive)) with true. cbv iota.
    apply run_eta. vm_compute. reflexivity.
  - reflexivity.
Defined.

(** C5 on [render(view, {}, done)] of an instance with [layout: false]. *)
Lemma render_without_layout_witness :
  truthy (layout_for Fixtures.plain_call 1%positive) = false
  ∧ let r := Part000.render Fixtures.test_world 0 Fixtures.view 1%positive Fixtures.done
               Fixtures.plain_call in
    Forall no_request r.2
    ∧ heap_grows Fixtures.plain_call r.1.2
    ∧ r.1.1 = Called Fixtures.done (Success (VStr "<article>Hello</article>")).
Proof.
  split; [reflexivity |]. cbv zeta.
  destruct (render_without_layout Fixtures.test_world 0 Fixtures.view 1%positive Fixtures.done
              Fixtures.plain_call eq_refl) as (_ & Hframe & _).
  destruct (Hframe _ (or_introl eq_refl)) as [Hreq Hgrow].
  split; [exact Hreq |]. split; [exact Hgrow |]. vm_compute. reflexivity.
Defined.

(** C8 on the two fixture directories as a list, then as one string that is
    their concatenation. *)
Lemma partials_cache_key_witness :
  let l1 := ["/repo/test/fixtures/views/partials"; "/repo/test/fixtures/views/more-partials"] in
  let l2 := ["/repo/test/fixtures/views/partials/repo/test/fixtures/views/more-partials"] in
  let st := {| this := Part000.create ∅; mem := ∅ |} in
  let r1 := getPartials Fixtures.test_world 0 (VArr l1) VUndefined Fixtures.done st in
  let r2 := getPartials Fixtures.test_world 5 (VArr l2) VUndefined Fixtures.done r1.1.2 in
  forever_ok (this_cacheForever (this st))
  ∧ String.concat "" l2 = String.concat "" l1
  ∧ r1.1.1 = Called Fixtures.done (Success (VObj 1%positive))
  ∧ r2.1.1 = Called Fixtures.done (Success (VObj 1%positive))
  ∧ r2.2 = [].
Proof.
  cbv zeta.
  set (l1 := ["/repo/test/fixtures/views/partials"; "/repo/test/fixtures/views/more-partials"]).
  set (l2 := ["/repo/test/fixtures/views/partials/repo/test/fixtures/views/more-partials"]).
  set (st := {| this := Part000.create ∅; mem := ∅ |}).
  assert (Hok : forever_ok (this_cacheForever (this st))) by (by repeat split).
  assert (Hkey : String.concat "" l2 = String.concat "" l1) by reflexivity.
  assert (Hr1 : (getPartials Fixtures.test_world 0 (VArr l1) VUndefined Fixtures.done st).1.1
                = Called Fixtures.done (Success (VObj 1%positive)))
    by (vm_compute; reflexivity).
  split; [exact Hok |]. split; [exact Hkey |]. split; [exact Hr1 |].
  destruct (partials_cache_key Fixtures.test_world 0 5 l1 l2 VUndefined VUndefined
              Fixtures.done Fixtures.done st Hok) as (_ & Hshare & _);
    try discriminate; try reflexivity.
  exact (Hshare Hkey _ Hr1).
Defined.

(** C9 on a descriptor whose headers ask for [text/html]. *)
Lemma getLayout_sets_accept_in_place_witness :
  let st := {| this := Part000.create ∅; mem := Fixtures.descriptor |} in
  let st' := (Part000.getLayout Fixtures.test_world 0 (VObj 1%positive) VUndefined
                Fixtures.done st).1.2 in
  get_prop (mem st) (VObj 1%positive) "headers" = VObj 2%positive
  ∧ props (mem st) 2%positive !! "Accept" = Some (VStr "text/html")
  ∧ ∃ lh,
      (get_prop (mem st) (VObj 1%positive) "headers" = VObj lh
       ∨ (truthy (get_prop (mem st) (VObj 1%positive) "headers") = false
          ∧ mem st !! lh = None))
      ∧ get_prop (mem st') (VObj 1%positive) "headers" = VObj lh
      ∧ props (mem st') lh !! "Accept" = Some (VStr accept)
      ∧ (∀ k, k ≠ "headers" → (lh = 1%positive → k ≠ "Accept") →
              props (mem st') 1%positive !! k = props (mem st) 1%positive !! k)
      ∧ (∀ k, k ≠ "Accept" →
              get_prop (mem st) (VObj 1%positive) "headers" = VObj lh →
              props (mem st') lh !! k = props (mem st) lh !! k).
Proof.
  cbv zeta. split; [reflexivity |]. split; [reflexivity |].
  apply (getLayout_sets_accept_in_place Fixtures.test_world 0 1%positive VUndefined
           Fixtures.done {| this := Part000.create ∅; mem := Fixtures.descriptor |}).
  - by eexists.
  - right. reflexivity.
  - right. by exists 2%positive.
  - left. reflexivity.
Defined.

(** * Further properties of the engine *)

(** ** Partial names *)

Lemma append_cons c (a b : string) : String c a +:+ b = String c (a +:+ b).
Proof. reflexivity. Qed.

Lemma length_append (a b : string) :
  String.length (a +:+ b) = (String.length a + String.length b)%nat.
Proof.
  induction a as [|c a IH]; [done |]. rewrite append_cons. cbn [String.length]. by rewrite IH.
Qed.

Lemma chop_suffix_app suf s : chop_suffix suf (s +:+ suf) = Some s.
Proof.
  induction s as [|c s IH].
  - change ("" +:+ suf) with suf. destruct suf; cbn [chop_suffix]; by rewrite String.eqb_refl.
  - rewrite append_cons. cbn [chop_suffix].
    assert (Hne : String.eqb (String c (s +:+ suf)) suf = false).
    { apply String.eqb_neq. intros E. apply (f_equal String.length) in E.
      change (S (String.length (s +:+ suf)) = String.length suf) in E.
      rewrite length_append in E. lia. }
    rewrite Hne, IH. done.
Qed.

Lemma chop_suffix_Some suf s p : chop_suffix suf s = Some p → s = p +:+ suf.
Proof.
  revert p. induction s as [|c s IH]; intros p.
  - destruct suf; cbn; [by intros [= <-] | done].
  - cbn [chop_suffix]. destruct (String.eqb (String c s) suf) eqn:E.
    + apply String.eqb_eq in E. by intros [= <-].
    + destruct (chop_suffix suf s) as [q|]; [| done].
      intros [= <-]. rewrite append_cons. f_equal. by apply IH.
Qed.

Lemma list_ascii_of_string_app (a b : string) :
  String.list_ascii_of_string (a +:+ b) = String.list_ascii_of_string a ++ String.list_ascii_of_string b.
Proof.
  induction a as [|c a IH]; [done |]. rewrite append_cons. cbn [String.list_ascii_of_string app].
  by rewrite IH.
Qed.

(** No path ends in both extensions. *)
Lemma no_double_extension name name' : name +:+ ".hbs" ≠ name' +:+ ".handlebars".
Proof.
  intros E. apply (f_equal String.list_ascii_of_string) in E.
  rewrite !list_ascii_of_string_app in E. apply (f_equal reverse) in E.
  rewrite !reverse_app in E. by vm_compute in E.
Qed.

(** X1: the name under which [findTemplates] files a partial is the file
    path without its final [.handlebars] or [.hbs] (the directories of the
    path stay in the name); a name is always the path itself or the path
    without one of the two extensions. *)
Theorem partial_name_strips_extension name :
  partial_name (name +:+ ".handlebars") = name
  ∧ partial_name (name +:+ ".hbs") = name
  ∧ (name = partial_name name +:+ ".handlebars"
     ∨ name = partial_name name +:+ ".hbs"
     ∨ name = partial_name name).
Proof.
  unfold partial_name. split; [| split].
  - by rewrite chop_suffix_app.
  - rewrite (chop_suffix_app ".hbs").
    destruct (chop_suffix ".handlebars" (name +:+ ".hbs")) as [p|] eqn:E; [| done].
    apply chop_suffix_Some in E. by apply no_double_extension in E.
  - destruct (chop_suffix ".handlebars" name) as [p|] eqn:E1.
    { apply chop_suffix_Some in E1. by left. }
    destruct (chop_suffix ".hbs" name) as [p|] eqn:E2; cbn [default].
    + apply chop_suffix_Some in E2. right. by left.
    + by do 2 right.
Qed.

(** ** What [findTemplates] finds *)

Lemma result_eta {A} (r : A * state * list event) a : r.1.1 = a → r = (a, r.1.2, r.2).
Proof. destruct r as [[? ?] ?]. by intros <-. Qed.

Lemma readable_compiled W dir file :
  readable W dir file = true ↔ is_Some (compiled_from W dir file).
Proof.
  unfold readable, compiled_from.
  destruct (readFile W _); split; try done; by intros [? ?].
Qed.

Lemma each_file_inl W dir files e st : (each_file W dir files (inl e) st).1.1 = inl e.
Proof.
  revert st. induction files as [|f files IH]; intros st; [done |].
  cbn [each_file]. rewrite bind_run. cbn [fst snd]. apply IH.
Qed.

(** One directory: the reduction goes on exactly when every file can be
    read, and then the memo holds what it held, overwritten by the files of
    the directory. *)
Lemma each_file_names W dir files templates st :
  match (each_file W dir files (inr templates) st).1.1 with
  | inl _ => forallb (readable W dir) files = false
  | inr m =>
      forallb (readable W dir) files = true
      ∧ (∀ x v, m !! x = Some v →
           templates !! x = Some v
           ∨ ∃ f, f ∈ files ∧ partial_name f = x ∧ compiled_from W dir f = Some v)
      ∧ (∀ x, is_Some (templates !! x) → is_Some (m !! x))
      ∧ (∀ f, f ∈ files → is_Some (m !! partial_name f))
  end.
Proof.
  revert templates st. induction files as [|f files IH]; intros templates st.
  - cbn. split; [done |]. split; [by left |]. split; [done |]. intros f Hf. by inversion Hf.
  - cbn [each_file forallb]. rewrite bind_run. cbn [fst snd].
    rewrite readTemplate_run. unfold readable at 1 3, compiled_from.
    destruct (readFile W (path_resolve (cwd W) [dir; f])) as [e|content] eqn:Hread;
      cbn [fst snd andb].
    { by rewrite each_file_inl. }
    specialize (IH (<[partial_name f := VFun (Compiled content)]> templates) st).
    destruct (each_file W dir files _ st).1.1 as [e|m]; [done |].
    destruct IH as (Hall & Hfrom & Hkeep & Hin).
    split; [done |]. split; [| split].
    + intros x v Hx. destruct (Hfrom x v Hx) as [Hold | (g & Hg & Hn & Hc)].
      * destruct (decide (partial_name f = x)) as [<- | Hne].
        -- rewrite lookup_insert_eq in Hold. injection Hold as <-.
           right. exists f. split; [by left |]. split; [done |]. by rewrite Hread.
        -- rewrite lookup_insert_ne in Hold by done. by left.
      * right. exists g. split; [by right | done].
    + intros x Hx. apply Hkeep.
      destruct (decide (partial_name f = x)) as [<- | Hne];
        [by rewrite lookup_insert_eq | by rewrite lookup_insert_ne].
    + intros g Hg. apply elem_of_cons in Hg as [-> | Hg]; [| by apply Hin].
      apply Hkeep. by rewrite lookup_insert_eq.
Qed.

Lemma reduce_dirs_names W paths templates st :
  match (reduce_dirs W paths templates st).1.1 with
  | inl _ => forallb (scannable W) paths = false
  | inr m =>
      forallb (scannable W) paths = true
      ∧ (∀ x v, m !! x = Some v → templates !! x = Some v ∨ template_of W paths x v)
      ∧ (∀ x, is_Some (templates !! x) → is_Some (m !! x))
      ∧ (∀ dir files file, dir ∈ paths → glob W dir = inr files → file ∈ files →
           is_Some (m !! partial_name file))
  end.
Proof.
  revert templates st. induction paths as [|d paths IH]; intros templates st.
  - cbn. split; [done |]. split; [by left |]. split; [done |].
    intros dir files file Hd. by inversion Hd.
  - cbn [reduce_dirs forallb]. rewrite bind_run. cbn [emit fst snd]. unfold scannable at 1 3.
    destruct (glob W d) as [e|files] eqn:Hglob; [done |].
    rewrite bind_run. cbn [fst snd]. rewrite each_file_state.
    pose proof (each_file_names W d files templates st) as Hd.
    destruct (each_file W d files (inr templates) st).1.1 as [e|m1]; cbn [fst snd].
    { by rewrite Hd. }
    destruct Hd as (Hall & Hfrom & Hkeep & Hin). rewrite Hall. cbn [andb].
    specialize (IH m1 st).
    destruct (reduce_dirs W paths m1 st).1.1 as [e|m]; [done |].
    destruct IH as (Hall' & Hfrom' & Hkeep' & Hin').
    split; [done |]. split; [| split].
    + intros x v Hx. destruct (Hfrom' x v Hx) as [Hold | (d' & fs & f & Hd' & Hg & Hf & Hn & Hc)].
      * destruct (Hfrom x v Hold) as [? | (f & Hf & Hn & Hc)]; [by left |].
        right. exists d, files, f. split; [by left | done].
      * right. exists d', fs, f. split; [by right | done].
    + intros x Hx. by apply Hkeep', Hkeep.
    + intros dir fs f Hdir Hg Hf. apply elem_of_cons in Hdir as [-> | Hdir].
      * rewrite Hglob in Hg. injection Hg as <-. by apply Hkeep', Hin.
      * by eapply Hin'.
Qed.

Lemma findTemplates_run W paths st :
  findTemplates W paths st =
  match (reduce_dirs W paths ∅ st).1.1 with
  | inl error => (LoadError error, st, (reduce_dirs W paths ∅ st).2)
  | inr templates =>
      (Loaded (VObj (fresh (dom (mem st)))) VUndefined,
       set_mem (<[fresh (dom (mem st)) := templates]> (mem st)) st,
       (reduce_dirs W paths ∅ st).2)
  end.
Proof.
  unfold findTemplates. rewrite bind_run. cbn [fst snd]. rewrite reduce_dirs_state.
  destruct (reduce_dirs W paths ∅ st).1.1; mrun; [done |].
  unfold new_object, alloc. cbn [fst snd]. by rewrite ?app_nil_r.
Qed.

Lemma found_names_ordinary W dir files file :
  glob W dir = inr files → file ∈ files → partial_name file ≠ "__proto__".
Proof.
  intros Hglob Hfile Hname. pose proof (glob_ordinary W dir) as Hord.
  rewrite Hglob in Hord. cbn [ordinary_names] in Hord.
  rewrite forallb_forall in Hord. apply list_elem_of_In in Hfile.
  specialize (Hord file Hfile). unfold ordinary_key in Hord. by rewrite Hname in Hord.
Qed.

(** X2: on the file systems of the embedding, where no template file is
    named [__proto__] (the invariant [glob_ordinary] of a [world]: for that
    name the assignment [templates[name] = template] replaces the prototype
    of the memo and adds no property), the object [findTemplates] calls back
    with has a property for the name of every file that [glob] finds in the
    directories, and nothing else: each property is the template compiled
    from one of those files, and none of them is named [__proto__]. *)
Theorem findTemplates_names W paths st l cacheControl st' tr :
  findTemplates W paths st = (Loaded (VObj l) cacheControl, st', tr) →
  (∀ x v, props (mem st') l !! x = Some v → x ≠ "__proto__" ∧ template_of W paths x v)
  ∧ (∀ dir files file, dir ∈ paths → glob W dir = inr files → file ∈ files →
       partial_name file ≠ "__proto__"
       ∧ is_Some (props (mem st') l !! partial_name file)).
Proof.
  rewrite findTemplates_run. pose proof (reduce_dirs_names W paths ∅ st) as H.
  destruct (reduce_dirs W paths ∅ st).1.1 as [e|m]; [done |].
  intros [= <- _ <- _]. destruct H as (_ & Hfrom & _ & Hin).
  cbn [mem set_mem]. unfold props. rewrite lookup_insert_eq. cbn [default]. split.
  - intros x v Hx. destruct (Hfrom x v Hx) as [Hold | Hof].
    + by rewrite lookup_empty in Hold.
    + split; [| exact Hof]. destruct Hof as (dir & files & file & _ & Hglob & Hfile & <- & _).
      exact (found_names_ordinary W dir files file Hglob Hfile).
  - intros dir files file Hdir Hglob Hfile.
    split; [exact (found_names_ordinary W dir files file Hglob Hfile) |].
    exact (Hin dir files file Hdir Hglob Hfile).
Qed.

(** X3: [findTemplates] calls back with a partials object exactly when every
    directory of the list can be scanned and every file found can be read;
    otherwise it calls back with an error. *)
Theorem findTemplates_succeeds_iff W paths st :
  (∃ l, (findTemplates W paths st).1.1 = Loaded (VObj l) VUndefined)
  ↔ forallb (scannable W) paths = true.
Proof.
  rewrite findTemplates_run. pose proof (reduce_dirs_names W paths ∅ st) as H.
  destruct (reduce_dirs W paths ∅ st).1.1 as [e|m]; cbn [fst].
  - rewrite H. split; [by intros [? ?] | done].
  - destruct H as [-> _]. split; [done |]. intros _. by eexists.
Qed.

Lemma reduce_dirs_stops W pre dir post templates st :
  scannable W dir = false →
  reduce_dirs W (pre ++ dir :: post) templates st = reduce_dirs W (pre ++ [dir]) templates st
  ∧ ∃ error, (reduce_dirs W (pre ++ [dir]) templates st).1.1 = inl error.
Proof.
  intros Hd. revert templates st. induction pre as [|d pre IH]; intros templates st.
  - cbn [app reduce_dirs]. rewrite !bind_run. cbn [emit fst snd]. unfold scannable in Hd.
    destruct (glob W dir) as [e|files]; [split; [done | by eexists] |].
    rewrite !bind_run. cbn [fst snd].
    pose proof (each_file_names W dir files templates st) as H.
    destruct (each_file W dir files (inr templates) st).1.1 as [e|m]; cbn [fst snd].
    + split; [done | by eexists].
    + destruct H as [H _]. congruence.
  - cbn [app reduce_dirs]. rewrite !bind_run. cbn [emit fst snd].
    destruct (glob W d) as [e|files]; [split; [done | by eexists] |].
    rewrite !bind_run. cbn [fst snd]. rewrite each_file_state.
    destruct (each_file W d files (inr templates) st).1.1 as [e|m]; cbn [fst snd].
    + split; [done | by eexists].
    + destruct (IH m st) as [-> [e He]]. split; [done |]. exists e. by rewrite He.
Qed.

(** X4: the directories are scanned in series, and a directory that cannot
    be scanned (its [glob] fails, or one of its files cannot be read) ends
    the scan: [findTemplates] calls back with an error, nothing of the
    directories after it is looked at, and the instance and the caller's
    objects stay as they were. *)
Theorem findTemplates_stops_at_failure W pre dir post st :
  scannable W dir = false →
  findTemplates W (pre ++ dir :: post) st = findTemplates W (pre ++ [dir]) st
  ∧ (∃ error, (findTemplates W (pre ++ dir :: post) st).1.1 = LoadError error)
  ∧ (findTemplates W (pre ++ dir :: post) st).1.2 = st.
Proof.
  intros Hd. destruct (reduce_dirs_stops W pre dir post ∅ st Hd) as [E [e He]].
  rewrite !findTemplates_run, E, He. cbn [fst snd]. split; [done |]. split; [by exists e | done].
Qed.

(** ** The file accesses of [findTemplates] *)

Lemma globs_app t1 t2 : globs (t1 ++ t2) = globs t1 ++ globs t2.
Proof. apply omap_app. Qed.

Lemma reads_app t1 t2 : reads (t1 ++ t2) = reads t1 ++ reads t2.
Proof. apply omap_app. Qed.

Lemma each_file_trace W dir files acc st :
  globs (each_file W dir files acc st).2 = []
  ∧ reads (each_file W dir files acc st).2
    = (λ file, path_resolve (cwd W) [dir; file]) <$> files.
Proof.
  revert acc st. induction files as [|f files IH]; intros acc st; [done |].
  cbn [each_file]. rewrite bind_run. cbn [fst snd]. rewrite globs_app, reads_app.
  destruct (IH (match acc, (readTemplate W (path_resolve (cwd W) [dir; f]) st).1.1 with
                | inl error, _ => inl error
                | inr _, LoadError error => inl error
                | inr templates, Loaded template _ =>
                    inr (<[partial_name f := template]> templates)
                end) (readTemplate W (path_resolve (cwd W) [dir; f]) st).1.2) as [-> ->].
  rewrite readTemplate_run. by destruct (readFile W _).
Qed.

Lemma files_of_cons W dir paths :
  files_of W (dir :: paths)
  = match glob W dir with
    | inr files => (λ file, path_resolve (cwd W) [dir; file]) <$> files
    | inl _ => []
    end ++ files_of W paths.
Proof. reflexivity. Qed.

Lemma reduce_dirs_trace W paths templates st m :
  (reduce_dirs W paths templates st).1.1 = inr m →
  globs (reduce_dirs W paths templates st).2 = paths
  ∧ reads (reduce_dirs W paths templates st).2 = files_of W paths.
Proof.
  revert templates st. induction paths as [|d paths IH]; intros templates st; [done |].
  cbn [reduce_dirs]. rewrite bind_run. cbn [emit fst snd]. rewrite files_of_cons.
  destruct (glob W d) as [e|files]; [done |].
  rewrite bind_run. cbn [fst snd]. rewrite each_file_state.
  destruct (each_file_trace W d files (inr templates) st) as [Hg Hr].
  destruct (each_file W d files (inr templates) st) as [[[e|m1] s1] t1]; [done |].
  cbn [fst snd] in *. intros Hm. destruct (IH m1 st Hm) as [Hg' Hr'].
  rewrite !globs_app, !reads_app, Hg, Hr, Hg', Hr'. done.
Qed.

(** X5: a [findTemplates] that succeeds scans every directory of the list
    exactly once, in list order, and reads exactly the files that [glob]
    found, each once, at [path.resolve(dir, file)]. *)
Theorem findTemplates_file_accesses W paths st v cacheControl :
  (findTemplates W paths st).1.1 = Loaded v cacheControl →
  globs (findTemplates W paths st).2 = paths
  ∧ reads (findTemplates W paths st).2 = files_of W paths.
Proof.
  rewrite findTemplates_run.
  destruct (reduce_dirs W paths ∅ st).1.1 as [e|m] eqn:E; [done |]. intros _.
  cbn [snd]. by eapply reduce_dirs_trace.
Qed.

(** ** Optional and missing arguments *)

Lemma getLayout_with_shift rt now url cb extra st :
  typeof url ≠ TyFunction →
  getLayout_with rt now url (VFun cb) extra st = getLayout_with rt now url VUndefined (VFun cb) st.
Proof.
  intros Hu. unfold getLayout_with. cbn [typeof]. rewrite decide_True by done.
  rewrite (decide_False (P := TyUndefined = TyFunction)) by done.
  rewrite (decide_False (P := typeof url = TyFunction)) by done.
  rewrite !bind_run. cbn [gets fst snd].
  destruct (truthy (js_or url (this_layout (this st)))); [| done]. cbn [negb truthy].
  rewrite !bind_run.
  destruct (ensure_accept_header (js_or url (this_layout (this st))) st) as [[[c|l] st1] tr];
    [done |].
  cbn [fst snd]. by rewrite !bind_run, !cache_disabled_run.
Qed.

(** X6: the options argument can be left out of [getView], [getPartials] and
    [getLayout]: a call whose second argument is a function takes it as the
    callback, ignores the third argument and runs as the call with no
    options. *)
Theorem options_are_optional W now cb extra st :
  (∀ filePath,
     getView W now filePath (VFun cb) extra st = getView W now filePath VUndefined (VFun cb) st)
  ∧ (∀ partialsDir, typeof partialsDir ≠ TyFunction →
       getPartials W now partialsDir (VFun cb) extra st
       = getPartials W now partialsDir VUndefined (VFun cb) st)
  ∧ (∀ url, typeof url ≠ TyFunction →
       Part000.getLayout W now url (VFun cb) extra st
       = Part000.getLayout W now url VUndefined (VFun cb) st
       ∧ IndexJs.getLayout W now url (VFun cb) extra st
         = IndexJs.getLayout W now url VUndefined (VFun cb) st).
Proof.
  split; [| split].
  - intros filePath. unfold getView. cbn [typeof]. rewrite decide_True by done.
    rewrite (decide_False (P := TyUndefined = TyFunction)) by done.
    destruct (path_resolve_value (cwd W) filePath) as [e|p]; [done |].
    destruct (String.eqb p ""); [done |]. cbn [truthy negb].
    by rewrite !bind_run, !cache_disabled_run.
  - intros partialsDir Hp. unfold getPartials. cbn [typeof]. rewrite decide_True by done.
    rewrite (decide_False (P := TyUndefined = TyFunction)) by done.
    rewrite (decide_False (P := typeof partialsDir = TyFunction)) by done.
    rewrite !bind_run. cbn [gets fst snd].
    destruct (truthy (js_or partialsDir (this_partialsDir (this st)))); [| done].
    cbn [negb truthy].
    destruct (paths_of (js_or partialsDir (this_partialsDir (this st)))); [| done].
    by rewrite !bind_run, !cache_disabled_run.
  - intros url Hu. split; by apply getLayout_with_shift.
Qed.

Lemma js_or_falsy a b : truthy a = false → js_or a b = b.
Proof. unfold js_or. by intros ->. Qed.

Lemma js_or_same a : js_or a a = a.
Proof. unfold js_or. by destruct (truthy a). Qed.

Lemma getLayout_with_default rt now url options callback st :
  truthy url = false → typeof (this_layout (this st)) ≠ TyFunction →
  getLayout_with rt now url options callback st
  = getLayout_with rt now (this_layout (this st)) options callback st.
Proof.
  intros Hu Hl. unfold getLayout_with.
  rewrite (decide_False (P := typeof url = TyFunction)) by (by apply falsy_not_function).
  rewrite (decide_False (P := typeof (this_layout (this st)) = TyFunction)) by done.
  destruct (decide (typeof options = TyFunction)); rewrite !bind_run; cbn [gets fst snd];
    by rewrite js_or_falsy, js_or_same.
Qed.

Lemma getLayout_with_callback_only rt now cb a b st :
  typeof a ≠ TyFunction →
  getLayout_with rt now (VFun cb) a b st = getLayout_with rt now VNull VNull (VFun cb) st.
Proof.
  intros Ha. unfold getLayout_with. cbn [typeof].
  rewrite (decide_False (P := typeof a = TyFunction)) by done.
  rewrite (decide_True (P := TyFunction = TyFunction)) by done.
  by rewrite (decide_False (P := TyObject = TyFunction)) by done.
Qed.

(** X7: a first argument that is left out or falsy is replaced by the
    instance's own: [getLayout(callback)] and [getLayout(null, options,
    callback)] fetch [this.layout], [getPartials(callback)] and
    [getPartials(null, options, callback)] scan [this.partialsDir]. *)
Theorem first_argument_defaults_to_instance W now st :
  typeof (this_layout (this st)) ≠ TyFunction →
  typeof (this_partialsDir (this st)) ≠ TyFunction →
  (∀ url options callback, truthy url = false →
     Part000.getLayout W now url options callback st
     = Part000.getLayout W now (this_layout (this st)) options callback st
     ∧ IndexJs.getLayout W now url options callback st
       = IndexJs.getLayout W now (this_layout (this st)) options callback st)
  ∧ (∀ cb a b, typeof a ≠ TyFunction →
       Part000.getLayout W now (VFun cb) a b st
       = Part000.getLayout W now (this_layout (this st)) VNull (VFun cb) st
       ∧ IndexJs.getLayout W now (VFun cb) a b st
         = IndexJs.getLayout W now (this_layout (this st)) VNull (VFun cb) st)
  ∧ (∀ partialsDir options callback, truthy partialsDir = false →
       getPartials W now partialsDir options callback st
       = getPartials W now (this_partialsDir (this st)) options callback st)
  ∧ (∀ cb a b, typeof a ≠ TyFunction →
       getPartials W now (VFun cb) a b st
       = getPartials W now (this_partialsDir (this st)) VNull (VFun cb) st).
Proof.
  intros Hl Hp.
  assert (Hdir : ∀ partialsDir options callback, truthy partialsDir = false →
    getPartials W now partialsDir options callback st
    = getPartials W now (this_partialsDir (this st)) options callback st).
  { intros partialsDir options callback Hd. unfold getPartials.
    rewrite (decide_False (P := typeof partialsDir = TyFunction))
      by (by apply falsy_not_function).
    rewrite (decide_False (P := typeof (this_partialsDir (this st)) = TyFunction)) by done.
    destruct (decide (typeof options = TyFunction)); rewrite !bind_run; cbn [gets fst snd];
      by rewrite js_or_falsy, js_or_same. }
  split; [| split; [| split]].
  - intros url options callback Hu. split; by apply getLayout_with_default.
  - intros cb a b Ha. unfold Part000.getLayout, IndexJs.getLayout.
    rewrite !getLayout_with_callback_only by done.
    split; by apply getLayout_with_default.
  - exact Hdir.
  - intros cb a b Ha. rewrite <- (Hdir VNull VNull (VFun cb)) by done.
    unfold getPartials. cbn [typeof].
    rewrite (decide_False (P := typeof a = TyFunction)) by done.
    rewrite (decide_True (P := TyFunction = TyFunction)) by done.
    by rewrite (decide_False (P := TyObject = TyFunction)) by done.
Qed.

(** X8: without a URL and without an instance layout, [getLayout] throws
    before it does anything, whatever the options and the callback; so does
    [getPartials] without a directory and without an instance directory. *)
Theorem missing_source_throws W now first options callback st :
  truthy first = false →
  (truthy (this_layout (this st)) = false →
   let thrown := Threw (ErrorExn "RemoteHandlebars.getLayout expects url or this.layout") in
   Part000.getLayout W now first options callback st = (thrown, st, [])
   ∧ IndexJs.getLayout W now first options callback st = (thrown, st, []))
  ∧ (truthy (this_partialsDir (this st)) = false →
     getPartials W now first options callback st
     = (Threw (ErrorExn "RemoteHandlebars.getPartials expects partialsDir or this.partialsDir"),
        st, [])).
Proof.
  intros Hf. pose proof (falsy_not_function _ Hf) as Hnf. split.
  - intros Hl thrown.
    assert (H : ∀ rt, getLayout_with rt now first options callback st = (thrown, st, [])).
    { intros rt. unfold getLayout_with. rewrite (decide_False (P := typeof first = _)) by done.
      destruct (decide (typeof options = TyFunction)); rewrite bind_run; cbn [gets fst snd];
        unfold js_or; by rewrite Hf, Hl. }
    split; apply H.
  - intros Hp. unfold getPartials. rewrite (decide_False (P := typeof first = _)) by done.
    destruct (decide (typeof options = TyFunction)); rewrite bind_run; cbn [gets fst snd];
      unfold js_or; by rewrite Hf, Hp.
Qed.

(** X9: a call without a callback throws before any request, file access or
    change of state; [getLayout] and [getPartials] report a missing first
    argument before a missing callback. *)
Theorem missing_callback_throws W now options callback st :
  typeof options ≠ TyFunction → truthy callback = false →
  (∀ s,
     getView W now (VStr s) options callback st
     = (Threw (ErrorExn "RemoteHandlebars.getView expects callback"), st, []))
  ∧ (∀ partialsDir, typeof partialsDir ≠ TyFunction →
       getPartials W now partialsDir options callback st
       = (Threw (ErrorExn
                   (if truthy (js_or partialsDir (this_partialsDir (this st)))
                    then "RemoteHandlebars.getPartials expects callback"
                    else "RemoteHandlebars.getPartials expects partialsDir or this.partialsDir")),
          st, []))
  ∧ (∀ url, typeof url ≠ TyFunction →
       let thrown :=
         Threw (ErrorExn
                  (if truthy (js_or url (this_layout (this st)))
                   then "RemoteHandlebars.getLayout expects callback"
                   else "RemoteHandlebars.getLayout expects url or this.layout")) in
       Part000.getLayout W now url options callback st = (thrown, st, [])
       ∧ IndexJs.getLayout W now url options callback st = (thrown, st, [])).
Proof.
  intros Ho Hcb. split; [| split].
  - intros s. unfold getView. rewrite decide_False by done. cbn [path_resolve_value].
    destruct (String.eqb_spec (path_resolve (cwd W) [s]) "") as [E|_];
      [by apply path_resolve_nonempty in E |].
    by rewrite Hcb.
  - intros partialsDir Hp. unfold getPartials. rewrite !decide_False by done.
    rewrite bind_run. cbn [gets fst snd].
    destruct (truthy (js_or partialsDir (this_partialsDir (this st)))); [| done].
    by rewrite Hcb.
  - intros url Hu thrown.
    assert (H : ∀ rt, getLayout_with rt now url options callback st = (thrown, st, [])).
    { intros rt. unfold getLayout_with. rewrite !decide_False by done.
      rewrite bind_run. cbn [gets fst snd]. subst thrown.
      destruct (truthy (js_or url (this_layout (this st)))); [| done].
      by rewrite Hcb. }
    split; apply H.
Qed.

(** X10: [getView] hands its first argument to [path.resolve] before it
    checks anything: a [filePath] that is not a string makes it throw the
    [TypeError] of [path.resolve], whatever the options and the callback, and
    before any file access. *)
Theorem getView_rejects_non_strings W now filePath options callback st :
  typeof filePath ≠ TyString →
  ∃ message,
    getView W now filePath options callback st = (Threw (TypeErrorExn message), st, []).
Proof.
  intros Hf. unfold getView.
  destruct (decide (typeof options = TyFunction)); destruct filePath; try done; by eexists.
Qed.

(** ** Calls that are well formed *)

(** X11: a call with a string as first argument (not empty, for a URL or a
    directory) and a function as callback never throws: it ends by invoking
    that callback.  [getPartials] likewise for any list of directories. *)
Theorem well_formed_calls_call_back W now s options cb st :
  typeof options ≠ TyFunction →
  (∃ reply, (getView W now (VStr s) options (VFun cb) st).1.1 = Called (VFun cb) reply)
  ∧ (∀ dirs, ∃ reply,
       (getPartials W now (VArr dirs) options (VFun cb) st).1.1 = Called (VFun cb) reply)
  ∧ (s ≠ "" →
     (∃ reply, (getPartials W now (VStr s) options (VFun cb) st).1.1 = Called (VFun cb) reply)
     ∧ (∃ reply, (Part000.getLayout W now (VStr s) options (VFun cb) st).1.1
                 = Called (VFun cb) reply)
     ∧ (∃ reply, (IndexJs.getLayout W now (VStr s) options (VFun cb) st).1.1
                 = Called (VFun cb) reply)).
Proof.
  intros Ho.
  assert (Hpart : ∀ d paths, truthy d = true → typeof d ≠ TyFunction → paths_of d = Some paths →
    ∃ reply, (getPartials W now d options (VFun cb) st).1.1 = Called (VFun cb) reply).
  { intros d paths Hd Hf Hp. unfold getPartials. rewrite !decide_False by done.
    rewrite bind_run. cbn [gets fst snd]. unfold js_or. rewrite Hd, Hd. cbn [negb truthy].
    rewrite Hp. rewrite bind_run, cache_disabled_run. cbn [fst snd].
    destruct (bool_decide _); mrun; by eexists. }
  assert (Hlay : ∀ rt, s ≠ "" →
    ∃ reply, (getLayout_with rt now (VStr s) options (VFun cb) st).1.1 = Called (VFun cb) reply).
  { intros rt Hs. unfold getLayout_with. rewrite !decide_False by done.
    assert (Ht : truthy (VStr s) = true).
    { cbn. by destruct (String.eqb_spec s ""). }
    rewrite bind_run. cbn [gets fst snd]. unfold js_or. rewrite Ht. cbv iota. rewrite Ht.
    cbn [negb truthy].
    destruct (ensure_accept_header_string s st) as (l & st1 & Hrun & _ & _ & Hurl).
    rewrite (bind_eq _ _ _ _ _ _ Hrun). cbn [fst snd].
    rewrite bind_run, cache_disabled_run. cbn [fst snd].
    destruct (bool_decide _); mrun; [by eexists |].
    cbn [gets fst snd]. rewrite Hurl. mrun. by eexists. }
  split; [| split].
  - unfold getView. rewrite decide_False by done. cbn [path_resolve_value].
    destruct (String.eqb_spec (path_resolve (cwd W) [s]) "") as [E|_];
      [by apply path_resolve_nonempty in E |].
    cbn [negb truthy]. rewrite bind_run, cache_disabled_run. cbn [fst snd].
    destruct (bool_decide _); mrun; by eexists.
  - intros dirs. by apply (Hpart _ dirs).
  - intros Hs. split; [| split]; [| by apply Hlay | by apply Hlay].
    apply (Hpart _ [s]); [| done | done]. cbn. by destruct (String.eqb_spec s "").
Qed.

(** ** Layouts given as functions, and tasks that fail *)

#[local] Instance same_remote_preorder : PreOrder same_remote.
Proof. split; [done | intros s1 s2 s3; unfold same_remote; congruence]. Qed.

#[local] Instance same_local_preorder : PreOrder same_local.
Proof. split; [done | intros s1 s2 s3; unfold same_local; congruence]. Qed.

Lemma getPartials_same_remote W now partialsDir options callback st :
  same_remote st (getPartials W now partialsDir options callback st).1.2.
Proof.
  apply (respects_getPartials same_remote (λ _, True));
    [by intros c s | by intros s o | done | done | done].
Qed.

Lemma getView_no_request W now filePath options callback st :
  Forall no_request (getView W now filePath options callback st).2.
Proof.
  apply (respects_getView any_state no_request); [done | by intros ?? | by intros ??].
Qed.

Lemma getPartials_no_request W now partialsDir options callback st :
  Forall no_request (getPartials W now partialsDir options callback st).2.
Proof.
  apply (respects_getPartials any_state no_request);
    [done | done | by intros ?? | by intros ?? | by intros ??].
Qed.

(** X12: a layout given as a function (a template the caller compiled) is
    used as it is: no request is made and the remote store is not consulted;
    [render] calls it on the context that holds the view's output under the
    placeholder.  Both variants. *)
Theorem function_layout_used_directly W now filePath options callback st
    view lay pv key st1 st3 tv tp :
  layout_for st options = VFun lay →
  getView W now filePath (VObj options) (VFun (Done TView)) st
    = (Called (VFun (Done TView)) (Success (VFun view)), st1, tv) →
  (if truthy (partialsDir_for st options)
   then getPartials W now (partialsDir_for st options) (VObj options) (VFun (Done TPartials)) st1
        = (Called (VFun (Done TPartials)) (Success pv), st3, tp)
   else pv = VUndefined ∧ st3 = st1 ∧ tp = []) →
  to_string (placeholder_for st options) = Some key →
  let settings :=
    {| settings_helpers := helpers_for st options;
       settings_partials := pv;
       settings_data := get_prop (mem st3) (VObj options) "data" |} in
  let rendered := exec W view (mem st3) (VObj options) settings in
  let h := set_prop (mem st3) options key (VStr rendered) in
  let out :=
    (Called callback (Success (VStr (exec W lay h (VObj options) settings))),
     set_mem h st3, tv ++ tp) in
  Part000.render W now filePath options callback st = out
  ∧ IndexJs.render W now filePath options callback st = out
  ∧ Forall no_request (tv ++ tp)
  ∧ this_cache (this st3) = this_cache (this st).
Proof.
  intros HL Hv Hp Hk settings rendered h out.
  assert (Ht : truthy (layout_for st options) = true) by (by rewrite HL).
  split; [| split; [| split]].
  - subst out. replace (tv ++ tp) with (tv ++ [] ++ tp) by done.
    eapply render_000_with_layout; try done.
    unfold Part000.layoutTask. rewrite HL. cbn [typeof]. by rewrite decide_True.
  - subst out. replace (tv ++ tp) with (tv ++ [] ++ tp) by done.
    eapply (render_idx_with_layout _ _ _ _ _ _ view lay pv key st1 st1); try done.
    rewrite HL. cbn [typeof]. by rewrite decide_True.
  - apply Forall_app. split.
    + pose proof (getView_no_request W now filePath (VObj options) (VFun (Done TView)) st) as H.
      by rewrite Hv in H.
    + destruct (truthy (partialsDir_for st options)).
      * pose proof (getPartials_no_request W now (partialsDir_for st options) (VObj options)
                      (VFun (Done TPartials)) st1) as H.
        by rewrite Hp in H.
      * destruct Hp as (_ & _ & ->). constructor.
  - pose proof (getView_local_only W now filePath (VObj options) (VFun (Done TView)) st)
      as [_ H1].
    rewrite Hv in H1. cbn [fst snd] in H1. rewrite <- H1.
    destruct (truthy (partialsDir_for st options)).
    + pose proof (getPartials_same_remote W now (partialsDir_for st options) (VObj options)
                    (VFun (Done TPartials)) st1) as H2.
      by rewrite Hp in H2.
    + by destruct Hp as (_ & -> & _).
Qed.

(** X13: when the view cannot be loaded, [render] never calls back with
    rendered text: it calls back with an error, unless an exception of
    another task escapes first.  Both variants. *)
Theorem unreadable_view_fails_render W now filePath options callback st error :
  (getView W now filePath (VObj options) (VFun (Done TView)) st).1.1
    = Called (VFun (Done TView)) (Failure error) →
  ∀ r, r = Part000.render W now filePath options callback st
       ∨ r = IndexJs.render W now filePath options callback st →
    match r.1.1 with
    | Called cb reply => cb = callback ∧ ∃ e, reply = Failure e
    | _ => True
    end.
Proof.
  intros Hv.
  assert (Hpar : ∀ rest,
    match (parallel ((TView, getView W now filePath (VObj options) (VFun (Done TView))) :: rest)
             st).1.1 with
    | Aborted c => ∀ cb r, c ≠ Called cb r
    | Errored _ => True
    | Results _ => False
    end).
  { intros rest. unfold parallel. mrun. rewrite dispatch_cons, Hv. cbn [fst snd].
    match goal with |- context [dispatch ?ts ?s1] =>
      pose proof (dispatch_aborted ts s1) as Hab; destruct (dispatch ts s1).1.1 as [c|outs] end.
    - by apply Hab.
    - rewrite decide_True by done. done. }
  intros r [-> | ->].
  - unfold Part000.render. rewrite bind_run. cbn [gets fst snd id]. rewrite bind_run.
    cbn [fst snd]. unfold Part000.tasks. cbn [app].
    match goal with |- context [parallel (_ :: ?rest) st] => specialize (Hpar rest) end.
    destruct (parallel _ st).1.1 as [c|e|results]; [| by mrun; eauto | done].
    mrun. destruct c as [ex|cb r| |]; try done. by destruct (Hpar cb r).
  - unfold IndexJs.render. rewrite bind_run. cbn [gets fst snd id]. rewrite bind_run.
    cbn [fst snd]. unfold IndexJs.tasks. cbn [app].
    match goal with |- context [parallel (_ :: ?rest) st] => specialize (Hpar rest) end.
    destruct (parallel _ st).1.1 as [c|e|results]; [| by mrun; eauto | done].
    mrun. destruct c as [ex|cb r| |]; try done. by destruct (Hpar cb r).
Qed.

(** ** The request descriptor of a URL string *)

Lemma fresh_ne (h : heap) l : is_Some (h !! l) → fresh (dom h) ≠ l.
Proof. intros [o Ho] E. rewrite <- E in Ho. by rewrite fresh_unused in Ho. Qed.

Lemma lookup_set_prop_eq h l k v : set_prop h l k v !! l = Some (<[k := v]> (props h l)).
Proof. unfold set_prop. by rewrite lookup_insert_eq. Qed.

Lemma lookup_set_prop_ne h l l' k v : l ≠ l' → set_prop h l k v !! l' = h !! l'.
Proof. intros. unfold set_prop. by rewrite lookup_insert_ne. Qed.

Lemma ensure_accept_header_string_run s st :
  ∃ l lh st1,
    ensure_accept_header (VStr s) st = (inr l, st1, [])
    ∧ this st1 = this st
    ∧ mem st !! l = None ∧ mem st !! lh = None
    ∧ mem st1 !! l = Some {[ "url" := VStr s; "headers" := VObj lh ]}
    ∧ mem st1 !! lh = Some {[ "Accept" := VStr accept ]}
    ∧ ∀ l', l' ≠ l → l' ≠ lh → mem st1 !! l' = mem st !! l'.
Proof.
  cbn [ensure_accept_header]. rewrite (bind_eq _ _ _ _ _ _ (new_object_run _ _)).
  set (l := fresh (dom (mem st))).
  set (h1 := <[l := {["url" := VStr s]}]> (mem st)).
  set (lh := fresh (dom h1)).
  assert (Hne : lh ≠ l).
  { apply fresh_ne. unfold h1. rewrite lookup_insert_eq. by eexists. }
  assert (Hlh : mem st !! lh = None).
  { pose proof (fresh_unused h1) as H. fold lh in H. unfold h1 in H.
    by rewrite lookup_insert_ne in H. }
  exists l, lh.
  eexists (set_mem (set_prop (set_prop (<[lh := ∅]> h1) l "headers" (VObj lh))
                      lh "Accept" (VStr accept)) st).
  split; [| split; [done |]; split; [apply fresh_unused |]; split; [done |]].
  - unfold set_accept. cbn [fst snd app]. rewrite bind_run. cbn [gets fst snd mem set_mem].
    fold h1.
    assert (Hh : get_prop h1 (VObj l) "headers" = VUndefined).
    { cbn. unfold props, h1. by rewrite lookup_insert_eq. }
    rewrite Hh. cbn [truthy]. mrun. unfold new_object, alloc, assign, modify.
    cbn [fst snd mem set_mem gets]. fold lh.
    assert (Hh' : get_prop (set_prop (<[lh := ∅]> h1) l "headers" (VObj lh)) (VObj l) "headers"
                  = VObj lh).
    { cbn. by rewrite props_set_prop_eq, lookup_insert_eq. }
    rewrite Hh'. mrun. by cbn [fst snd mem set_mem app].
  - cbn [mem set_mem]. split; [| split].
    + rewrite lookup_set_prop_ne, lookup_set_prop_eq by done. f_equal.
      unfold props. rewrite lookup_insert_ne by done. unfold h1.
      rewrite lookup_insert_eq. cbn [default]. by apply insert_insert_ne.
    + rewrite lookup_set_prop_eq. f_equal. rewrite props_set_prop_ne by done.
      unfold props. by rewrite lookup_insert_eq.
    + intros l' H1 H2. rewrite !lookup_set_prop_ne by done.
      rewrite lookup_insert_ne by done. unfold h1. by rewrite lookup_insert_ne.
Qed.

Lemma requestTemplate_000_request_for W u :
  respects same_mem (request_for u) (Part000.requestTemplate W u).
Proof.
  apply respects_requestTemplate_000; [apply _ | by left | intros src; right; by eexists].
Qed.

Lemma requestTemplate_idx_request_for W u :
  respects same_mem (request_for u) (IndexJs.requestTemplate W u).
Proof.
  apply respects_requestTemplate_idx; [apply _ | by left | intros src; right; by eexists].
Qed.

Lemma getLayout_with_string rt now s options callback st :
  s ≠ "" → typeof options ≠ TyFunction → truthy callback = true →
  (∀ u, respects same_mem (request_for u) (rt u)) →
  let r := getLayout_with rt now (VStr s) options callback st in
  ∃ l lh,
    mem st !! l = None ∧ mem st !! lh = None
    ∧ mem r.1.2 !! l = Some {[ "url" := VStr s; "headers" := VObj lh ]}
    ∧ mem r.1.2 !! lh = Some {[ "Accept" := VStr accept ]}
    ∧ (∀ l', l' ≠ l → l' ≠ lh → mem r.1.2 !! l' = mem st !! l')
    ∧ Forall (request_for (VObj l)) r.2.
Proof.
  intros Hs Ho Hcb Hrt r. subst r. unfold getLayout_with.
  rewrite decide_False by done. rewrite decide_False by done.
  assert (Ht : truthy (VStr s) = true).
  { cbn. by destruct (String.eqb_spec s ""). }
  rewrite bind_run. cbn [gets fst snd app]. unfold js_or. rewrite Ht. cbv iota.
  rewrite Ht, Hcb. cbn [negb].
  destruct (ensure_accept_header_string_run s st)
    as (l & lh & st1 & Hrun & Hthis & Hl & Hlh & Hl1 & Hlh1 & Hrest).
  rewrite (bind_eq _ _ _ _ _ _ Hrun). cbn [fst snd app].
  match goal with |- context [(?m st1)] =>
    assert (Hm : respects same_mem (request_for (VObj l)) m) end.
  { pose proof (respects_cache_disabled same_mem (request_for (VObj l))) as H1.
    pose proof (respects_readThrough same_mem (request_for (VObj l))) as H2.
    frame_step; [apply H1 |]. frame_step; frame; auto.
    apply H2; [by intros c s' | apply Hrt]. }
  destruct (Hm st1) as [Hmem Htr]. unfold same_mem in Hmem.
  exists l, lh. rewrite Hmem. done.
Qed.

(** X14: for a URL given as a string, [getLayout] builds the request
    descriptor itself: a new object [{url: url, headers: {Accept:
    'text/x-handlebars-template'}}].  No object that existed before the call
    is changed, and every request of the call is made with that descriptor.
    Both variants, with or without caching. *)
Theorem getLayout_builds_descriptor W now s options callback st :
  s ≠ "" → typeof options ≠ TyFunction → truthy callback = true →
  ∀ r, r = Part000.getLayout W now (VStr s) options callback st
       ∨ r = IndexJs.getLayout W now (VStr s) options callback st →
    ∃ l lh,
      mem st !! l = None ∧ mem st !! lh = None
      ∧ mem r.1.2 !! l = Some {[ "url" := VStr s; "headers" := VObj lh ]}
      ∧ mem r.1.2 !! lh = Some {[ "Accept" := VStr accept ]}
      ∧ (∀ l', l' ≠ l → l' ≠ lh → mem r.1.2 !! l' = mem st !! l')
      ∧ Forall (request_for (VObj l)) r.2.
Proof.
  intros Hs Ho Hcb r [-> | ->]; apply getLayout_with_string; try done.
  - apply requestTemplate_000_request_for.
  - apply requestTemplate_idx_request_for.
Qed.

(** ** The two stores *)

(** X15: the two stores are separate.  [getView] makes no request, scans no
    directory and changes neither an object nor the remote store;
    [getPartials] makes no request and changes neither an existing object
    nor the remote store; [getLayout] (both variants) touches no file and
    leaves the store of local resources alone. *)
Theorem stores_are_separate W now first options callback st :
  (local_only st (getView W now first options callback st).1.2
   ∧ Forall file_event (getView W now first options callback st).2)
  ∧ (same_remote st (getPartials W now first options callback st).1.2
     ∧ heap_grows st (getPartials W now first options callback st).1.2
     ∧ Forall no_request (getPartials W now first options callback st).2)
  ∧ (same_local st (Part000.getLayout W now first options callback st).1.2
     ∧ Forall remote_event (Part000.getLayout W now first options callback st).2)
  ∧ (same_local st (IndexJs.getLayout W now first options callback st).1.2
     ∧ Forall remote_event (IndexJs.getLayout W now first options callback st).2).
Proof.
  split; [| split; [| split]].
  - split; [apply getView_local_only |].
    apply (respects_getView any_state file_event); by try apply _.
  - split; [| split].
    + apply (respects_getPartials same_remote (λ _, True));
        [by intros c s | by intros s o | done | done | done].
    + apply (respects_getPartials heap_grows (λ _, True));
        [intros c s; apply heap_grows_set_cache | intros s o; apply heap_grows_alloc
         | done | done | done].
    + apply (respects_getPartials any_state no_request);
        [done | done | by intros ?? | by intros ?? | by intros ??].
  - apply (respects_getLayout_with same_local remote_event);
      [by intros s o | by intros s l k v _ | by intros c s |].
    intros u. apply respects_requestTemplate_000; by try apply _.
  - apply (respects_getLayout_with same_local remote_event);
      [by intros s o | by intros s l k v _ | by intros c s |].
    intros u. apply respects_requestTemplate_idx; by try apply _.
Qed.

(** ** Transport errors *)

Lemma getLayout_with_load_error rt now s options callback st error :
  s ≠ "" → typeof options ≠ TyFunction → truthy callback = true →
  (∀ l st1, get_prop (mem st1) (VObj l) "url" = VStr s →
            rt (VObj l) st1 = (LoadError error, st1, [EvRequest (VObj l)])) →
  get_prop (mem st) options "cache" = VBool false
  ∨ find_entry s (entries (this_cache (this st))) = None →
  let r := getLayout_with rt now (VStr s) options callback st in
  r.1.1 = Called callback (Failure error)
  ∧ this r.1.2 = this st
  ∧ ∃ l, r.2 = [EvRequest (VObj l)].
Proof.
  intros Hs Ho Hcb Hrt Hmiss r. subst r. unfold getLayout_with.
  rewrite decide_False by done. rewrite decide_False by done.
  assert (Ht : truthy (VStr s) = true).
  { cbn. by destruct (String.eqb_spec s ""). }
  rewrite bind_run. cbn [gets fst snd app]. unfold js_or. rewrite Ht. cbv iota.
  rewrite Ht, Hcb. cbn [negb].
  destruct (ensure_accept_header_string s st) as (l & st1 & Hrun & Hthis & HF & Hurl).
  rewrite (bind_eq _ _ _ _ _ _ Hrun). cbn [fst snd app].
  pose proof (Hrt l st1 Hurl) as Hload.
  rewrite bind_run, cache_disabled_run. cbn [fst snd app].
  destruct (bool_decide (get_prop (mem st1) options "cache" = VBool false)) eqn:Hoff.
  - rewrite (bind_eq _ _ _ _ _ _ Hload). cbn [fst snd reply_of]. mrun.
    split; [done |]. split; [done | by exists l].
  - destruct Hmiss as [Hc | Hmiss].
    { apply bool_decide_eq_false in Hoff. destruct Hoff.
      by apply (header_frame_cache_flag st). }
    rewrite bind_run. cbn [gets fst snd app]. rewrite Hurl.
    rewrite bind_run, readThrough_miss by (cbn [cache_of]; by rewrite Hthis).
    rewrite Hload. cbn [fst snd]. mrun. split; [done |]. split; [done | by exists l].
Qed.

(** X16: when the transport fails, [getLayout] hands the transport's error
    to the callback after that one request: nothing is compiled and the
    instance, stores included, stays as it was.  Both variants, for a call
    that bypasses the store or finds nothing under the URL. *)
Theorem getLayout_passes_on_transport_error W now s options callback st error :
  s ≠ "" → typeof options ≠ TyFunction → truthy callback = true →
  (∀ h d, get_prop h d "url" = VStr s → request W h d = inl error) →
  get_prop (mem st) options "cache" = VBool false
  ∨ find_entry s (entries (this_cache (this st))) = None →
  ∀ r, r = Part000.getLayout W now (VStr s) options callback st
       ∨ r = IndexJs.getLayout W now (VStr s) options callback st →
    r.1.1 = Called callback (Failure error)
    ∧ this r.1.2 = this st
    ∧ ∃ l, r.2 = [EvRequest (VObj l)].
Proof.
  intros Hs Ho Hcb Hreq Hmiss r [-> | ->]; apply getLayout_with_load_error; try done.
  - intros l st1 Hurl. by rewrite requestTemplate_000_run, (Hreq _ _ Hurl).
  - intros l st1 Hurl. by rewrite requestTemplate_idx_run, (Hreq _ _ Hurl).
Qed.

(** ** Rendering with [cache: false] *)

#[local] Instance uncached_frame_preorder options : PreOrder (uncached_frame options).
Proof.
  split; [by intros s Hs |].
  intros s1 s2 s3 H12 H23 Hs. destruct (H12 Hs) as [E1 Hs2]. destruct (H23 Hs2) as [E2 Hs3].
  split; [congruence | done].
Qed.

Lemma getView_uncached_frame W now filePath options callback :
  respects (uncached_frame options) (λ _, True) (getView W now filePath options callback).
Proof.
  intros st. split; [| by apply Forall_true]. intros Hc.
  destruct (getView_uncached W now filePath options callback st Hc) as [-> _]. done.
Qed.

Lemma getPartials_uncached_frame W now partialsDir options callback :
  typeof partialsDir ≠ TyFunction →
  respects (uncached_frame options) (λ _, True) (getPartials W now partialsDir options callback).
Proof.
  intros Hp st. split; [| by apply Forall_true]. intros Hc.
  destruct (getPartials_uncached W now partialsDir options callback st Hp Hc) as (HT & HG & _).
  split; [done | by apply (heap_grows_cache_flag st)].
Qed.

Lemma getLayout_with_uncached_frame rt now url options callback :
  (∀ u s, (rt u s).1.2 = s) → typeof url ≠ TyFunction →
  respects (uncached_frame options) (λ _, True) (getLayout_with rt now url options callback).
Proof.
  intros Hrt Hu st. split; [| by apply Forall_true]. intros Hc.
  destruct (getLayout_with_uncached rt now url options callback st Hrt Hu Hc) as (HT & HF & _).
  split; [done | by apply (header_frame_cache_flag st)].
Qed.

(** What [render] does once [async.parallel] has joined only writes to the
    context. *)
Lemma render_tail_same_this W callback options placeholder helpers layout (j : joined) :
  respects same_this (λ _, True)
    (match j with
     | Aborted c => mret c
     | Errored error => mret (Called callback (Failure error))
     | Results results =>
         h ← gets mem;
         let settings := settings_for helpers results h options in
         rendered ← call W (result_of TView results) (VObj options) settings;
         match rendered with
         | inl e => mret (Threw e)
         | inr rendered =>
             if truthy (layout results) then
               match to_string placeholder with
               | None => mret Unmodelled
               | Some key =>
                   assign options key (VStr rendered);;
                   rendered ← call W (layout results) (VObj options) settings;
                   match rendered with
                   | inl e => mret (Threw e)
                   | inr rendered => mret (Called callback (Success (VStr rendered)))
                   end
               end
             else mret (Called callback (Success (VStr rendered)))
         end
     end).
Proof. unfold call. frame. Qed.

(** X17: a render whose context says [cache: false] leaves the instance as
    it was, both stores included: the option reaches the view, the layout
    and the partials alike.  Both variants. *)
Theorem render_uncached_keeps_stores W now filePath options callback st :
  get_prop (mem st) (VObj options) "cache" = VBool false →
  typeof (partialsDir_for st options) ≠ TyFunction →
  this (Part000.render W now filePath options callback st).1.2 = this st
  ∧ this (IndexJs.render W now filePath options callback st).1.2 = this st.
Proof.
  intros Hc Hp.
  assert (Hview : respects (uncached_frame (VObj options)) (λ _, True)
                    (getView W now filePath (VObj options) (VFun (Done TView))))
    by apply getView_uncached_frame.
  assert (Hpart : respects (uncached_frame (VObj options)) (λ _, True)
                    (getPartials W now (partialsDir_for st options) (VObj options)
                       (VFun (Done TPartials))))
    by (by apply getPartials_uncached_frame).
  split.
  - unfold Part000.render. rewrite bind_run. cbn [gets fst snd id]. rewrite bind_run.
    cbn [fst snd].
    assert (Hpar : respects (uncached_frame (VObj options)) (λ _, True)
                     (parallel (Part000.tasks W now filePath options st))).
    { apply respects_parallel; [apply _ |]. unfold Part000.tasks.
      constructor; [exact Hview |]. apply Forall_app. split.
      - destruct (truthy (layout_for st options)); constructor; [| constructor]. cbn [snd].
        unfold Part000.layoutTask. destruct (decide _); [frame |].
        apply getLayout_with_uncached_frame; [apply requestTemplate_000_state | done].
      - destruct (truthy (partialsDir_for st options)); constructor; [| constructor].
        exact Hpart. }
    destruct (Hpar st) as [HR _]. destruct (HR Hc) as [<- _].
    apply (render_tail_same_this W callback options (placeholder_for st options)
             (helpers_for st options) (result_of TLayout)).
  - unfold IndexJs.render. rewrite bind_run. cbn [gets fst snd id]. rewrite bind_run.
    cbn [fst snd].
    assert (Hpar : respects (uncached_frame (VObj options)) (λ _, True)
                     (parallel (IndexJs.tasks W now filePath options st))).
    { apply respects_parallel; [apply _ |]. unfold IndexJs.tasks.
      constructor; [exact Hview |]. apply Forall_app. split.
      - destruct (truthy (layout_for st options) && _) eqn:E; constructor; [| constructor].
        cbn [snd]. apply andb_true_iff in E as [_ E]. apply negb_true_iff in E.
        apply bool_decide_eq_false in E.
        apply getLayout_with_uncached_frame; [apply requestTemplate_idx_state | done].
      - destruct (truthy (partialsDir_for st options)); constructor; [| constructor].
        exact Hpart. }
    destruct (Hpar st) as [HR _]. destruct (HR Hc) as [<- _].
    apply (render_tail_same_this W callback options (placeholder_for st options)
             (helpers_for st options)
             (λ results, if decide (typeof (layout_for st options) = TyFunction)
                         then layout_for st options else result_of TLayout results)).
Qed.

(** ** Instances as the constructors build them *)

(** X18: an instance keeps the partials directory its constructor gave it,
    ['views/partials/'] when the options name none; so [getPartials] on it
    never throws for want of a directory, whatever it is called with. *)
Theorem constructed_instance_has_partialsDir o t W now partialsDir options callback st :
  t = Part000.create o ∨ IndexJs.create o = Some t →
  this_partialsDir (this st) = this_partialsDir t →
  this_partialsDir t = js_or (option_of o "partialsDir") (VStr "views/partials/")
  ∧ (getPartials W now partialsDir options callback st).1.1
    ≠ Threw (ErrorExn "RemoteHandlebars.getPartials expects partialsDir or this.partialsDir").
Proof.
  intros Ht Hst. pose proof (created_partialsDir o t Ht) as Htr. split.
  - destruct Ht as [-> | H]; [done |].
    unfold IndexJs.create in H. destruct (truthy (option_of o "cache")); [done |].
    by injection H as <-.
  - rewrite <- Hst in Htr. unfold getPartials.
    assert (H : ∀ d, truthy (js_or d (this_partialsDir (this st))) = true)
      by (intros d; by apply js_or_truthy).
    destruct (decide (typeof options = TyFunction));
      [| destruct (decide (typeof partialsDir = TyFunction))];
      rewrite bind_run; cbn [gets fst snd]; rewrite H; cbn [negb];
      match goal with |- context [truthy ?c] => destruct (truthy c) end; cbn [negb]; try done;
      match goal with |- context [paths_of ?d] => destruct (paths_of d) end; try done;
      rewrite bind_run, cache_disabled_run; cbn [fst snd];
      destruct (bool_decide _); by mrun.
Qed.

(** ** The two variants side by side *)

Lemma bind_ext {A B} (m1 m2 : M A) (f1 f2 : A → M B) st :
  m1 st = m2 st → (∀ a s, f1 a s = f2 a s) → (m1 ≫= f1) st = (m2 ≫= f2) st.
Proof. intros Hm Hf. rewrite !bind_run, Hm. by rewrite !Hf. Qed.

Lemma readThrough_ext w now key (loader1 loader2 : M loaded) st :
  (∀ s, loader1 s = loader2 s) →
  readThrough w now key loader1 st = readThrough w now key loader2 st.
Proof.
  intros Hl. unfold readThrough. apply bind_ext; [done |]. intros c s.
  assert (Hmiss : ∀ s',
    (r ← loader1;
     match r with
     | LoadError e => mret (Failure e)
     | Loaded v cacheControl =>
         modify (λ st, set_cache w (store now key v cacheControl (cache_of w st)) st);;
         mret (Success v)
     end) s'
    = (r ← loader2;
       match r with
       | LoadError e => mret (Failure e)
       | Loaded v cacheControl =>
           modify (λ st, set_cache w (store now key v cacheControl (cache_of w st)) st);;
           mret (Success v)
       end) s').
  { intros s'. by apply bind_ext. }
  destruct (find_entry key (entries c)) as [e|]; [| apply Hmiss].
  destruct (freshness_at now e); [done | | apply Hmiss].
  apply bind_ext; [done |]. intros [] s'. by apply bind_ext.
Qed.

Lemma getLayout_with_ext (rt1 rt2 : value → M loaded) now url options callback st :
  (∀ u s, rt1 u s = rt2 u s) →
  getLayout_with rt1 now url options callback st = getLayout_with rt2 now url options callback st.
Proof.
  intros Hrt. unfold getLayout_with.
  destruct (if decide (typeof options = TyFunction) then _ else _) as [[url' options'] callback'].
  apply bind_ext; [done |]. intros self s.
  destruct (negb (truthy (js_or url' (this_layout self)))); [done |].
  destruct (negb (truthy callback')); [done |].
  apply bind_ext; [done |]. intros [c|l] s1; [done |].
  apply bind_ext; [done |]. intros [|] s2.
  - by apply bind_ext.
  - apply bind_ext; [done |]. intros h s3.
    destruct (get_prop h (VObj l) "url"); try done.
    apply bind_ext; [| done]. by apply readThrough_ext.
Qed.

Lemma requestTemplate_agree W u st :
  plain_transport W → Part000.requestTemplate W u st = IndexJs.requestTemplate W u st.
Proof.
  intros HW. rewrite requestTemplate_000_run, requestTemplate_idx_run.
  destruct (request W (mem st) u) as [e|resp] eqn:Hr; [done |].
  destruct (HW _ _ _ Hr) as [Hs ->].
  destruct (Z.leb_spec 400 (statusCode resp)); [lia | done].
Qed.

Lemma dispatch_ext (ts1 ts2 : list (task * M completion)) st :
  Forall2 (λ a b, a.1 = b.1 ∧ ∀ s, a.2 s = b.2 s) ts1 ts2 →
  dispatch ts1 st = dispatch ts2 st.
Proof.
  intros H. revert st. induction H as [|[t1 r1] [t2 r2] ts1 ts2 [Ht Hr] _ IH]; intros st; [done |].
  cbn [fst snd] in Ht, Hr. subst t2. rewrite !dispatch_cons, <- Hr.
  destruct (r1 st).1.1; try done. cbn [fst snd]. by rewrite IH.
Qed.

Lemma parallel_ext (ts1 ts2 : list (task * M completion)) st :
  Forall2 (λ a b, a.1 = b.1 ∧ ∀ s, a.2 s = b.2 s) ts1 ts2 →
  parallel ts1 st = parallel ts2 st.
Proof. intros H. unfold parallel. apply bind_ext; [by apply dispatch_ext | done]. Qed.

(** A task that completes at once with [lay] adds its result and changes
    nothing else. *)
Lemma parallel_function_layout (view : M completion) P st lay :
  let L : M completion := mret (Called (VFun (Done TLayout)) (Success lay)) in
  ∃ j0 j1 st' tr,
    parallel ((TView, view) :: (TLayout, L) :: P) st = (j0, st', tr)
    ∧ parallel ((TView, view) :: P) st = (j1, st', tr)
    ∧ match j1 with
      | Results [] => False
      | Results ((t, v) :: res) => t = TView ∧ j0 = Results ((t, v) :: (TLayout, lay) :: res)
      | _ => j0 = j1
      end.
Proof.
  intros L.
  destruct (view st) as [[c s1] tv] eqn:Hv.
  assert (HL : dispatch ((TLayout, L) :: P) s1
               = (match (dispatch P s1).1.1 with
                  | inl c' => inl c'
                  | inr outs => inr ((TLayout, Some (Success lay)) :: outs)
                  end, (dispatch P s1).1.2, (dispatch P s1).2)).
  { rewrite dispatch_cons. subst L. rewrite ret_run. cbn [fst snd app].
    by rewrite decide_True. }
  destruct (dispatch P s1) as [[d s2] tp] eqn:HP. cbn [fst snd] in HL.
  destruct c as [ex|cb r| |].
  1,3,4: eexists _, _, s1, tv; split; [| split];
    [ erewrite parallel_run; [done | by rewrite dispatch_cons, Hv]
    | erewrite parallel_run; [done | by rewrite dispatch_cons, Hv]
    | done ].
  eexists _, _, s2, (tv ++ tp). split; [| split].
  - erewrite parallel_run; [done |]. rewrite dispatch_cons, Hv. cbn [fst snd]. by rewrite HL.
  - erewrite parallel_run; [done |]. rewrite dispatch_cons, Hv. cbn [fst snd]. by rewrite HP.
  - destruct d as [c'|outs]; cbn [fst snd]; [done |].
    destruct (decide (cb = VFun (Done TView))); [destruct r as [err|v] |];
      cbn [first_error gather]; try done.
    all: destruct (first_error outs); try done.
    cbn [fmap option_fmap option_map]. destruct (gather outs); cbn; done.
Qed.

(** X19: on a transport whose responses all have a status below 400 and no
    [cache-control] header, [getLayout] and [render] of [part_000] and of
    [index.js] run alike from the same instance: same completion, same final
    state, same requests and file accesses.  (What the variants make of the
    status and of that header is where they part.) *)
Theorem variants_agree_on_plain_transport W now st :
  plain_transport W →
  (∀ url options callback,
     Part000.getLayout W now url options callback st
     = IndexJs.getLayout W now url options callback st)
  ∧ (∀ filePath options callback,
       Part000.render W now filePath options callback st
       = IndexJs.render W now filePath options callback st).
Proof.
  intros HW.
  assert (Hlay : ∀ url options callback s,
    Part000.getLayout W now url options callback s
    = IndexJs.getLayout W now url options callback s).
  { intros. apply getLayout_with_ext. intros. by apply requestTemplate_agree. }
  split; [intros; apply Hlay |].
  intros filePath options callback.
  unfold Part000.render, IndexJs.render. rewrite !bind_run. cbn [gets fst snd id app].
  destruct (decide (typeof (layout_for st options) = TyFunction)) as [Hf|Hf].
  - (* a function: [part_000] has a layout task, [index.js] sets the result later *)
    destruct (layout_for st options) as [| | | | |lay| |] eqn:HL; try discriminate Hf.
    unfold Part000.tasks, IndexJs.tasks, Part000.layoutTask. rewrite HL. cbn [truthy typeof andb].
    rewrite decide_True by done. rewrite bool_decide_eq_true_2 by done. cbn [negb app].
    destruct (parallel_function_layout
                (getView W now filePath (VObj options) (VFun (Done TView)))
                (if truthy (partialsDir_for st options)
                 then [(TPartials, getPartials W now (partialsDir_for st options) (VObj options)
                                     (VFun (Done TPartials)))]
                 else []) st (VFun lay)) as (j0 & j1 & st' & tr & H0 & H1 & Hj).
    cbv zeta in H0. rewrite H0, H1. cbn [fst snd].
    destruct j1 as [c|e|[|[t v] res]]; try (by subst j0); [done |].
    destruct Hj as [-> ->]. unfold settings_for. cbn [result_of].
    rewrite (decide_True (P := TView = TView)) by done.
    rewrite (decide_True (P := TLayout = TLayout)) by done.
    rewrite !(decide_False (P := TView = TLayout)) by done.
    rewrite !(decide_False (P := TView = TPartials)) by done.
    rewrite !(decide_False (P := TLayout = TPartials)) by done.
    done.
  - (* not a function: the same tasks, up to the variant's [getLayout] *)
    assert (Hpar : parallel (Part000.tasks W now filePath options st) st
                   = parallel (IndexJs.tasks W now filePath options st) st).
    { apply parallel_ext. unfold Part000.tasks, IndexJs.tasks, Part000.layoutTask.
      rewrite decide_False by done. rewrite bool_decide_eq_false_2 by done.
      rewrite andb_true_r. constructor; [done |]. apply Forall2_app.
      - destruct (truthy (layout_for st options)); repeat constructor. intros s. apply Hlay.
      - destruct (truthy (partialsDir_for st options)); by repeat constructor. }
    rewrite Hpar. done.
Qed.

(** ** Views in the store of local resources *)

Lemma getView_cached W now s options callback st :
  forever_ok (this_cacheForever (this st)) →
  typeof options ≠ TyFunction →
  get_prop (mem st) options "cache" ≠ VBool false →
  truthy callback = true →
  let r := getView W now (VStr s) options callback st in
  let key := path_resolve (cwd W) [s] in
  mem r.1.2 = mem st
  ∧ forever_ok (this_cacheForever (this r.1.2))
  ∧ (∀ v, r.1.1 = Called callback (Success v) →
          ∃ e, find_entry key (entries (this_cacheForever (this r.1.2))) = Some e
               ∧ value_of e = v)
  ∧ (∀ e, find_entry key (entries (this_cacheForever (this st))) = Some e →
          r.1.1 = Called callback (Success (value_of e)) ∧ r.2 = [])
  ∧ (find_entry key (entries (this_cacheForever (this st))) = None →
     ∀ error, r.1.1 = Called callback (Failure error) → r.1.2 = st).
Proof.
  intros Hok Ho Hc Hcb r key.
  assert (Hr : r = (readThrough Local now key (readTemplate W key)
                    ≫= λ reply, mret (Called callback reply)) st).
  { subst r. unfold getView. rewrite decide_False by done. cbn [path_resolve_value].
    fold key. destruct (String.eqb_spec key "") as [E|_];
      [by apply path_resolve_nonempty in E |].
    rewrite Hcb. cbn [negb].
    rewrite bind_run, cache_disabled_run. cbn [fst snd app].
    rewrite bool_decide_eq_false_2 by done. by rewrite bind_run. }
  rewrite Hr. clear Hr r. rewrite bind_run. cbn [fst snd].
  destruct (find_entry key (entries (this_cacheForever (this st)))) as [e|] eqn:Hf.
  - rewrite (readThrough_hit Local now key _ st e Hf (forever_ok_fresh now key _ e Hok Hf)).
    cbn [fst snd mret M_ret set_cache this this_cacheForever cache_of app mem].
    split; [done |]. split; [by apply touch_forever_ok |].
    split; [| split; [by intros e' [= <-] | done]].
    intros v [= <-]. exists e. by rewrite touch_find.
  - rewrite (readThrough_miss Local now key _ st Hf). rewrite readTemplate_run.
    destruct (readFile W key) as [err|content]; cbn [fst snd mret M_ret].
    + split; [done |]. split; [done |]. split; [done |]. split; [done |]. by intros _ error _.
    + cbn [set_cache this this_cacheForever cache_of mem].
      destruct (store_forever now key (VFun (Compiled content)) (this_cacheForever (this st))
                  key Hok) as [Hok' Hfind].
      split; [done |]. split; [done |]. split; [| split; [done | by intros _ error [=]]].
      intros v' [= <-]. rewrite Hfind, String.eqb_refl. by eexists.
Qed.

(** X20: with caching enabled, [getView] reads a file once.  After a call
    that delivered a template, every later call for the same path delivers
    that template without touching the file system, at any later time and
    whatever the file has become; a call whose read failed stores nothing.
    (The store of local resources is the read-through store without expiry
    of the specification's section 4.2.) *)
Theorem getView_reads_a_file_once W W' now now' s options options' callback callback' st :
  forever_ok (this_cacheForever (this st)) →
  typeof options ≠ TyFunction → get_prop (mem st) options "cache" ≠ VBool false →
  truthy callback = true →
  typeof options' ≠ TyFunction → get_prop (mem st) options' "cache" ≠ VBool false →
  truthy callback' = true →
  cwd W' = cwd W →
  let r1 := getView W now (VStr s) options callback st in
  let r2 := getView W' now' (VStr s) options' callback' r1.1.2 in
  (∀ view, r1.1.1 = Called callback (Success view) →
           r2.1.1 = Called callback' (Success view) ∧ r2.2 = [])
  ∧ (find_entry (path_resolve (cwd W) [s]) (entries (this_cacheForever (this st))) = None →
     ∀ error, r1.1.1 = Called callback (Failure error) → r1.1.2 = st).
Proof.
  intros Hok Ho Hc Hcb Ho' Hc' Hcb' Hcwd r1 r2.
  destruct (getView_cached W now s options callback st Hok Ho Hc Hcb)
    as (Hmem & Hok1 & Hval & _ & Hfail).
  fold r1 in Hmem, Hok1, Hval, Hfail. split; [| exact Hfail].
  intros view Hv. destruct (Hval view Hv) as (e & He & <-).
  rewrite <- Hmem in Hc'.
  destruct (getView_cached W' now' s options' callback' r1.1.2 Hok1 Ho' Hc' Hcb')
    as (_ & _ & _ & Hhit & _).
  apply Hhit. by rewrite Hcwd.
Qed.

(** ** What [render] writes *)

#[local] Instance placeholder_frame_preorder options key :
  PreOrder (placeholder_frame options key).
Proof.
  split; [by intros s |].
  intros s1 s2 s3 [H1 H2] [H3 H4]. split.
  - intros l Hl. by rewrite H3, H1.
  - intros k Hk. by rewrite H4, H2.
Qed.

Lemma render_tail_placeholder W callback options placeholder helpers layout (j : joined) :
  respects (placeholder_frame options (to_string placeholder)) (λ _, True)
    (match j with
     | Aborted c => mret c
     | Errored error => mret (Called callback (Failure error))
     | Results results =>
         h ← gets mem;
         let settings := settings_for helpers results h options in
         rendered ← call W (result_of TView results) (VObj options) settings;
         match rendered with
         | inl e => mret (Threw e)
         | inr rendered =>
             if truthy (layout results) then
               match to_string placeholder with
               | None => mret Unmodelled
               | Some key =>
                   assign options key (VStr rendered);;
                   rendered ← call W (layout results) (VObj options) settings;
                   match rendered with
                   | inl e => mret (Threw e)
                   | inr rendered => mret (Called callback (Success (VStr rendered)))
                   end
               end
             else mret (Called callback (Success (VStr rendered)))
         end
     end).
Proof.
  unfold call. frame. split; cbn [mem set_mem].
  - intros l Hl. by rewrite lookup_set_prop_ne.
  - intros k Hk. rewrite props_set_prop_eq, lookup_insert_ne; [done | congruence].
Qed.

(** A layout that is neither an object nor a function is fetched without a
    write to any object that exists. *)
Lemma getLayout_with_heap_grows rt now url options callback :
  (∀ u, respects same_mem (request_for u) (rt u)) →
  truthy url = true → typeof url ≠ TyObject → typeof url ≠ TyFunction →
  typeof options ≠ TyFunction → truthy callback = true →
  respects heap_grows (λ _, True) (getLayout_with rt now url options callback).
Proof.
  intros Hrt Ht Hobj Hfun Ho Hcb st. split; [| by apply Forall_true].
  destruct url as [| |b|n|s| | |]; try done.
  - unfold getLayout_with. rewrite !decide_False by done.
    rewrite bind_run. cbn [gets fst snd]. unfold js_or. rewrite Ht. cbv iota. rewrite Ht, Hcb.
    cbn [negb]. by mrun.
  - unfold getLayout_with. rewrite !decide_False by done.
    rewrite bind_run. cbn [gets fst snd]. unfold js_or. rewrite Ht. cbv iota. rewrite Ht, Hcb.
    cbn [negb]. by mrun.
  - assert (Hs : s ≠ "") by (by intros ->).
    destruct (getLayout_with_string rt now s options callback st Hs Ho Hcb Hrt)
      as (l & lh & Hl & Hlh & _ & _ & Hrest & _).
    intros l' o Ho'. rewrite Hrest; [done | |]; intros ->; congruence.
Qed.

Lemma tasks_heap_grows_000 W now filePath options st :
  typeof (layout_for st options) ≠ TyObject →
  respects heap_grows (λ _, True) (parallel (Part000.tasks W now filePath options st)).
Proof.
  intros Hobj. apply respects_parallel; [apply _ |]. unfold Part000.tasks.
  constructor; [| apply Forall_app; split].
  - apply respects_getView; [apply _ | intros c s; apply heap_grows_set_cache | done | done].
  - destruct (truthy (layout_for st options)) eqn:Ht; constructor; [| constructor]. cbn [snd].
    unfold Part000.layoutTask. destruct (decide _); [frame |].
    apply getLayout_with_heap_grows; try done. apply requestTemplate_000_request_for.
  - destruct (truthy (partialsDir_for st options)); constructor; [| constructor].
    apply respects_getPartials;
      [apply _ | intros c s; apply heap_grows_set_cache | intros s o; apply heap_grows_alloc
       | done | done | done].
Qed.

Lemma tasks_heap_grows_idx W now filePath options st :
  typeof (layout_for st options) ≠ TyObject →
  respects heap_grows (λ _, True) (parallel (IndexJs.tasks W now filePath options st)).
Proof.
  intros Hobj. apply respects_parallel; [apply _ |]. unfold IndexJs.tasks.
  constructor; [| apply Forall_app; split].
  - apply respects_getView; [apply _ | intros c s; apply heap_grows_set_cache | done | done].
  - destruct (truthy (layout_for st options) && _) eqn:E; constructor; [| constructor].
    cbn [snd]. apply andb_true_iff in E as [Ht E]. apply negb_true_iff in E.
    apply bool_decide_eq_false in E.
    apply getLayout_with_heap_grows; try done. apply requestTemplate_idx_request_for.
  - destruct (truthy (partialsDir_for st options)); constructor; [| constructor].
    apply respects_getPartials;
      [apply _ | intros c s; apply heap_grows_set_cache | intros s o; apply heap_grows_alloc
       | done | done | done].
Qed.

Lemma heap_grows_then_placeholder options key st s1 s2 :
  is_Some (mem st !! options) →
  heap_grows st s1 → placeholder_frame options key s1 s2 →
  (∀ l o, l ≠ options → mem st !! l = Some o → mem s2 !! l = Some o)
  ∧ (∀ k, key ≠ Some k → props (mem s2) options !! k = props (mem st) options !! k).
Proof.
  intros [o Ho] HG [H1 H2]. split.
  - intros l o' Hl Hlo. rewrite H1 by done. by apply HG.
  - intros k Hk. rewrite H2 by done. unfold props. by rewrite (HG _ _ Ho), Ho.
Qed.

(** X21: when the layout in effect is not an object (it is a URL string, a
    template function, or a primitive such as [false]), [render] writes to
    nothing the caller can see but the context's placeholder entry: every
    other object that existed keeps all its properties, and the context
    keeps every property except the one named by the placeholder.  Both
    variants. *)
Theorem render_writes_only_the_placeholder W now filePath options callback st :
  is_Some (mem st !! options) →
  typeof (layout_for st options) ≠ TyObject →
  ∀ r, r = Part000.render W now filePath options callback st
       ∨ r = IndexJs.render W now filePath options callback st →
    (∀ l o, l ≠ options → mem st !! l = Some o → mem r.1.2 !! l = Some o)
    ∧ (∀ k, to_string (placeholder_for st options) ≠ Some k →
            props (mem r.1.2) options !! k = props (mem st) options !! k).
Proof.
  intros Hopt Hobj r [-> | ->].
  - unfold Part000.render. rewrite bind_run. cbn [gets fst snd id]. rewrite bind_run.
    cbn [fst snd].
    destruct (tasks_heap_grows_000 W now filePath options st Hobj st) as [HG _].
    eapply heap_grows_then_placeholder; [done | exact HG |].
    apply (render_tail_placeholder W callback options (placeholder_for st options)
             (helpers_for st options) (result_of TLayout)).
  - unfold IndexJs.render. rewrite bind_run. cbn [gets fst snd id]. rewrite bind_run.
    cbn [fst snd].
    destruct (tasks_heap_grows_idx W now filePath options st Hobj st) as [HG _].
    eapply heap_grows_then_placeholder; [done | exact HG |].
    apply (render_tail_placeholder W callback options (placeholder_for st options)
             (helpers_for st options)
             (λ results, if decide (typeof (layout_for st options) = TyFunction)
                         then layout_for st options else result_of TLayout results)).
Qed.

(** ** Which directory a partial comes from *)

Lemma reduce_dirs_app W pre rest templates st :
  (reduce_dirs W (pre ++ rest) templates st).1.1
  = match (reduce_dirs W pre templates st).1.1 with
    | inl error => inl error
    | inr m => (reduce_dirs W rest m st).1.1
    end.
Proof.
  revert templates. induction pre as [|d pre IH]; intros templates; [done |].
  cbn [app reduce_dirs]. rewrite !bind_run. cbn [emit fst snd].
  destruct (glob W d) as [e|files]; [done |].
  rewrite !bind_run. cbn [fst snd]. rewrite each_file_state.
  destruct (each_file W d files (inr templates) st).1.1 as [e|m]; [done |]. apply IH.
Qed.

Lemma readable_all W dir files :
  forallb (readable W dir) files = true → ∀ f, f ∈ files → is_Some (compiled_from W dir f).
Proof.
  intros H f Hf. apply readable_compiled. rewrite forallb_forall in H.
  apply H. by apply list_elem_of_In.
Qed.

(** Directories without a file named [x] leave the entry for [x] alone. *)
Lemma reduce_dirs_keeps W paths templates st m x :
  (reduce_dirs W paths templates st).1.1 = inr m →
  (∀ d fs f, d ∈ paths → glob W d = inr fs → f ∈ fs → partial_name f ≠ x) →
  m !! x = templates !! x.
Proof.
  revert templates. induction paths as [|d paths IH]; intros templates.
  - by intros [= <-].
  - cbn [reduce_dirs]. rewrite bind_run. cbn [emit fst snd].
    destruct (glob W d) as [e|files] eqn:Hglob; [done |].
    rewrite bind_run. cbn [fst snd]. rewrite each_file_state.
    pose proof (each_file_names W d files templates st) as Hnames.
    destruct (each_file W d files (inr templates) st).1.1 as [e|m1] eqn:E; [done |].
    destruct Hnames as (Hall & _).
    destruct (each_file_merge W d files templates st (readable_all W d files Hall))
      as (m1' & tr & Hrun & Hkeep & _).
    rewrite Hrun in E. injection E as ->.
    intros Hm Hx. rewrite (IH m1 Hm).
    + apply Hkeep. intros f Hf. apply (Hx d files f); [by left | done | done].
    + intros d' fs f Hd'. apply Hx. by right.
Qed.

(** X22: where several directories of the list hold a file for the same
    partial name, the last of them in the list wins: the entry of the
    object [findTemplates] calls back with is compiled from a file of that
    directory. *)
Theorem last_directory_wins W pre dir post files st l cacheControl st' tr x :
  findTemplates W (pre ++ dir :: post) st = (Loaded (VObj l) cacheControl, st', tr) →
  glob W dir = inr files →
  (∃ file, file ∈ files ∧ partial_name file = x) →
  (∀ d fs f, d ∈ post → glob W d = inr fs → f ∈ fs → partial_name f ≠ x) →
  ∃ file content,
    file ∈ files ∧ partial_name file = x
    ∧ readFile W (path_resolve (cwd W) [dir; file]) = inr content
    ∧ props (mem st') l !! x = Some (VFun (Compiled content)).
Proof.
  rewrite findTemplates_run. intros Hrun Hglob Hx Hpost.
  destruct (reduce_dirs W (pre ++ dir :: post) ∅ st).1.1 as [e|m] eqn:E; [done |].
  injection Hrun as <- _ <- _. cbn [mem set_mem]. unfold props. rewrite lookup_insert_eq.
  cbn [default]. change (id m) with m. rewrite reduce_dirs_app in E.
  destruct (reduce_dirs W pre ∅ st).1.1 as [e|m1]; [done |].
  cbn [reduce_dirs] in E. rewrite bind_run in E. cbn [emit fst snd] in E.
  rewrite Hglob, bind_run in E. cbn [fst snd] in E. rewrite each_file_state in E.
  pose proof (each_file_names W dir files m1 st) as Hnames.
  destruct (each_file W dir files (inr m1) st).1.1 as [e|m2] eqn:E2; [done |].
  destruct Hnames as (Hall & _).
  destruct (each_file_merge W dir files m1 st (readable_all W dir files Hall))
    as (m2' & tr' & Hrun & _ & Hlast).
  rewrite Hrun in E2. injection E2 as ->.
  destruct (Hlast x Hx) as (f & Hf & Hn & Hm).
  rewrite (reduce_dirs_keeps W post m2 st m x E Hpost), Hm.
  unfold compiled_from. pose proof (readable_all W dir files Hall f Hf) as [t Ht].
  unfold compiled_from in Ht.
  destruct (readFile W (path_resolve (cwd W) [dir; f])) as [|content] eqn:Hread; [done |].
  by exists f, content.
Qed.

(** ** A view path that is not a string *)

Lemma getView_non_string W now filePath options callback st :
  typeof filePath ≠ TyString →
  getView W now filePath options callback st
  = (Threw (TypeErrorExn "Arguments to path.resolve must be strings"), st, []).
Proof.
  intros Hf. unfold getView.
  by destruct (decide (typeof options = TyFunction)); destruct filePath.
Qed.

(** X23: [render] starts with the view: a [filePath] that is not a string
    makes it throw the [TypeError] of [path.resolve] at once, before any
    request, scan or file access, without calling back.  Both variants. *)
Theorem render_rejects_non_strings W now filePath options callback st :
  typeof filePath ≠ TyString →
  ∃ message,
    Part000.render W now filePath options callback st = (Threw (TypeErrorExn message), st, [])
    ∧ IndexJs.render W now filePath options callback st
      = (Threw (TypeErrorExn message), st, []).
Proof.
  intros Hf. eexists.
  pose proof (getView_non_string W now filePath (VObj options) (VFun (Done TView)) st Hf) as Hv.
  assert (Hpar : ∀ rest,
    parallel ((TView, getView W now filePath (VObj options) (VFun (Done TView))) :: rest) st
    = (Aborted (Threw (TypeErrorExn "Arguments to path.resolve must be strings")), st, [])).
  { intros rest.
    rewrite (parallel_run _ st
               (inl (Threw (TypeErrorExn "Arguments to path.resolve must be strings"))) st []);
      [done | by rewrite dispatch_cons, Hv]. }
  split.
  - unfold Part000.render. rewrite bind_run. cbn [gets fst snd id app].
    unfold Part000.tasks. cbn [app]. rewrite (bind_eq _ _ _ _ _ _ (Hpar _)). by mrun.
  - unfold IndexJs.render. rewrite bind_run. cbn [gets fst snd id app].
    unfold IndexJs.tasks. cbn [app]. rewrite (bind_eq _ _ _ _ _ _ (Hpar _)). by mrun.
Qed.

(** * Caching switched off, directory order, and the partials task *)

(** ** Calls with [cache: false] *)













(** ** The order of the directories *)

(** C6, as amended: for directories [A] and [B] whose files can all be read
    and which both hold a file deriving the partial name [x], a call
    [getPartials([A, B], options, callback)] that resolves the directories
    (caching is disabled, or the store of local resources holds nothing
    under the key of the list, [A] followed by [B]) calls back with a map
    whose entry for [x] is the template compiled from a file of [B]; a call
    with caching enabled that finds an entry under that key calls back with
    the stored map instead, without scanning any directory. *)
Theorem later_directory_overrides W now A B options callback st fa fb x :
  glob W A = inr fa → glob W B = inr fb →
  Forall (λ f, is_Some (compiled_from W A f)) fa →
  Forall (λ f, is_Some (compiled_from W B f)) fb →
  (∃ f, f ∈ fa ∧ partial_name f = x) →
  (∃ f, f ∈ fb ∧ partial_name f = x) →
  typeof options ≠ TyFunction → truthy callback = true →
  let r := getPartials W now (VArr [A; B]) options callback st in
  (get_prop (mem st) options "cache" = VBool false
   ∨ find_entry (partials_key [A; B]) (entries (this_cacheForever (this st))) = None →
   ∃ l f content,
     r.1.1 = Called callback (Success (VObj l))
     ∧ f ∈ fb ∧ partial_name f = x
     ∧ readFile W (path_resolve (cwd W) [B; f]) = inr content
     ∧ props (mem r.1.2) l !! x = Some (VFun (Compiled content)))
  ∧ (forever_ok (this_cacheForever (this st)) →
     get_prop (mem st) options "cache" ≠ VBool false →
     ∀ e, find_entry (partials_key [A; B]) (entries (this_cacheForever (this st))) = Some e →
          r.1.1 = Called callback (Success (value_of e)) ∧ r.2 = []).
Proof.
  intros HA HB Hfa Hfb Hxa Hxb Ho Hcb r. split.
  - intros Hres.
    destruct (getPartials_resolved_overrides W now A B options callback st fa fb x
                HA HB Hfa Hfb Hxa Hxb Ho Hcb Hres)
      as (l & st' & tr & f & Hrun & Hf & Hn & content & Hread & Hx).
    subst r. rewrite Hrun. by exists l, f, content.
  - intros Hok Hc e He.
    destruct (getPartials_cached W now [A; B] options callback st Hok Ho Hc Hcb)
      as (_ & _ & _ & _ & Hhit).
    exact (Hhit e He).
Qed.

(** C6, counterexample.  The directories [a] and [aa] both hold a file
    [x.hbs].  After [getPartials(['a', 'aa'], done)], the call
    [getPartials(['aa', 'a'], done)], whose later directory is [a], calls
    back with a map whose entry for [x] is compiled from the file of [aa],
    the earlier directory of its list: both lists have the key [aaa], and the
    second call is answered from the store. *)
Lemma stored_map_answers_reversed_list :
  let W := Fixtures.two_dirs in
  let A := "aa" in
  let B := "a" in
  let r1 := getPartials W 0 (VArr [B; A]) VUndefined Fixtures.done Fixtures.fresh_instance in
  let r2 := getPartials W 1 (VArr [A; B]) VUndefined Fixtures.done r1.1.2 in
  glob W A = inr ["x.hbs"] ∧ glob W B = inr ["x.hbs"]
  ∧ partial_name "x.hbs" = "x"
  ∧ compiled_from W A "x.hbs" = Some (VFun (Compiled "from aa"))
  ∧ compiled_from W B "x.hbs" = Some (VFun (Compiled "from a"))
  ∧ ∃ l, r2.1.1 = Called Fixtures.done (Success (VObj l))
         ∧ props (mem r2.1.2) l !! "x" = Some (VFun (Compiled "from aa"))
         ∧ props (mem r2.1.2) l !! "x" ≠ compiled_from W B "x.hbs".
Proof.
  cbv zeta. do 5 (split; [vm_compute; reflexivity |]).
  exists 1%positive. split; [vm_compute; reflexivity |].
  split; [vm_compute; reflexivity |]. vm_compute. discriminate.
Qed.

(** ** The partials task of [render] *)

Lemma dispatch_app pre post st outs st2 tr2 :
  dispatch pre st = (inr outs, st2, tr2) →
  dispatch (pre ++ post) st
  = (match (dispatch post st2).1.1 with
     | inl c => inl c
     | inr outs' => inr (outs ++ outs')
     end, (dispatch post st2).1.2, tr2 ++ (dispatch post st2).2).
Proof.
  revert st outs tr2. induction pre as [|[t run] pre IH]; intros st outs tr2.
  - intros [= <- <- <-]. cbn [app]. by destruct (dispatch post st) as [[[c|o] s] tr].
  - cbn [app]. rewrite !dispatch_cons.
    destruct (run st) as [[c s1] t1]. cbn [fst snd].
    destruct c as [e|cb r| |]; try (intros [=]; fail). cbv zeta.
    destruct (dispatch pre s1) as [[[c'|o'] s'] t'] eqn:Hd; cbn [fst snd]; [intros [=] |].
    intros [= <- <- <-]. rewrite (IH s1 o' t' Hd). cbn [fst snd].
    destruct (dispatch post s').1.1; by rewrite <- ?app_assoc.
Qed.

Lemma dispatch_one t (run : M completion) st :
  dispatch [(t, run)] st
  = (match (run st).1.1 with
     | Called cb r => inr [(t, if decide (cb = VFun (Done t)) then Some r else None)]
     | c => inl c
     end, (run st).1.2, (run st).2).
Proof.
  rewrite dispatch_cons. destruct (run st) as [[c s1] t1]. cbn [fst snd dispatch].
  destruct c; cbn; by rewrite ?app_nil_r.
Qed.

(** What [render] does after the join emits nothing and leaves the instance
    alone. *)
Lemma render_tail_silent W callback options placeholder helpers layout (j : joined) :
  respects same_this (λ _, False)
    (match j with
     | Aborted c => mret c
     | Errored error => mret (Called callback (Failure error))
     | Results results =>
         h ← gets mem;
         let settings := settings_for helpers results h options in
         rendered ← call W (result_of TView results) (VObj options) settings;
         match rendered with
         | inl e => mret (Threw e)
         | inr rendered =>
             if truthy (layout results) then
               match to_string placeholder with
               | None => mret Unmodelled
               | Some key =>
                   assign options key (VStr rendered);;
                   rendered ← call W (layout results) (VObj options) settings;
                   match rendered with
                   | inl e => mret (Threw e)
                   | inr rendered => mret (Called callback (Success (VStr rendered)))
                   end
               end
             else mret (Called callback (Success (VStr rendered)))
         end
     end).
Proof. unfold call. frame. Qed.

(** The tasks before the partials task called back, as [v] and [l]. *)
Lemma earlier_tasks_dispatch W now filePath options st
    (layoutTask : M completion) (has_layout : bool) :
  let v := getView W now filePath (VObj options) (VFun (Done TView)) st in
  let l := if has_layout then Some (layoutTask v.1.2) else None in
  calls_back v → (∀ l', l = Some l' → calls_back l') →
  ∃ outs,
    dispatch ([(TView, getView W now filePath (VObj options) (VFun (Done TView)))]
              ++ (if has_layout then [(TLayout, layoutTask)] else [])) st
    = (inr outs, match l with Some l => l.1.2 | None => v.1.2 end,
       v.2 ++ match l with Some l => l.2 | None => [] end).
Proof.
  intros v l (cv & rv & Hv) Hl. cbn [app]. rewrite dispatch_cons. fold v. rewrite Hv. cbv zeta.
  subst l. destruct has_layout.
  - destruct (Hl _ eq_refl) as (cl & rl & Hlay). rewrite dispatch_one, Hlay. cbn [fst snd].
    by eexists.
  - cbn [dispatch]. cbn. rewrite app_nil_r. by eexists.
Qed.

(** [render] goes on to the partials task once the earlier tasks called
    back. *)
Lemma render_ran_partials W now options callback st placeholder helpers layout
    (earlier : list (task * M completion)) (v : run) (l : option run) outs :
  let partials := getPartials W now (partialsDir_for st options) (VObj options)
                    (VFun (Done TPartials)) in
  let tail := λ j : joined,
    match j with
    | Aborted c => mret c
    | Errored error => mret (Called callback (Failure error))
    | Results results =>
        h ← gets mem;
        let settings := settings_for helpers results h options in
        rendered ← call W (result_of TView results) (VObj options) settings;
        match rendered with
        | inl e => mret (Threw e)
        | inr rendered =>
            if truthy (layout results) then
              match to_string placeholder with
              | None => mret Unmodelled
              | Some key =>
                  assign options key (VStr rendered);;
                  rendered ← call W (layout results) (VObj options) settings;
                  match rendered with
                  | inl e => mret (Threw e)
                  | inr rendered => mret (Called callback (Success (VStr rendered)))
                  end
              end
            else mret (Called callback (Success (VStr rendered)))
        end
    end in
  dispatch earlier st
  = (inr outs, match l with Some l => l.1.2 | None => v.1.2 end,
     v.2 ++ match l with Some l => l.2 | None => [] end) →
  ran_partials W now options callback st v l
    ((parallel (earlier ++ [(TPartials, partials)]) ≫= tail) st).
Proof.
  intros partials tail Hd. unfold ran_partials. cbv zeta.
  set (st2 := match l with Some l => l.1.2 | None => v.1.2 end) in *.
  fold partials. set (p := partials st2).
  pose proof (dispatch_app earlier [(TPartials, partials)] st outs st2 _ Hd) as Hall.
  rewrite dispatch_one in Hall. fold p in Hall. cbn [fst snd] in Hall.
  rewrite bind_run. rewrite (parallel_run _ _ _ _ _ Hall). cbn [fst snd].
  match goal with |- context [tail ?j] => set (jn := j) end.
  pose proof (render_tail_silent W callback options placeholder helpers layout jn) as Hresp.
  change (respects same_this (λ _, False) (tail jn)) in Hresp.
  pose proof (silent same_this (tail jn) p.1.2 Hresp) as Hnil.
  destruct (Hresp p.1.2) as [HT _].
  rewrite Hnil, app_nil_r, <- app_assoc. split; [done |]. split; [exact HT |].
  intros error Hp. subst jn. rewrite Hp.
  rewrite decide_True by done.
  destruct (first_error_failure (outs ++ [(TPartials, Some (Failure error))]) TPartials error)
    as [e He]; [apply elem_of_app; right; by left |].
  rewrite He. by exists e.
Qed.

Lemma getView_string_calls_back W now s options cb st :
  typeof options ≠ TyFunction →
  calls_back (getView W now (VStr s) options (VFun cb) st).
Proof.
  intros Ho. unfold calls_back, getView. rewrite decide_False by done.
  cbn [path_resolve_value].
  destruct (String.eqb_spec (path_resolve (cwd W) [s]) "") as [E|_];
    [by apply path_resolve_nonempty in E |].
  cbn [negb truthy]. rewrite bind_run, cache_disabled_run. cbn [fst snd].
  destruct (bool_decide _); mrun; by eexists _, _.
Qed.

Lemma getLayout_with_string_calls_back rt now s options cb st :
  typeof options ≠ TyFunction → s ≠ "" →
  calls_back (getLayout_with rt now (VStr s) options (VFun cb) st).
Proof.
  intros Ho Hs. unfold calls_back, getLayout_with. rewrite !decide_False by done.
  assert (Ht : truthy (VStr s) = true).
  { cbn. by destruct (String.eqb_spec s ""). }
  rewrite bind_run. cbn [gets fst snd]. unfold js_or. rewrite Ht. cbv iota. rewrite Ht.
  cbn [negb truthy].
  destruct (ensure_accept_header_string s st) as (l & st1 & Hrun & _ & _ & Hurl).
  rewrite (bind_eq _ _ _ _ _ _ Hrun). cbn [fst snd].
  rewrite bind_run, cache_disabled_run. cbn [fst snd].
  destruct (bool_decide _); mrun; [by eexists _, _ |].
  cbn [gets fst snd]. rewrite Hurl. mrun. by eexists _, _.
Qed.

Lemma render_000_ran_partials W now filePath options callback st :
  truthy (partialsDir_for st options) = true →
  let layout := layout_for st options in
  let v := getView W now filePath (VObj options) (VFun (Done TView)) st in
  let l := if truthy layout
           then Some (Part000.layoutTask W now layout options v.1.2) else None in
  calls_back v → (∀ l', l = Some l' → calls_back l') →
  ran_partials W now options callback st v l
    (Part000.render W now filePath options callback st).
Proof.
  intros HP layout v l Hv Hl.
  destruct (earlier_tasks_dispatch W now filePath options st
              (Part000.layoutTask W now layout options) (truthy layout) Hv Hl) as [outs Hd].
  unfold Part000.render. rewrite bind_run. cbn [gets fst snd id app].
  unfold Part000.tasks. rewrite HP. fold layout.
  replace ([(TView, getView W now filePath (VObj options) (VFun (Done TView)))]
           ++ (if truthy layout then [(TLayout, Part000.layoutTask W now layout options)] else [])
           ++ [(TPartials, getPartials W now (partialsDir_for st options) (VObj options)
                             (VFun (Done TPartials)))])
    with (([(TView, getView W now filePath (VObj options) (VFun (Done TView)))]
           ++ (if truthy layout then [(TLayout, Part000.layoutTask W now layout options)] else []))
          ++ [(TPartials, getPartials W now (partialsDir_for st options) (VObj options)
                            (VFun (Done TPartials)))])
    by (by rewrite <- app_assoc).
  apply (render_ran_partials W now options callback st (placeholder_for st options)
           (helpers_for st options) (result_of TLayout) _ v l outs Hd).
Qed.

Lemma render_idx_ran_partials W now filePath options callback st :
  truthy (partialsDir_for st options) = true →
  let layout := layout_for st options in
  let v := getView W now filePath (VObj options) (VFun (Done TView)) st in
  let l := if truthy layout && negb (bool_decide (typeof layout = TyFunction))
           then Some (IndexJs.getLayout W now layout (VObj options) (VFun (Done TLayout)) v.1.2)
           else None in
  calls_back v → (∀ l', l = Some l' → calls_back l') →
  ran_partials W now options callback st v l
    (IndexJs.render W now filePath options callback st).
Proof.
  intros HP layout v l Hv Hl.
  destruct (earlier_tasks_dispatch W now filePath options st
              (IndexJs.getLayout W now layout (VObj options) (VFun (Done TLayout)))
              (truthy layout && negb (bool_decide (typeof layout = TyFunction))) Hv Hl)
    as [outs Hd].
  unfold IndexJs.render. rewrite bind_run. cbn [gets fst snd id app].
  unfold IndexJs.tasks. rewrite HP. fold layout.
  match goal with |- context [parallel (?a ++ ?b ++ ?c)] =>
    replace (a ++ b ++ c) with ((a ++ b) ++ c) by (by rewrite <- app_assoc) end.
  apply (render_ran_partials W now options callback st (placeholder_for st options)
           (helpers_for st options)
           (λ results, if decide (typeof layout = TyFunction)
                       then layout else result_of TLayout results) _ v l outs Hd).
Qed.

(** With a path string as view and a URL string, a template function or
    nothing as layout, the tasks before the partials task call back. *)
Lemma earlier_tasks_call_back W now filePath options st :
  typeof filePath = TyString →
  let layout := layout_for st options in
  truthy layout = false ∨ typeof layout = TyString ∨ typeof layout = TyFunction →
  let v := getView W now filePath (VObj options) (VFun (Done TView)) st in
  calls_back v
  ∧ (∀ l', (if truthy layout
            then Some (Part000.layoutTask W now layout options v.1.2) else None) = Some l' →
           calls_back l')
  ∧ (∀ l', (if truthy layout && negb (bool_decide (typeof layout = TyFunction))
            then Some (IndexJs.getLayout W now layout (VObj options) (VFun (Done TLayout))
                         v.1.2)
            else None) = Some l' →
           calls_back l').
Proof.
  intros Hf layout Hlay v. split; [| split].
  - subst v. destruct filePath; try done. by apply getView_string_calls_back.
  - destruct (truthy layout) eqn:Ht; [| done]. intros l' [= <-].
    unfold Part000.layoutTask. destruct (decide (typeof layout = TyFunction)) as [|Hnf].
    { by eexists _, _. }
    destruct Hlay as [Hl | [Hl | Hl]]; [done | | done].
    destruct layout; try done. apply getLayout_with_string_calls_back; [done |].
    intros ->. by cbn in Ht.
  - destruct (truthy layout) eqn:Ht; [| done].
    destruct (bool_decide (typeof layout = TyFunction)) eqn:Hb; [done |]. cbn [andb negb].
    intros l' [= <-]. apply bool_decide_eq_false in Hb.
    destruct Hlay as [Hl | [Hl | Hl]]; [done | | done].
    destruct layout; try done. apply getLayout_with_string_calls_back; [done |].
    intros ->. by cbn in Ht.
Qed.

(** C7: [render] puts the partials task among the tasks it hands to
    [async.parallel] exactly when a partials directory is in effect (the
    per-call option, else the instance's, which a constructor always sets:
    its default is ["views/partials/"]).  When none is in effect, no
    directory is scanned.  When one is, [render] runs [getPartials] on it as
    soon as the view task and the layout task, if there is one, have called
    back, which they do for a path string with a layout that is a URL
    string, a template function or absent: the events of [getPartials] end
    the trace of [render], and an error it delivers fails the render.  Both
    variants. *)
Theorem partials_branch_iff_configured W now filePath options st :
  (TPartials ∈ (Part000.tasks W now filePath options st).*1
   ↔ truthy (partialsDir_for st options) = true)
  ∧ (TPartials ∈ (IndexJs.tasks W now filePath options st).*1
     ↔ truthy (partialsDir_for st options) = true)
  ∧ (truthy (partialsDir_for st options) = false →
     ∀ callback r,
       r = Part000.render W now filePath options callback st
       ∨ r = IndexJs.render W now filePath options callback st →
       Forall no_scan r.2)
  ∧ (∀ o, this st = Part000.create o ∨ IndexJs.create o = Some (this st) →
          truthy (partialsDir_for st options) = true)
  ∧ (truthy (partialsDir_for st options) = true →
     ∀ callback,
       let layout := layout_for st options in
       let v := getView W now filePath (VObj options) (VFun (Done TView)) st in
       let l000 := if truthy layout
                   then Some (Part000.layoutTask W now layout options v.1.2) else None in
       let lidx := if truthy layout && negb (bool_decide (typeof layout = TyFunction))
                   then Some (IndexJs.getLayout W now layout (VObj options)
                                (VFun (Done TLayout)) v.1.2)
                   else None in
       (calls_back v → (∀ l, l000 = Some l → calls_back l) →
        ran_partials W now options callback st v l000
          (Part000.render W now filePath options callback st))
       ∧ (calls_back v → (∀ l, lidx = Some l → calls_back l) →
          ran_partials W now options callback st v lidx
            (IndexJs.render W now filePath options callback st))
       ∧ (typeof filePath = TyString →
          truthy layout = false ∨ typeof layout = TyString ∨ typeof layout = TyFunction →
          ran_partials W now options callback st v l000
            (Part000.render W now filePath options callback st)
          ∧ ran_partials W now options callback st v lidx
              (IndexJs.render W now filePath options callback st))).
Proof.
  destruct (partials_task_listed W now filePath options st) as (H1 & H2 & H3 & H4).
  split; [exact H1 |]. split; [exact H2 |]. split; [exact H3 |]. split; [exact H4 |].
  intros HP callback layout v l000 lidx. split; [| split].
  - by apply render_000_ran_partials.
  - by apply render_idx_ran_partials.
  - intros Hf Hlay.
    destruct (earlier_tasks_call_back W now filePath options st Hf Hlay) as (Hv & H000 & Hidx).
    split; [by apply render_000_ran_partials | by apply render_idx_ran_partials].
Qed.

(** * The further properties, and the three claims above, on the fixtures *)

(** X2 on the two fixture directories. *)
Lemma findTemplates_names_witness :
  let paths := ["/repo/test/fixtures/views/partials"; "/repo/test/fixtures/views/more-partials"] in
  let r := findTemplates Fixtures.test_world paths Fixtures.fresh_instance in
  r.1.1 = Loaded (VObj 1%positive) VUndefined
  ∧ (∀ x v, props (mem r.1.2) 1%positive !! x = Some v →
            x ≠ "__proto__" ∧ template_of Fixtures.test_world paths x v)
  ∧ is_Some (props (mem r.1.2) 1%positive !! "nested/partial").
Proof.
  cbv zeta.
  set (paths := ["/repo/test/fixtures/views/partials"; "/repo/test/fixtures/views/more-partials"]).
  set (r := findTemplates Fixtures.test_world paths Fixtures.fresh_instance).
  assert (Hr : r.1.1 = Loaded (VObj 1%positive) VUndefined) by (vm_compute; reflexivity).
  destruct (findTemplates_names Fixtures.test_world paths Fixtures.fresh_instance 1%positive
              VUndefined r.1.2 r.2 (result_eta r _ Hr)) as [Hfrom Hin].
  split; [exact Hr |]. split; [exact Hfrom |].
  apply (Hin "/repo/test/fixtures/views/more-partials" ["nested/partial.hbs"; "sidebar.hbs"]
           "nested/partial.hbs"); [by right; left | reflexivity | by left].
Defined.

(** X3 on the two fixture directories. *)
Lemma findTemplates_succeeds_iff_witness :
  ∃ l,
    (findTemplates Fixtures.test_world
       ["/repo/test/fixtures/views/partials"; "/repo/test/fixtures/views/more-partials"]
       Fixtures.fresh_instance).1.1
    = Loaded (VObj l) VUndefined.
Proof.
  apply (findTemplates_succeeds_iff Fixtures.test_world
           ["/repo/test/fixtures/views/partials"; "/repo/test/fixtures/views/more-partials"]
           Fixtures.fresh_instance).
  reflexivity.
Defined.

(** X4 on a list whose second directory does not exist. *)
Lemma findTemplates_stops_at_failure_witness :
  scannable Fixtures.test_world "/nowhere" = false
  ∧ findTemplates Fixtures.test_world
      ["/repo/test/fixtures/views/partials"; "/nowhere"; "/repo/test/fixtures/views/more-partials"]
      Fixtures.fresh_instance
    = findTemplates Fixtures.test_world ["/repo/test/fixtures/views/partials"; "/nowhere"]
        Fixtures.fresh_instance.
Proof.
  split; [reflexivity |].
  apply (findTemplates_stops_at_failure Fixtures.test_world
           ["/repo/test/fixtures/views/partials"] "/nowhere"
           ["/repo/test/fixtures/views/more-partials"] Fixtures.fresh_instance).
  reflexivity.
Defined.

(** X5 on the two fixture directories. *)
Lemma findTemplates_file_accesses_witness :
  let paths := ["/repo/test/fixtures/views/partials"; "/repo/test/fixtures/views/more-partials"] in
  reads (findTemplates Fixtures.test_world paths Fixtures.fresh_instance).2
  = ["/repo/test/fixtures/views/partials/sidebar.handlebars";
     "/repo/test/fixtures/views/more-partials/nested/partial.hbs";
     "/repo/test/fixtures/views/more-partials/sidebar.hbs"].
Proof.
  cbv zeta.
  set (paths := ["/repo/test/fixtures/views/partials"; "/repo/test/fixtures/views/more-partials"]).
  destruct (findTemplates_file_accesses Fixtures.test_world paths Fixtures.fresh_instance
              (VObj 1%positive) VUndefined) as [_ ->].
  - vm_compute. reflexivity.
  - vm_compute. reflexivity.
Defined.

(** X6 on [getPartials(dir, done)]. *)
Lemma options_are_optional_witness :
  getPartials Fixtures.test_world 0 Fixtures.partials Fixtures.done VUndefined
    Fixtures.fresh_instance
  = getPartials Fixtures.test_world 0 Fixtures.partials VUndefined Fixtures.done
      Fixtures.fresh_instance.
Proof.
  apply (options_are_optional Fixtures.test_world 0 (Native "done") VUndefined
           Fixtures.fresh_instance).
  discriminate.
Defined.

(** X7 on [getLayout(done)] of an instance with the layout [bare]. *)
Lemma first_argument_defaults_to_instance_witness :
  Part000.getLayout Fixtures.test_world 0 Fixtures.done VUndefined VUndefined Fixtures.body_call
  = Part000.getLayout Fixtures.test_world 0 (this_layout (this Fixtures.body_call)) VNull
      Fixtures.done Fixtures.body_call.
Proof.
  refine (proj1 (proj1 (proj2 (first_argument_defaults_to_instance
                                 Fixtures.test_world 0 Fixtures.body_call _ _))
                   (Native "done") VUndefined VUndefined _));
    discriminate.
Defined.

(** X8 on [getLayout()] of an instance without layout. *)
Lemma missing_source_throws_witness :
  truthy (this_layout (this Fixtures.fresh_instance)) = false
  ∧ Part000.getLayout Fixtures.test_world 0 VUndefined VUndefined Fixtures.done
      Fixtures.fresh_instance
    = (Threw (ErrorExn "RemoteHandlebars.getLayout expects url or this.layout"),
       Fixtures.fresh_instance, []).
Proof.
  split; [reflexivity |].
  apply (missing_source_throws Fixtures.test_world 0 VUndefined VUndefined Fixtures.done
           Fixtures.fresh_instance eq_refl).
  reflexivity.
Defined.

(** X9 on [getView(view)]. *)
Lemma missing_callback_throws_witness :
  getView Fixtures.test_world 0 Fixtures.view VUndefined VUndefined Fixtures.fresh_instance
  = (Threw (ErrorExn "RemoteHandlebars.getView expects callback"), Fixtures.fresh_instance, []).
Proof.
  apply (missing_callback_throws Fixtures.test_world 0 VUndefined VUndefined
           Fixtures.fresh_instance); [discriminate | reflexivity].
Defined.

(** X10 on [getView(undefined, done)]. *)
Lemma getView_rejects_non_strings_witness :
  ∃ message,
    getView Fixtures.test_world 0 VUndefined Fixtures.done VUndefined Fixtures.fresh_instance
    = (Threw (TypeErrorExn message), Fixtures.fresh_instance, []).
Proof.
  apply (getView_rejects_non_strings Fixtures.test_world 0 VUndefined Fixtures.done VUndefined
           Fixtures.fresh_instance).
  discriminate.
Defined.

(** X11 on [getView(view, done)]. *)
Lemma well_formed_calls_call_back_witness :
  ∃ reply,
    (getView Fixtures.test_world 0 Fixtures.view VUndefined Fixtures.done
       Fixtures.fresh_instance).1.1
    = Called Fixtures.done reply.
Proof.
  refine (proj1 (well_formed_calls_call_back Fixtures.test_world 0
                   "test/fixtures/views/index.handlebars" VUndefined (Native "done")
                   Fixtures.fresh_instance _)).
  discriminate.
Defined.

(** X12 on a render whose context brings its own layout template. *)
Lemma function_layout_used_directly_witness :
  layout_for Fixtures.compiled_layout_call 1%positive
    = VFun (Compiled "<main>{{{content}}}</main>")
  ∧ Part000.render Fixtures.test_world 0 Fixtures.view 1%positive Fixtures.done
      Fixtures.compiled_layout_call
    = IndexJs.render Fixtures.test_world 0 Fixtures.view 1%positive Fixtures.done
        Fixtures.compiled_layout_call
  ∧ (Part000.render Fixtures.test_world 0 Fixtures.view 1%positive Fixtures.done
       Fixtures.compiled_layout_call).1.1
    = Called Fixtures.done (Success (VStr "<main><article>Hello</article></main>")).
Proof.
  split; [reflexivity |].
  set (W := Fixtures.test_world). set (st := Fixtures.compiled_layout_call).
  set (v := getView W 0 Fixtures.view (VObj 1%positive) (VFun (Done TView)) st).
  set (p := getPartials W 0 (partialsDir_for st 1%positive) (VObj 1%positive)
              (VFun (Done TPartials)) v.1.2).
  destruct (function_layout_used_directly W 0 Fixtures.view 1%positive Fixtures.done st
              (Compiled "<article>Hello</article>") (Compiled "<main>{{{content}}}</main>")
              (VObj 2%positive) "content" v.1.2 p.1.2 v.2 p.2) as (H0 & H1 & _).
  - reflexivity.
  - apply run_eta. vm_compute. reflexivity.
  - change (truthy (partialsDir_for st 1%positive)) with true. cbv iota.
    apply run_eta. vm_compute. reflexivity.
  - reflexivity.
  - split; [by rewrite H0, H1 |]. rewrite H0. reflexivity.
Defined.

(** X13 on a view that does not exist. *)
Lemma unreadable_view_fails_render_witness :
  match (Part000.render Fixtures.test_world 0 (VStr "missing.handlebars") 1%positive
           Fixtures.done Fixtures.plain_call).1.1 with
  | Called cb reply => cb = Fixtures.done ∧ ∃ e, reply = Failure e
  | _ => True
  end.
Proof.
  apply (unreadable_view_fails_render Fixtures.test_world 0 (VStr "missing.handlebars")
           1%positive Fixtures.done Fixtures.plain_call "ENOENT: no such file or directory").
  - vm_compute. reflexivity.
  - by left.
Defined.

(** X14 on [getLayout('http://mocked/layouts/default', done)]. *)
Lemma getLayout_builds_descriptor_witness :
  let r := Part000.getLayout Fixtures.test_world 0 (VStr "http://mocked/layouts/default")
             VUndefined Fixtures.done Fixtures.fresh_instance in
  ∃ l lh,
    mem Fixtures.fresh_instance !! l = None ∧ mem Fixtures.fresh_instance !! lh = None
    ∧ mem r.1.2 !! l
      = Some {[ "url" := VStr "http://mocked/layouts/default"; "headers" := VObj lh ]}
    ∧ mem r.1.2 !! lh = Some {[ "Accept" := VStr accept ]}
    ∧ (∀ l', l' ≠ l → l' ≠ lh → mem r.1.2 !! l' = mem Fixtures.fresh_instance !! l')
    ∧ Forall (request_for (VObj l)) r.2.
Proof.
  cbv zeta.
  apply (getLayout_builds_descriptor Fixtures.test_world 0 "http://mocked/layouts/default"
           VUndefined Fixtures.done Fixtures.fresh_instance);
    [discriminate | discriminate | reflexivity | by left].
Defined.

(** X16 on a URL the mocked transport refuses. *)
Lemma getLayout_passes_on_transport_error_witness :
  (Part000.getLayout Fixtures.test_world 0 (VStr "http://nowhere/") VUndefined Fixtures.done
     Fixtures.fresh_instance).1.1
  = Called Fixtures.done (Failure "connect ECONNREFUSED").
Proof.
  apply (getLayout_passes_on_transport_error Fixtures.test_world 0 "http://nowhere/" VUndefined
           Fixtures.done Fixtures.fresh_instance "connect ECONNREFUSED").
  - discriminate.
  - discriminate.
  - reflexivity.
  - intros h d Hurl. cbn [request Fixtures.test_world]. unfold Fixtures.mocked.
    rewrite Hurl. reflexivity.
  - right. reflexivity.
  - by left.
Defined.

(** X17 on [render(view, {cache: false}, done)] with the layout [bare]. *)
Lemma render_uncached_keeps_stores_witness :
  get_prop (mem Fixtures.uncached_render) (VObj 1%positive) "cache" = VBool false
  ∧ this (Part000.render Fixtures.test_world 0 Fixtures.view 1%positive Fixtures.done
            Fixtures.uncached_render).1.2
    = this Fixtures.uncached_render.
Proof.
  split; [reflexivity |].
  refine (proj1 (render_uncached_keeps_stores Fixtures.test_world 0 Fixtures.view 1%positive
                   Fixtures.done Fixtures.uncached_render _ _)); [reflexivity |].
  vm_compute. discriminate.
Defined.

(** X18 on an instance built without options. *)
Lemma constructed_instance_has_partialsDir_witness :
  this_partialsDir (Part000.create ∅) = VStr "views/partials/"
  ∧ (getPartials Fixtures.test_world 0 VUndefined VUndefined VUndefined
       Fixtures.fresh_instance).1.1
    ≠ Threw (ErrorExn "RemoteHandlebars.getPartials expects partialsDir or this.partialsDir").
Proof.
  destruct (constructed_instance_has_partialsDir ∅ (Part000.create ∅) Fixtures.test_world 0
              VUndefined VUndefined VUndefined Fixtures.fresh_instance) as [_ H];
    [by left | reflexivity |].
  split; [reflexivity | exact H].
Defined.

(** X19 on a transport that always answers 200 without headers. *)
Lemma variants_agree_on_plain_transport_witness :
  Part000.render Fixtures.plain_world 0 Fixtures.view 1%positive Fixtures.done Fixtures.body_call
  = IndexJs.render Fixtures.plain_world 0 Fixtures.view 1%positive Fixtures.done
      Fixtures.body_call.
Proof.
  apply (variants_agree_on_plain_transport Fixtures.plain_world 0 Fixtures.body_call).
  intros h url resp [= <-]. split; [reflexivity | reflexivity].
Defined.

(** X20 on two calls [getView(view, done)], an hour apart. *)
Lemma getView_reads_a_file_once_witness :
  let r1 := getView Fixtures.test_world 0 Fixtures.view VUndefined Fixtures.done
              Fixtures.fresh_instance in
  let r2 := getView Fixtures.test_world 3600 Fixtures.view VUndefined Fixtures.done r1.1.2 in
  r1.1.1 = Called Fixtures.done (Success (VFun (Compiled "<article>Hello</article>")))
  ∧ r2.1.1 = Called Fixtures.done (Success (VFun (Compiled "<article>Hello</article>")))
  ∧ r2.2 = [].
Proof.
  cbv zeta.
  set (r1 := getView Fixtures.test_world 0 Fixtures.view VUndefined Fixtures.done
               Fixtures.fresh_instance).
  assert (Hr1 : r1.1.1
                = Called Fixtures.done (Success (VFun (Compiled "<article>Hello</article>"))))
    by (vm_compute; reflexivity).
  split; [exact Hr1 |].
  destruct (getView_reads_a_file_once Fixtures.test_world Fixtures.test_world 0 3600
              "test/fixtures/views/index.handlebars" VUndefined VUndefined
              Fixtures.done Fixtures.done Fixtures.fresh_instance) as [Hhit _];
    try discriminate; try reflexivity.
  - by repeat split.
  - exact (Hhit _ Hr1).
Defined.

(** X21 on a render with the layout [bare] and the context
    [{placeholder: 'body'}]. *)
Lemma render_writes_only_the_placeholder_witness :
  let r := Part000.render Fixtures.test_world 0 Fixtures.view 1%positive Fixtures.done
             Fixtures.body_call in
  props (mem r.1.2) 1%positive !! "placeholder" = Some (VStr "body")
  ∧ props (mem r.1.2) 1%positive !! "body" = Some (VStr "<article>Hello</article>").
Proof.
  cbv zeta.
  destruct (render_writes_only_the_placeholder Fixtures.test_world 0 Fixtures.view 1%positive
              Fixtures.done Fixtures.body_call) with
    (r := Part000.render Fixtures.test_world 0 Fixtures.view 1%positive Fixtures.done
            Fixtures.body_call) as [_ Hkeep].
  - by eexists.
  - vm_compute. discriminate.
  - by left.
  - split; [| vm_compute; reflexivity].
    rewrite (Hkeep "placeholder"); [reflexivity | vm_compute; discriminate].
Defined.

(** X22 on the two fixture directories, which both hold a [sidebar]. *)
Lemma last_directory_wins_witness :
  let paths := ["/repo/test/fixtures/views/partials"; "/repo/test/fixtures/views/more-partials"] in
  let r := findTemplates Fixtures.test_world paths Fixtures.fresh_instance in
  r.1.1 = Loaded (VObj 1%positive) VUndefined
  ∧ ∃ file content,
      file ∈ ["nested/partial.hbs"; "sidebar.hbs"] ∧ partial_name file = "sidebar"
      ∧ readFile Fixtures.test_world
          (path_resolve (cwd Fixtures.test_world)
             ["/repo/test/fixtures/views/more-partials"; file]) = inr content
      ∧ props (mem r.1.2) 1%positive !! "sidebar" = Some (VFun (Compiled content)).
Proof.
  cbv zeta.
  set (r := findTemplates Fixtures.test_world
              ["/repo/test/fixtures/views/partials"; "/repo/test/fixtures/views/more-partials"]
              Fixtures.fresh_instance).
  assert (Hr : r.1.1 = Loaded (VObj 1%positive) VUndefined) by (vm_compute; reflexivity).
  split; [exact Hr |].
  apply (last_directory_wins Fixtures.test_world ["/repo/test/fixtures/views/partials"]
           "/repo/test/fixtures/views/more-partials" []
           ["nested/partial.hbs"; "sidebar.hbs"] Fixtures.fresh_instance 1%positive VUndefined
           r.1.2 r.2 "sidebar").
  - exact (result_eta r _ Hr).
  - reflexivity.
  - exists "sidebar.hbs". split; [by right; left | reflexivity].
  - intros d fs f Hd. by apply elem_of_nil in Hd.
Defined.

(** X23 on [render(undefined, {}, done)]. *)
Lemma render_rejects_non_strings_witness :
  ∃ message,
    Part000.render Fixtures.test_world 0 VUndefined 1%positive Fixtures.done Fixtures.plain_call
    = (Threw (TypeErrorExn message), Fixtures.plain_call, [])
    ∧ IndexJs.render Fixtures.test_world 0 VUndefined 1%positive Fixtures.done
        Fixtures.plain_call
      = (Threw (TypeErrorExn message), Fixtures.plain_call, []).
Proof.
  apply (render_rejects_non_strings Fixtures.test_world 0 VUndefined 1%positive Fixtures.done
           Fixtures.plain_call).
  discriminate.
Defined.


(** C6 on the two fixture directories, which both hold a [sidebar], for a
    new instance, whose store is empty. *)
Lemma later_directory_overrides_witness :
  let r := getPartials Fixtures.test_world 0 Fixtures.both_dirs VUndefined Fixtures.done
             Fixtures.fresh_instance in
  ∃ l f content,
    r.1.1 = Called Fixtures.done (Success (VObj l))
    ∧ f ∈ ["nested/partial.hbs"; "sidebar.hbs"]
    ∧ partial_name f = "sidebar"
    ∧ readFile Fixtures.test_world
        (path_resolve (cwd Fixtures.test_world)
           ["/repo/test/fixtures/views/more-partials"; f]) = inr content
    ∧ props (mem r.1.2) l !! "sidebar" = Some (VFun (Compiled content)).
Proof.
  refine (proj1 (later_directory_overrides Fixtures.test_world 0
                   "/repo/test/fixtures/views/partials"
                   "/repo/test/fixtures/views/more-partials"
                   VUndefined Fixtures.done Fixtures.fresh_instance
                   ["sidebar.handlebars"] ["nested/partial.hbs"; "sidebar.hbs"] "sidebar"
                   _ _ _ _ _ _ _ _) _).
  - reflexivity.
  - reflexivity.
  - repeat constructor; by eexists.
  - repeat constructor; by eexists.
  - exists "sidebar.handlebars". split; [by left | reflexivity].
  - exists "sidebar.hbs". split; [by right; left | reflexivity].
  - discriminate.
  - reflexivity.
  - right. reflexivity.
Defined.

(** C7 on [render(view, {placeholder: 'body'}, done)] of an instance with
    the fixture directory of partials, which is scanned, and on
    [render(view, {}, done)] of an instance without partials directory. *)
Lemma partials_branch_iff_configured_witness :
  (truthy (partialsDir_for Fixtures.body_call 1%positive) = true
   ∧ ∃ tr, (Part000.render Fixtures.test_world 0 Fixtures.view 1%positive Fixtures.done
              Fixtures.body_call).2
           = tr ++ [EvGlob "/repo/test/fixtures/views/partials";
                    EvReadFile "/repo/test/fixtures/views/partials/sidebar.handlebars";
                    EvCompile "<ul></ul>"])
  ∧ (truthy (partialsDir_for Fixtures.without_partials 1%positive) = false
     ∧ (TPartials ∉ (Part000.tasks Fixtures.test_world 0 Fixtures.view 1%positive
                       Fixtures.without_partials).*1)
     ∧ Forall no_scan
         (Part000.render Fixtures.test_world 0 Fixtures.view 1%positive Fixtures.done
            Fixtures.without_partials).2).
Proof.
  split.
  - split; [reflexivity |].
    destruct (partials_branch_iff_configured Fixtures.test_world 0 Fixtures.view 1%positive
                Fixtures.body_call) as (_ & _ & _ & _ & Hrun).
    destruct (Hrun eq_refl Fixtures.done) as (_ & _ & Hdoc).
    destruct (Hdoc eq_refl) as [(Htr & _) _]; [right; left; reflexivity |].
    rewrite Htr. eexists. rewrite app_assoc. f_equal.
  - destruct (partials_branch_iff_configured Fixtures.test_world 0 Fixtures.view 1%positive
                Fixtures.without_partials) as (Hiff & _ & Hscan & _).
    split; [reflexivity |]. split.
    + intros Hin. apply Hiff in Hin. discriminate.
    + apply (Hscan eq_refl Fixtures.done). by left.
Defined.
